(** * Notebook-to-MDX conversion scripts of pixeltable's docs3 tree

  A shallow embedding of the text transformations in
  [docs3/scripts/jupyter_to_docusaurus.py], [docs3/scripts/clean_mdx.py],
  [docs3/scripts/fix_mdx.py], [docs3/fix_mdx_issues.py],
  [docs3/scripts/add_frontmatter.py] and of the batch drivers, followed by
  the properties of the specification that concern them.

  Text model.  A Python [str] is a [list ascii]; a character stands for a
  code point below 256.  The regular expressions of the scripts only ever
  ask for the letters [a-zA-Z]; [str.title] follows the case of all the
  letters below 256.  Dictionary keys and type tags are [string]s. *)

From Stdlib Require Import Ascii String List Arith Bool Lia.
From Stdlib Require Import DecimalString DecimalNat DecimalFacts.
From stdpp Require Import base list strings gmap.
Import ListNotations.
Local Open Scope char_scope.

Abbreviation pystr := (list ascii).

(** [str "..."] is the Python literal with that content. *)
Definition str (s : string) : pystr := list_ascii_of_string s.

(* ================================================================== *)
(** * Python string primitives                                          *)
(* ================================================================== *)

Module Py.

Definition nl : ascii := "010".       (* newline *)
Definition cr : ascii := "013".       (* carriage return *)
Definition dquote : ascii := "034".   (* double quote *)
Definition backslash : ascii := "\".
Definition backtick : ascii := "`".

(** [str.isspace] on one character, also the class [\s] of [re] on [str]
    patterns: U+0009..U+000D, U+001C..U+0020, U+0085, U+00A0. *)
Definition isspace (c : ascii) : bool :=
  let n := nat_of_ascii c in
  (Nat.leb 9 n && Nat.leb n 13) || (Nat.leb 28 n && Nat.leb n 32)
  || Nat.eqb n 133 || Nat.eqb n 160.

Definition islower (c : ascii) : bool :=
  let n := nat_of_ascii c in Nat.leb 97 n && Nat.leb n 122.
Definition isupper (c : ascii) : bool :=
  let n := nat_of_ascii c in Nat.leb 65 n && Nat.leb n 90.
(** The class [[a-zA-Z]]. *)
Definition isalpha (c : ascii) : bool := islower c || isupper c.
Definition isdigit (c : ascii) : bool :=
  let n := nat_of_ascii c in Nat.leb 48 n && Nat.leb n 57.
Definition upper (c : ascii) : ascii :=
  if islower c then ascii_of_nat (nat_of_ascii c - 32) else c.
Definition lower (c : ascii) : ascii :=
  if isupper c then ascii_of_nat (nat_of_ascii c + 32) else c.

Fixpoint takewhile (p : ascii -> bool) (s : pystr) : pystr :=
  match s with
  | c :: r => if p c then c :: takewhile p r else []
  | [] => []
  end.

Fixpoint dropwhile (p : ascii -> bool) (s : pystr) : pystr :=
  match s with
  | c :: r => if p c then dropwhile p r else s
  | [] => []
  end.

Definition lstrip (s : pystr) : pystr := dropwhile isspace s.
Definition rstrip (s : pystr) : pystr := rev (dropwhile isspace (rev s)).
(** [s.strip()] *)
Definition strip (s : pystr) : pystr := rstrip (lstrip s).

(** [s.startswith(p)] *)
Fixpoint startswith (p s : pystr) : bool :=
  match p, s with
  | [], _ => true
  | a :: p', b :: s' => Ascii.eqb a b && startswith p' s'
  | _ :: _, [] => false
  end.

(** [s.endswith(p)] *)
Definition endswith (p s : pystr) : bool := startswith (rev p) (rev s).

(** [s.split(sep)] for a one-character separator: never empty, the empty
    text splits into one empty part. *)
Fixpoint split_on (sep : ascii) (s : pystr) : list pystr :=
  match s with
  | [] => [[]]
  | c :: r =>
      if Ascii.eqb c sep then [] :: split_on sep r
      else match split_on sep r with
           | l :: ls => (c :: l) :: ls
           | [] => [[c]]
           end
  end.

(** The lines of a text: [s.split] at the newline character. *)
Definition split_nl (s : pystr) : list pystr := split_on nl s.

(** [sep.join(parts)] *)
Fixpoint join (sep : pystr) (parts : list pystr) : pystr :=
  match parts with
  | [] => []
  | [p] => p
  | p :: ps => p ++ sep ++ join sep ps
  end.

(** [join] with the empty separator. *)
Definition concat_str (parts : list pystr) : pystr := concat parts.

(** [s.replace(old, new)] for a non-empty [old]: the occurrences of [old]
    are found from the left and do not overlap; [skip] counts the
    characters of the current occurrence still to be passed over. *)
Fixpoint replace_from (skip : nat) (old new s : pystr) : pystr :=
  match s with
  | [] => []
  | c :: r =>
      match skip with
      | S k => replace_from k old new r
      | O =>
          if startswith old s
          then new ++ replace_from (length old - 1) old new r
          else c :: replace_from 0 old new r
      end
  end.

Definition replace (old new s : pystr) : pystr := replace_from 0 old new s.

(** [s.count(old)] for a non-empty [old]: the occurrences that [replace]
    replaces. *)
Fixpoint count_from (skip : nat) (old s : pystr) : nat :=
  match s with
  | [] => 0
  | c :: r =>
      match skip with
      | S k => count_from k old r
      | O =>
          if startswith old s
          then S (count_from (length old - 1) old r)
          else count_from 0 old r
      end
  end.

Definition count (old s : pystr) : nat := count_from 0 old s.

(** ** [str.title]

    The case of the code points below 256, as the Unicode tables of Python
    have it.  Besides the ASCII letters, the letters 192-222 (without the
    multiplication sign 215) are in upper case and have their lower case 32
    places on; the letters 223-255 (without the division sign 247) are in
    lower case; the ordinal indicators 170 and 186 and the micro sign 181
    are cased and have no other lower case. *)

Definition upper_latin1 (c : ascii) : bool :=
  let n := nat_of_ascii c in
  Nat.leb 192 n && Nat.leb n 222 && negb (Nat.eqb n 215).

Definition lower_latin1 (c : ascii) : bool :=
  let n := nat_of_ascii c in
  Nat.leb 223 n && Nat.leb n 255 && negb (Nat.eqb n 247).

Definition cased (c : ascii) : bool :=
  let n := nat_of_ascii c in
  islower c || isupper c || upper_latin1 c || lower_latin1 c
  || Nat.eqb n 170 || Nat.eqb n 181 || Nat.eqb n 186.

(** The lower case of one character. *)
Definition to_lower (c : ascii) : ascii :=
  if isupper c || upper_latin1 c then ascii_of_nat (nat_of_ascii c + 32) else c.

(** The title case of one character.  That of the sharp s (223) is the two
    letters [Ss].  The title case of the micro sign (181) and of the y with
    diaeresis (255) are the code points 924 and 376, which are no
    characters of the model: [to_title] leaves these two as they are, and
    [title_fits] tells the texts whose title does not ask for them. *)
Definition no_title (c : ascii) : bool :=
  let n := nat_of_ascii c in Nat.eqb n 181 || Nat.eqb n 255.

Definition to_title (c : ascii) : pystr :=
  let n := nat_of_ascii c in
  if Nat.eqb n 223 then str "Ss"
  else if no_title c then [c]
  else if islower c || lower_latin1 c then [ascii_of_nat (n - 32)]
  else [c].

(** [s.title()]: a character that follows an uncased one is put in title
    case, a character that follows a cased one in lower case. *)
Fixpoint title_from (previous_is_cased : bool) (s : pystr) : pystr :=
  match s with
  | [] => []
  | c :: r =>
      (if previous_is_cased then [to_lower c] else to_title c)
      ++ title_from (cased c) r
  end.

Definition title (s : pystr) : pystr := title_from false s.

(** The title of [s] is a text of the model: neither the micro sign nor the
    y with diaeresis stands where the title case is asked for, that is,
    after an uncased character or at the start. *)
Fixpoint title_fits_from (previous_is_cased : bool) (s : pystr) : bool :=
  match s with
  | [] => true
  | c :: r =>
      (previous_is_cased || negb (no_title c)) && title_fits_from (cased c) r
  end.

Definition title_fits (s : pystr) : bool := title_fits_from false s.

(** [str(n)] for a natural number. *)
Definition str_of_nat (n : nat) : pystr :=
  list_ascii_of_string (NilEmpty.string_of_uint (Nat.to_uint n)).

(** [pathlib.Path(path).stem] for a POSIX path: the last component that is
    neither empty nor ["."], without its last suffix (a dot that is neither
    the first nor the last character of the name starts the suffix). *)
Definition path_name (path : pystr) : pystr :=
  List.last
    (List.filter (fun p => negb (Nat.eqb (length p) 0 || startswith ["."] p && Nat.eqb (length p) 1))
       (split_on "/" path)) [].

(** [name.rfind] of the dot as the length of the part before the last dot. *)
Fixpoint rfind_dot (name : pystr) : option nat :=
  match name with
  | [] => None
  | c :: r =>
      match rfind_dot r with
      | Some i => Some (S i)
      | None => if Ascii.eqb c "." then Some 0 else None
      end
  end.

Definition path_stem (path : pystr) : pystr :=
  let name := path_name path in
  match rfind_dot name with
  | Some i => if Nat.ltb 0 i && Nat.ltb i (length name - 1) then take i name else name
  | None => name
  end.

End Py.

(* ================================================================== *)
(** * Regular-expression substitution                                   *)
(* ================================================================== *)

(** A compiled pattern is modelled by what it does at one position of the
  subject: given the character before the position ([None] at the start,
  for look-behind and for [^]) and the rest of the subject, the match that
  starts there, if any.  None of the patterns of the scripts matches the
  empty string; a match of length zero counts as no match. *)
Module Re.

Record found := { span : nat; groups : list pystr }.

Definition matcher := option ascii -> pystr -> option found.

(** The subject cut into the characters no match covers and the matches,
    found from the left and not overlapping, as [re.sub] and [re.finditer]
    find them. *)
Inductive piece :=
| Lit (c : ascii)
| Match (text : pystr) (gs : list pystr).

Fixpoint pieces_from (m : matcher) (skip : nat) (prev : option ascii)
    (s : pystr) : list piece :=
  match s with
  | [] => []
  | c :: r =>
      match skip with
      | S k => pieces_from m k (Some c) r
      | O =>
          match m prev s with
          | Some {| span := S n; groups := gs |} =>
              Match (take (S n) s) gs :: pieces_from m n (Some c) r
          | _ => Lit c :: pieces_from m 0 (Some c) r
          end
      end
  end.

Definition pieces (m : matcher) (s : pystr) : list piece :=
  pieces_from m 0 None s.

(** [re.sub(pattern, repl, s)] with [repl] given the match and its groups. *)
Definition sub (m : matcher) (repl : pystr -> list pystr -> pystr)
    (s : pystr) : pystr :=
  concat (map (fun p => match p with
                        | Lit c => [c]
                        | Match t gs => repl t gs
                        end) (pieces m s)).

(** [re.search(pattern, s)]: the leftmost match. *)
Fixpoint first_match (ps : list piece) : option (pystr * list pystr) :=
  match ps with
  | [] => None
  | Lit _ :: ps' => first_match ps'
  | Match t gs :: _ => Some (t, gs)
  end.

Definition search (m : matcher) (s : pystr) : option (pystr * list pystr) :=
  first_match (pieces m s).

(** [re.findall] of a pattern without groups. *)
Fixpoint matches (ps : list piece) : list pystr :=
  match ps with
  | [] => []
  | Lit _ :: ps' => matches ps'
  | Match t _ :: ps' => t :: matches ps'
  end.

(** The text a piece stands for. *)
Definition raw (p : piece) : pystr :=
  match p with
  | Lit c => [c]
  | Match t _ => t
  end.

(** The character before the position reached after [u], when the
    character before [u] is [prev]. *)
Definition last_of (u : pystr) (prev : option ascii) : option ascii :=
  match rev u with
  | c :: _ => Some c
  | [] => prev
  end.

(** ** Helpers for the matchers *)

Definition neqb (a : ascii) : ascii -> bool := fun c => negb (Ascii.eqb c a).

(** The text before the first [>] of [s], when there is one: what a greedy
    [[^>]*] followed by [>] takes. *)
Fixpoint before (stop : ascii) (s : pystr) : option pystr :=
  match s with
  | [] => None
  | c :: r => if Ascii.eqb c stop then Some []
              else option_map (cons c) (before stop r)
  end.

(** The number of characters before the first occurrence of [w] in [s]:
    what a lazy [.*?] (with DOTALL) followed by the literal [w] takes. *)
Fixpoint before_word (w s : pystr) : option nat :=
  if Py.startswith w s then Some 0
  else match s with
       | [] => None
       | _ :: r => option_map S (before_word w r)
       end.

(** The largest [e] in [1..n] that [f] accepts: a greedy repetition giving
    characters back one at a time. *)
Fixpoint longest (f : nat -> option found) (n : nat) : option found :=
  match n with
  | O => None
  | S n' => match f n with
            | Some x => Some x
            | None => longest f n'
            end
  end.

(** The first word of an alternation that the subject starts with. *)
Definition alternation (words : list pystr) (s : pystr) : option pystr :=
  List.find (fun w => Py.startswith w s) words.

Definition found_of (n : nat) (gs : list pystr) : option found :=
  Some {| span := n; groups := gs |}.

(** [https?://] *)
Definition scheme (s : pystr) : option nat :=
  if Py.startswith (str "https://") s then Some 8
  else if Py.startswith (str "http://") s then Some 7
  else None.

End Re.

(* ================================================================== *)
(** * Patterns that several scripts share                               *)
(* ================================================================== *)

Module Tags.
Import Py Re.

Definition next_is (p : ascii -> bool) (r : pystr) : bool :=
  match r with
  | c :: _ => p c
  | [] => false
  end.

Definition prev_is (p : ascii -> bool) (prev : option ascii) : bool :=
  match prev with
  | Some c => p c
  | None => false
  end.

(** [<(?![a-zA-Z/!])] *)
Definition tag_start (c : ascii) : bool :=
  isalpha c || Ascii.eqb c "/" || Ascii.eqb c "!".

Definition bare_lt : matcher := fun _ s =>
  match s with
  | "<" :: r => if next_is tag_start r then None else found_of 1 []
  | _ => None
  end.

(** [<(G1)\s+ATTR=Q[^Q]*Q(G2)>] for [ATTR] one of [style], [class], with
    [Q] the double quote, [G1] the group [[^>]+] and [G2] the group [[^>]*]:
    the first group is greedy, so the last such attribute before the first
    [>] after the [<] is the one removed. *)
Definition attribute_at (attr : pystr) (r : pystr) (e : nat) : option found :=
  let rest := drop e r in
  let ws := takewhile isspace rest in
  let key := attr ++ ["="; dquote] in
  if Nat.ltb 0 (length ws) && startswith key (drop (length ws) rest) then
    let after := drop (length ws + length key) rest in
    let value := takewhile (neqb dquote) after in
    match drop (length value) after with
    | q :: tail =>
        match before ">" tail with
        | Some g2 =>
            found_of (1 + e + length ws + length key + length value + 1
                      + length g2 + 1) [take e r; g2]
        | None => None
        end
    | [] => None
    end
  else None.

Definition attribute (attr : pystr) : matcher := fun _ s =>
  match s with
  | "<" :: r => longest (attribute_at attr r) (length (takewhile (neqb ">") r))
  | _ => None
  end.

Definition drop_attribute (_ : pystr) (gs : list pystr) : pystr :=
  "<" :: concat gs ++ [">"].

(** [<(br|hr|img)(G2)(?<!/)>] with [G2] the group [[^>]*]. *)
Definition void_tag : matcher := fun _ s =>
  match s with
  | "<" :: r =>
      match alternation [str "br"; str "hr"; str "img"] r with
      | Some name =>
          match before ">" (drop (length name) r) with
          | Some attrs =>
              if endswith ["/"] attrs then None
              else found_of (1 + length name + length attrs + 1) [name; attrs]
          | None => None
          end
      | None => None
      end
  | _ => None
  end.

Definition self_close (_ : pystr) (gs : list pystr) : pystr :=
  "<" :: concat gs ++ str " />".

(** [(?<!\[)(?<!\()https?://[^\s<>Q\[\]]+] with [Q] the double quote. *)
Definition url_char (c : ascii) : bool :=
  negb (isspace c || Ascii.eqb c "<" || Ascii.eqb c ">" || Ascii.eqb c dquote
        || Ascii.eqb c "[" || Ascii.eqb c "]").

Definition bare_url : matcher := fun prev s =>
  if prev_is (Ascii.eqb "[") prev || prev_is (Ascii.eqb "(") prev then None
  else match scheme s with
       | Some k =>
           let run := takewhile url_char (drop k s) in
           if Nat.ltb 0 (length run) then found_of (k + length run) [] else None
       | None => None
       end.

End Tags.

(* ================================================================== *)
(** * Files, output and exceptions                                      *)
(* ================================================================== *)

(** The scripts read and write text files and print progress lines.  A file
  either holds text that decodes as UTF-8 or bytes that do not; reading
  the latter, or a missing file, raises. *)
Module IO.

Inductive file_data :=
| Utf8 (text : pystr)
| Undecodable.

Inductive exn :=
| FileNotFoundError (path : string)
| UnicodeDecodeError (path : string).

Record world := {
  fs : gmap string file_data;
  stdout : list pystr;          (* the lines printed so far, oldest first *)
}.

(** A computation either returns or raises [Exception]; both leave a world. *)
Inductive outcome (A : Type) :=
| Return (a : A) (w : world)
| Raise (e : exn) (w : world).
Arguments Return {A} a w.
Arguments Raise {A} e w.

Definition io (A : Type) := world -> outcome A.

Definition ret {A} (a : A) : io A := fun w => Return a w.

Definition bind {A B} (m : io A) (k : A -> io B) : io B :=
  fun w => match m w with
           | Return a w' => k a w'
           | Raise e w' => Raise e w'
           end.

(** [try: m  except Exception as e: h e] *)
Definition try_except {A} (m : io A) (h : exn -> io A) : io A :=
  fun w => match m w with
           | Return a w' => Return a w'
           | Raise e w' => h e w'
           end.

(** A file opened for reading in text mode has its line ends translated:
    a carriage return followed by a newline, and a carriage return alone,
    are both read as one newline.  [after_cr] tells that the character
    before was a carriage return. *)
Fixpoint newlines_from (after_cr : bool) (s : pystr) : pystr :=
  match s with
  | [] => []
  | c :: r =>
      if Ascii.eqb c Py.cr then Py.nl :: newlines_from true r
      else if Ascii.eqb c Py.nl
           then (if after_cr then newlines_from false r
                 else Py.nl :: newlines_from false r)
           else c :: newlines_from false r
  end.

Definition universal_newlines (s : pystr) : pystr := newlines_from false s.

(** [with open(path, 'r', encoding='utf-8') as f: f.read()]: the text of
    the file, decoded, with its line ends translated. *)
Definition read_text (path : string) : io pystr :=
  fun w => match fs w !! path with
           | Some (Utf8 t) => Return (universal_newlines t) w
           | Some Undecodable => Raise (UnicodeDecodeError path) w
           | None => Raise (FileNotFoundError path) w
           end.

(** [with open(path, 'w', encoding='utf-8') as f: f.write(text)].  The
    text is written as it is: the line separator of the system is the
    newline.  The directory of [path] is taken to exist: the scripts write
    next to a file they have read; where the path written is computed from
    the path read, a property that needs the write to succeed says so. *)
Definition write_text (path : string) (text : pystr) : io unit :=
  fun w => Return tt {| fs := <[path := Utf8 text]> (fs w); stdout := stdout w |}.

(** [print(line)] *)
Definition print (line : pystr) : io unit :=
  fun w => Return tt {| fs := fs w; stdout := stdout w ++ [line] |}.

(** [for x in xs: body x] *)
Fixpoint for_each {A} (xs : list A) (body : A -> io unit) : io unit :=
  match xs with
  | [] => ret tt
  | x :: xs' => bind (body x) (fun _ => for_each xs' body)
  end.

(** [str(e)] for the message of an error line (the wording of the
    interpreter is not modelled, only which error and which file). *)
Definition exn_text (e : exn) : pystr :=
  match e with
  | FileNotFoundError p => str "No such file or directory: " ++ str p
  | UnicodeDecodeError p => str "'utf-8' codec can't decode " ++ str p
  end.

End IO.

Declare Scope io_scope.
Delimit Scope io_scope with io.
Notation "'let!' x ':=' m 'in' k" := (IO.bind m (fun x => k))
(at level 10, x name, m at level 100, k at level 200) : io_scope.
Notation "m >>> k" := (IO.bind m (fun _ => k))
(at level 90, right associativity) : io_scope.

(* ================================================================== *)
(** * docs3/scripts/clean_mdx.py                                        *)
(* ================================================================== *)

Module CleanMdx.
Import Py Re Tags.

(** [<NAME[^>]*>(?![^<]*</NAME>)] with DOTALL: an opening tag that is not
    closed before the next [<]. *)
Definition unclosed (name : pystr) : matcher := fun _ s =>
  if startswith ("<" :: name) s then
    match before ">" (drop (S (length name)) s) with
    | Some attrs =>
        let after := drop (S (length name) + length attrs + 1) s in
        if startswith (str "</" ++ name ++ [">"]) (dropwhile (neqb "<") after)
        then None
        else found_of (S (length name) + length attrs + 1) []
    | None => None
    end
  else None.

(** [<table[^>]*>.*?</table>] with DOTALL. *)
Definition table : matcher := fun _ s =>
  if startswith (str "<table") s then
    match before ">" (drop 6 s) with
    | Some attrs =>
        match before_word (str "</table>") (drop (6 + length attrs + 1) s) with
        | Some k => found_of (6 + length attrs + 1 + k + 8) []
        | None => None
        end
    | None => None
    end
  else None.

Definition nothing (_ : pystr) (_ : list pystr) : pystr := [].

Definition table_note : pystr :=
  str ":::note" ++ [nl] ++ str "Table output (view in original notebook)"
  ++ [nl] ++ str ":::".

Definition problematic_patterns : list matcher :=
  map unclosed [str "ul"; str "ol"; str "li"; str "div"; str "span"; str "p"].

Definition fix_html_tags (content : pystr) : pystr :=
  let content := fold_left (fun c pattern => sub pattern nothing c)
                   problematic_patterns content in
  let content := sub table (fun _ _ => table_note) content in
  let content := sub (attribute (str "style")) drop_attribute content in
  let content := sub (attribute (str "class")) drop_attribute content in
  sub void_tag self_close content.

(** The inner loop of [escape_braces_outside_code] over one line; the flag
    [in_inline_code] is the caller's and is handed back. *)
Fixpoint escape_line (in_inline_code : bool) (line : pystr) : pystr * bool :=
  match line with
  | [] => ([], in_inline_code)
  | c :: rest =>
      if Ascii.eqb c "`" then
        let '(new_line, st) := escape_line (negb in_inline_code) rest in
        (c :: new_line, st)
      else if negb in_inline_code && Ascii.eqb c "{" then
        let '(new_line, st) := escape_line in_inline_code rest in
        ("\" :: "{" :: new_line, st)
      else if negb in_inline_code && Ascii.eqb c "}" then
        let '(new_line, st) := escape_line in_inline_code rest in
        ("\" :: "}" :: new_line, st)
      else
        let '(new_line, st) := escape_line in_inline_code rest in
        (c :: new_line, st)
  end.

Definition is_fence (line : pystr) : bool :=
  startswith (str "```") (strip line).

(** The loop over the lines: [parts] in order. *)
Fixpoint escape_lines (in_code_block in_inline_code : bool)
    (lines : list pystr) : list pystr :=
  match lines with
  | [] => []
  | line :: rest =>
      if is_fence line then
        line :: escape_lines (negb in_code_block) in_inline_code rest
      else if in_code_block then
        line :: escape_lines in_code_block in_inline_code rest
      else
        let '(new_line, st) := escape_line in_inline_code line in
        new_line :: escape_lines in_code_block st rest
  end.

Definition escape_braces_outside_code (text : pystr) : pystr :=
  join [nl] (escape_lines false false (split_nl text)).

Definition long_line_note : pystr :=
  str "<!-- Very long line truncated for documentation -->".

Definition clean_content (content : pystr) : pystr :=
  let content := fix_html_tags content in
  let content := escape_braces_outside_code content in
  let cleaned_lines :=
    map (fun line => if Nat.ltb 2000 (length line) then long_line_note else line)
        (split_nl content) in
  join [nl] cleaned_lines.

Local Open Scope io_scope.

Definition clean_mdx_file (file_path : string) : IO.io unit :=
  let! content := IO.read_text file_path in
  IO.print (str "Cleaning: " ++ str file_path) >>>
  IO.write_text file_path (clean_content content) >>>
  IO.print (str "  Cleaned").

(** [main], given what [glob.glob] returned: no [try] around the call. *)
Definition main (globbed : list string) : IO.io unit :=
  let mdx_files :=
    List.filter (fun f => negb (endswith (str "index.mdx") (str f))) globbed in
  IO.print (str "Cleaning " ++ str_of_nat (length mdx_files) ++ str " MDX files...") >>>
  IO.for_each mdx_files clean_mdx_file >>>
  IO.print (str "All files cleaned!").

End CleanMdx.

(* ================================================================== *)
(** * docs3/scripts/fix_mdx.py                                          *)
(* ================================================================== *)

Module FixMdx.
Import Py Re Tags.

(** [(?<!`){(?!{)] *)
Definition open_brace : matcher := fun prev s =>
  match s with
  | "{" :: r =>
      if prev_is (Ascii.eqb "`") prev || next_is (Ascii.eqb "{") r then None
      else found_of 1 []
  | _ => None
  end.

(** [(?<!`)(?<!{)}(?!})] *)
Definition close_brace : matcher := fun prev s =>
  match s with
  | "}" :: r =>
      if prev_is (Ascii.eqb "`") prev || prev_is (Ascii.eqb "{") prev
         || next_is (Ascii.eqb "}") r
      then None
      else found_of 1 []
  | _ => None
  end.

(** Step 2 of [fix_mdx_file]. *)
Definition escape_braces (content : pystr) : pystr :=
  let content := sub open_brace (fun _ _ => str "\{") content in
  sub close_brace (fun _ _ => str "\}") content.

(** [(?<![a-zA-Z])>(?![a-zA-Z])] *)
Definition bare_gt : matcher := fun prev s =>
  match s with
  | ">" :: r =>
      if prev_is isalpha prev || next_is isalpha r then None
      else found_of 1 []
  | _ => None
  end.

(** Step 3 of [fix_mdx_file]. *)
Definition escape_angles (content : pystr) : pystr :=
  let content := sub bare_lt (fun _ _ => str "&lt;") content in
  sub bare_gt (fun _ _ => str "&gt;") content.

(** [```(?:python|text|bash)?\n(.*?)\n```] with DOTALL; the group is the
    block's content. *)
Definition code_block : matcher := fun _ s =>
  if startswith (str "```") s then
    let r := drop 3 s in
    let lang :=
      match alternation [str "python" ++ [nl]; str "text" ++ [nl];
                         str "bash" ++ [nl]; [nl]] r with
      | Some w => Some (length w)
      | None => None
      end in
    match lang with
    | Some k =>
        match before_word (nl :: str "```") (drop k r) with
        | Some n => found_of (3 + k + n + 4) [take n (drop k r)]
        | None => None
        end
    | None => None
    end
  else None.

Definition limit_code_blocks (whole : pystr) (gs : list pystr) : pystr :=
  match gs with
  | block_content :: _ =>
      if Nat.ltb 5000 (length block_content)
      then str "```" ++ [nl] ++ str "# Large output truncated for documentation"
           ++ [nl] ++ str "```"
      else whole
  | [] => whole
  end.

(** [<style[^>]*>.*?</style>] with DOTALL. *)
Definition style_block : matcher := fun _ s =>
  if startswith (str "<style") s then
    match before ">" (drop 6 s) with
    | Some attrs =>
        match before_word (str "</style>") (drop (6 + length attrs + 1) s) with
        | Some k => found_of (6 + length attrs + 1 + k + 8) []
        | None => None
        end
    | None => None
    end
  else None.

(** What [fix_mdx_file] writes back for the content it read. *)
Definition fix_content (content : pystr) : pystr :=
  let content := sub code_block limit_code_blocks content in
  let content := escape_braces content in
  let content := escape_angles content in
  let content := sub style_block (fun _ _ => []) content in
  let content := sub bare_url (fun m _ => "<" :: m ++ [">"]) content in
  let cleaned_lines :=
    map (fun line => if Nat.ltb 1000 (length line)
                     then take 500 line ++ str "... (truncated)" else line)
        (split_nl content) in
  join [nl] cleaned_lines.

End FixMdx.

(* ================================================================== *)
(** * docs3/fix_mdx_issues.py                                           *)
(* ================================================================== *)

Module FixMdxIssues.
Import Py Re.

(** [```[\s\S]*?```] *)
Definition fenced : matcher := fun _ s =>
  if startswith (str "```") s then
    match before_word (str "```") (drop 3 s) with
    | Some k => found_of (3 + k + 3) []
    | None => None
    end
  else None.

(** [`[^`]+`] *)
Definition inline : matcher := fun _ s =>
  match s with
  | "`" :: r =>
      let body := takewhile (neqb "`") r in
      match body, drop (length body) r with
      | _ :: _, _ :: _ => found_of (length body + 2) []
      | _, _ => None
      end
  | _ => None
  end.

(** [f"__CODE_BLOCK_{i}__"] *)
Definition placeholder (i : nat) : pystr :=
  str "__CODE_BLOCK_" ++ str_of_nat i ++ str "__".

(** [re.sub(pattern, save_code_block, content)]: every match is appended
    to [code_blocks] and replaced by the placeholder of its index. *)
Fixpoint save_pieces (ps : list piece) (code_blocks : list pystr)
    : pystr * list pystr :=
  match ps with
  | [] => ([], code_blocks)
  | Lit c :: ps' =>
      let '(out, blocks) := save_pieces ps' code_blocks in (c :: out, blocks)
  | Match m _ :: ps' =>
      let code_blocks := code_blocks ++ [m] in
      let '(out, blocks) := save_pieces ps' code_blocks in
      (placeholder (length code_blocks - 1) ++ out, blocks)
  end.

Definition save (pattern : matcher) (content : pystr) (code_blocks : list pystr)
    : pystr * list pystr :=
  save_pieces (pieces pattern content) code_blocks.

(** The two protecting substitutions, from an empty [code_blocks]. *)
Definition protect (content : pystr) : pystr * list pystr :=
  let '(content, code_blocks) := save fenced content [] in
  save inline content code_blocks.

(** [for i, code_block in enumerate(code_blocks): content =
    content.replace(placeholder i, code_block)], with the first index [i]. *)
Fixpoint restore_from (i : nat) (code_blocks : list pystr) (content : pystr)
    : pystr :=
  match code_blocks with
  | [] => content
  | code_block :: rest =>
      restore_from (S i) rest (replace (placeholder i) code_block content)
  end.

Definition restore (code_blocks : list pystr) (content : pystr) : pystr :=
  restore_from 0 code_blocks content.

Definition escape_all_braces (content : pystr) : pystr :=
  replace ["}"] (str "\}") (replace ["{"] (str "\{") content).

(** Step 1 of [fix_mdx_issues]: the content after the code blocks are
    restored, and the number the message reports. *)
Definition fix_braces (content : pystr) : pystr * nat :=
  let '(content, code_blocks) := protect content in
  let content := escape_all_braces content in
  let new_braces := count (str "\{") content + count (str "\}") content in
  (restore code_blocks content, new_braces).

(** [<img[^>]*/?>] *)
Definition img_tag : matcher := fun _ s =>
  if startswith (str "<img") s then
    match before ">" (drop 4 s) with
    | Some attrs => found_of (4 + length attrs + 1) []
    | None => None
    end
  else None.

Definition fix_img_tag (full_tag : pystr) (_ : list pystr) : pystr :=
  if endswith (str " />") full_tag then full_tag
  else take (length full_tag - 2) full_tag ++ str " />".

(** [&(?!amp;|lt;|gt;|quot;|#)] *)
Definition bare_amp : matcher := fun _ s =>
  match s with
  | "&" :: r =>
      if existsb (fun w => startswith w r)
           [str "amp;"; str "lt;"; str "gt;"; str "quot;"; str "#"]
      then None
      else found_of 1 []
  | _ => None
  end.

(** [fix_mdx_issues] on the content read: the fixed content, the fixes
    applied and whether anything changed. *)
Definition fix_content (original_content : pystr)
    : pystr * list pystr * bool :=
  let '(content, new_braces) := fix_braces original_content in
  let fixes_applied :=
    if Nat.ltb 0 new_braces
    then [str "Escaped " ++ str_of_nat (new_braces / 2) ++ str " curly brace pairs"]
    else [] in
  let new_content := sub img_tag fix_img_tag content in
  let changed := negb (bool_decide (new_content = content)) in
  let fixes_applied :=
    if changed
    then fixes_applied ++
         [str "Fixed " ++ str_of_nat (length (matches (pieces img_tag content)))
          ++ str " img tags"]
    else fixes_applied in
  let content := if changed then new_content else content in
  let content := sub bare_amp (fun _ _ => str "&amp;") content in
  (content, fixes_applied, negb (bool_decide (content = original_content))).

Local Open Scope io_scope.

Definition fix_mdx_issues (file_path : string)
    : IO.io (pystr * list pystr * bool) :=
  let! content := IO.read_text file_path in
  IO.ret (fix_content content).

(** [os.path.basename] of a path the glob returned. *)
Definition basename (path : string) : pystr :=
  List.last (split_on "/" (str path)) [].

Definition check_file (file_path : string) : IO.io unit :=
  let filename := basename file_path in
  IO.print [] >>>
  IO.print (str "Checking " ++ filename ++ str "...") >>>
  IO.try_except
    (let! r := fix_mdx_issues file_path in
     let '(fixed_content, fixes, was_modified) := r in
     if was_modified : bool then
       let backup_path := (file_path ++ ".backup")%string in
       let! original := IO.read_text file_path in
       IO.write_text backup_path original >>>
       IO.write_text file_path fixed_content >>>
       IO.print (str "  Fixed: " ++ join (str ", ") fixes) >>>
       IO.print (str "  Backup saved as " ++ filename ++ str ".backup")
     else
       IO.print (str "  No fixes needed"))
    (fun e =>
       IO.print (str "  Error processing " ++ filename ++ str ": " ++ IO.exn_text e)).

(** [main], given what [glob.glob] returned. *)
Definition main (mdx_files : list string) : IO.io unit :=
  IO.print (str "Found " ++ str_of_nat (length mdx_files) ++ str " MDX files to check...") >>>
  IO.for_each mdx_files check_file >>>
  IO.print [] >>>
  IO.print (str "Completed processing " ++ str_of_nat (length mdx_files) ++ str " files!") >>>
  IO.print (str "Try running Docusaurus again to see if the errors are resolved.").

End FixMdxIssues.

(* ================================================================== *)
(** * docs3/scripts/add_frontmatter.py                                  *)
(* ================================================================== *)

Module AddFrontmatter.
Import Py Re Tags.

(** [[*_`]] *)
Definition emphasis_mark : matcher := fun _ s =>
  match s with
  | c :: _ =>
      if Ascii.eqb c "*" || Ascii.eqb c "_" || Ascii.eqb c "`"
      then found_of 1 [] else None
  | [] => None
  end.

Definition default_description : pystr :=
  str "Jupyter notebook example for Pixeltable".

(** The loop that extracts the description: the first line that, stripped,
    is no heading and has more than 30 characters, without its emphasis
    marks and cut to 150 characters. *)
Fixpoint description_loop (lines : list pystr) : pystr :=
  match lines with
  | [] => default_description
  | line :: rest =>
      let clean_line := strip line in
      if negb (Nat.eqb (length clean_line) 0)
         && negb (startswith ["#"] clean_line)
         && Nat.ltb 30 (length clean_line)
      then
        let description := sub emphasis_mark (fun _ _ => []) clean_line in
        if Nat.ltb 150 (length description)
        then take 147 description ++ str "..."
        else description
      else description_loop rest
  end.

(** The description as extracted, before it is cleaned for YAML. *)
Definition extract_description (content : pystr) : pystr :=
  description_loop (split_nl content).

(** The description as the frontmatter holds it: quotes escaped. *)
Definition emitted_description (content : pystr) : pystr :=
  replace [dquote] ["\"; dquote] (extract_description content).

End AddFrontmatter.

(* ================================================================== *)
(** * docs3/scripts/jupyter_to_docusaurus.py                            *)
(* ================================================================== *)

Module Alchemist.
Import Py Re Tags.

(** ** The notebook, as [json.load] returns it

    A key that the code reads with [get] reads, when it is missing, as
    the default given there: an absent cell type is [None], absent lists
    are empty, an absent mapping is empty.  A multi-line text is the list
    of its fragments.  The key [cells] is read with [get] by the methods
    that look for the title and the description, and with a subscript by
    [transmute_notebook]: a [Notebook] is a notebook that has this key, and
    [loaded], below, adds the notebook that lacks it. *)

Record Output := {
  output_type : option string;
  text : list pystr;
  data : gmap string (list pystr);
  traceback : list pystr;
}.

Record Cell := {
  cell_type : option string;
  source : list pystr;
  outputs : list Output;
}.

Record Notebook := {
  metadata : gmap string pystr;
  cells : list Cell;
}.



Definition is_type (t : string) (ty : option string) : bool :=
  match ty with
  | Some x => String.eqb x t
  | None => false
  end.

(** ** The object and what a method may do to it

    [JupyterToDocusaurusAlchemist] has one attribute, [cell_counter]; a
    method may also print.  Methods are state transformers over both. *)

Record Self := { cell_counter : nat }.

Record state := {
  self : Self;
  stdout : list pystr;
}.

Definition M (A : Type) := state -> A * state.

Definition ret {A} (a : A) : M A := fun st => (a, st).

Definition bind {A B} (m : M A) (k : A -> M B) : M B :=
  fun st => let '(a, st') := m st in k a st'.

Definition print (line : pystr) : M unit :=
  fun st => (tt, {| self := self st; stdout := stdout st ++ [line] |}).

(** [JupyterToDocusaurusAlchemist()] *)
Definition init : Self := {| cell_counter := 0 |}.

Declare Scope alchemist_scope.
Delimit Scope alchemist_scope with alchemist.
Notation "'let!' x ':=' m 'in' k" := (bind m (fun x => k))
  (at level 10, x name, m at level 100, k at level 200) : alchemist_scope.
Notation "m >>> k" := (bind m (fun _ => k))
  (at level 90, right associativity) : alchemist_scope.
Local Open Scope alchemist_scope.

(** ** Title and description *)

Definition at_line_start (prev : option ascii) : bool :=
  match prev with
  | None => true
  | Some c => Ascii.eqb c nl
  end.

(** [^#\s+(.+)] with MULTILINE: after the [#] the white space is greedy and
    gives characters back until a character other than the newline follows;
    the group runs to the end of that line. *)
Definition heading_at (r : pystr) (j : nat) : option found :=
  match drop j r with
  | c :: _ =>
      if Ascii.eqb c nl then None
      else let g := takewhile (neqb nl) (drop j r) in
           found_of (1 + j + length g) [g]
  | [] => None
  end.

Definition h1 : matcher := fun prev s =>
  match s with
  | "#" :: r =>
      if at_line_start prev
      then longest (heading_at r) (length (takewhile isspace r))
      else None
  | _ => None
  end.

(** The loop of [_extract_title]: it returns from the first markdown cell
    when that has a heading, and breaks after it otherwise. *)
Fixpoint title_loop (cells : list Cell) : option pystr :=
  match cells with
  | [] => None
  | cell :: rest =>
      if is_type "markdown" (cell_type cell) then
        match search h1 (concat (source cell)) with
        | Some (_, g :: _) => Some (strip g)
        | _ => None
        end
      else title_loop rest
  end.

Definition filename_title (path : pystr) : pystr :=
  title (replace ["-"] [" "] (replace ["_"] [" "] (path_stem path))).

Definition _extract_title (notebook : Notebook) (path : pystr) : M pystr :=
  match title_loop (cells notebook) with
  | Some t => ret t
  | None => ret (filename_title path)
  end.

(** [<[^>]+>] *)
Definition any_tag : matcher := fun _ s =>
  match s with
  | "<" :: r =>
      match before ">" r with
      | Some (c :: inside) => found_of (length inside + 3) []
      | _ => None
      end
  | _ => None
  end.

(** [\s+] *)
Definition spaces : matcher := fun _ s =>
  match takewhile isspace s with
  | [] => None
  | ws => found_of (length ws) []
  end.

(** The text of [_clean_yaml_string] when it reaches the length test. *)
Definition yaml_cleaned (text : pystr) : pystr :=
  let text := sub any_tag (fun _ _ => []) text in
  let text := replace [dquote] ["\"; dquote] text in
  let text := replace [nl] [" "] text in
  let text := replace [cr] [" "] text in
  sub spaces (fun _ _ => [" "]) text.

Definition _clean_yaml_string (text : pystr) : pystr :=
  match text with
  | [] => []
  | _ =>
      let text := yaml_cleaned text in
      let text := if Nat.ltb 150 (length text)
                  then take 147 text ++ str "..." else text in
      strip text
  end.

Definition default_description : pystr :=
  str "Jupyter notebook converted to documentation".

(** The loop of [_extract_description] over the cells. *)
Fixpoint description_loop (cells : list Cell) : option pystr :=
  match cells with
  | [] => None
  | cell :: rest =>
      if is_type "markdown" (cell_type cell) then
        let lines :=
          List.filter (fun line => negb (Nat.eqb (length line) 0))
            (map strip (split_nl (concat (source cell)))) in
        match List.find (fun line => negb (startswith ["#"] line)
                                     && Nat.ltb 20 (length line)) lines with
        | Some line => Some line
        | None => description_loop rest
        end
      else description_loop rest
  end.

Definition _extract_description (notebook : Notebook) : M pystr :=
  match metadata notebook !! "description"%string with
  | Some d => ret d
  | None =>
      match description_loop (cells notebook) with
      | Some line => ret line
      | None => ret default_description
      end
  end.

Definition _create_frontmatter (title : pystr) (notebook : Notebook) : M pystr :=
  let! description := _extract_description notebook in
  let title := _clean_yaml_string title in
  let description := _clean_yaml_string description in
  ret (str "---" ++ [nl]
       ++ str "title: " ++ [dquote] ++ title ++ [dquote; nl]
       ++ str "description: " ++ [dquote] ++ description ++ [dquote; nl]
       ++ str "---" ++ [nl; nl]).

(** ** Markdown cleaning *)

(** [<(ul|ol|li|div|span|p)(?![^>]*/>)(?![^>]*</\1>)] *)
Definition dangling : matcher := fun _ s =>
  match s with
  | "<" :: r =>
      match alternation [str "ul"; str "ol"; str "li"; str "div";
                         str "span"; str "p"] r with
      | Some name =>
          match before ">" (drop (length name) r) with
          | Some pre =>
              if endswith ["/"] pre || endswith (str "</" ++ name) pre
              then None
              else found_of (1 + length name) [name]
          | None => found_of (1 + length name) [name]
          end
      | None => None
      end
  | _ => None
  end.

Definition _fix_html_tags (content : pystr) : pystr :=
  let content := sub dangling (fun _ _ => []) content in
  let content := sub void_tag self_close content in
  sub (attribute (str "style")) drop_attribute content.

(** [<img src=Q([^Q]+)Q([^>]*?)>] with [Q] the double quote. *)
Definition img_src : matcher := fun _ s =>
  let key := str "<img src=" ++ [dquote] in
  if startswith key s then
    let after := drop (length key) s in
    let value := takewhile (neqb dquote) after in
    match value, drop (length value) after with
    | _ :: _, _ :: tail =>
        match before ">" tail with
        | Some g2 =>
            found_of (length key + length value + 1 + length g2 + 1) [value; g2]
        | None => None
        end
    | _, _ => None
    end
  else None.

Definition markdown_image (_ : pystr) (gs : list pystr) : pystr :=
  match gs with
  | src :: _ => str "![Image](" ++ src ++ [")"]
  | [] => []
  end.

(** [<(https?://[^>\s]+)>] *)
Definition angle_url : matcher := fun _ s =>
  match s with
  | "<" :: r =>
      match scheme r with
      | Some k =>
          let run := takewhile (fun c => negb (Ascii.eqb c ">" || isspace c))
                       (drop k r) in
          match run, drop (k + length run) r with
          | _ :: _, c :: _ =>
              if Ascii.eqb c ">"
              then found_of (1 + k + length run + 1) [take (k + length run) r]
              else None
          | _, _ => None
          end
      | None => None
      end
  | _ => None
  end.

Definition markdown_link (url : pystr) : pystr :=
  "[" :: url ++ str "](" ++ url ++ [")"].

(** [(?<![a-zA-Z])>] *)
Definition gt_after_other : matcher := fun prev s =>
  match s with
  | ">" :: _ => if prev_is isalpha prev then None else found_of 1 []
  | _ => None
  end.

Definition _fix_mdx_syntax (content : pystr) : pystr :=
  let content := sub angle_url (fun _ gs => markdown_link (concat gs)) content in
  let content := sub bare_lt (fun _ _ => str "&lt;") content in
  let content := sub gt_after_other (fun _ _ => str "&gt;") content in
  sub bare_url (fun m _ => markdown_link m) content.

Definition _clean_markdown (markdown : pystr) : pystr :=
  let markdown := _fix_html_tags markdown in
  let markdown := sub img_src markdown_image markdown in
  _fix_mdx_syntax markdown.

(** ** Cells and outputs *)

Definition image_note : pystr :=
  str ":::note Output" ++ [nl]
  ++ str "Image output (PNG data) - please save and reference manually" ++ [nl]
  ++ str ":::" ++ [nl].

Definition fence (lang body : pystr) : pystr :=
  str "```" ++ lang ++ [nl] ++ body ++ [nl] ++ str "```" ++ [nl].

(** What one output adds to [content] in the loop of [_transmute_outputs]. *)
Definition transmute_output (output : Output) : pystr :=
  if is_type "stream" (output_type output) then
    fence (str "bash") (concat (text output))
  else if is_type "execute_result" (output_type output)
          || is_type "display_data" (output_type output) then
    let data := data output in
    (match data !! "text/plain"%string with
     | Some t => fence [] (concat t)
     | None => []
     end)
    ++ (match data !! "image/png"%string with
        | Some _ => image_note
        | None => []
        end)
    ++ (match data !! "text/html"%string with
        | Some h => fence (str "html") (concat h)
        | None => []
        end)
  else if is_type "error" (output_type output) then
    fence (str "python") (str "# Error:" ++ [nl] ++ join [nl] (traceback output))
  else [].

Fixpoint _transmute_outputs (outputs : list Output) : M pystr :=
  match outputs with
  | [] => ret []
  | output :: rest =>
      let! content := _transmute_outputs rest in
      ret (transmute_output output ++ content)
  end.

Definition _transmute_markdown_cell (cell : Cell) : M pystr :=
  ret (_clean_markdown (concat (source cell)) ++ [nl]).

Definition _transmute_code_cell (cell : Cell) : M pystr :=
  let content := fence (str "python") (concat (source cell)) in
  match outputs cell with
  | [] => ret content
  | outs => let! rendered := _transmute_outputs outs in ret (content ++ rendered)
  end.

Definition _transmute_raw_cell (cell : Cell) : M pystr :=
  ret (fence [] (concat (source cell))).

Fixpoint _transmute_cells (cells : list Cell) : M pystr :=
  match cells with
  | [] => ret []
  | cell :: rest =>
      let! this :=
        (if is_type "markdown" (cell_type cell) then _transmute_markdown_cell cell
         else if is_type "code" (cell_type cell) then _transmute_code_cell cell
         else if is_type "raw" (cell_type cell) then _transmute_raw_cell cell
         else ret []) in
      let! content := _transmute_cells rest in
      ret (this ++ [nl] ++ content)
  end.

(** ** The document *)

(** [[^a-zA-Z0-9-_]] *)
Definition unsafe_char : matcher := fun _ s =>
  match s with
  | c :: _ =>
      if isalpha c || isdigit c || Ascii.eqb c "-" || Ascii.eqb c "_"
      then None else found_of 1 []
  | [] => None
  end.

(** [-+] *)
Definition dashes : matcher := fun _ s =>
  match takewhile (Ascii.eqb "-") s with
  | [] => None
  | run => found_of (length run) []
  end.

Definition _generate_output_path (input_path output_dir : pystr) : pystr :=
  let input_name := path_stem input_path in
  let safe_name := map lower (sub unsafe_char (fun _ _ => ["-"]) input_name) in
  let safe_name := sub dashes (fun _ _ => ["-"]) safe_name in
  let safe_name := rev (dropwhile (Ascii.eqb "-")
                          (rev (dropwhile (Ascii.eqb "-") safe_name))) in
  let file := safe_name ++ str ".mdx" in
  match output_dir with
  | [] => file
  | _ => if endswith ["/"] output_dir then output_dir ++ file
         else output_dir ++ "/" :: file
  end.

(** The text [transmute_notebook] writes for a notebook that has its
    cells: the frontmatter, then the cells. *)
Definition mdx_content (notebook : Notebook) (notebook_path : pystr) : M pystr :=
  let! title := _extract_title notebook notebook_path in
  let! frontmatter := _create_frontmatter title notebook in
  let! body := _transmute_cells (cells notebook) in
  ret (frontmatter ++ body).




End Alchemist.

(* ================================================================== *)
(** * docs3/docs/jupyter/convert_md_to_mdx.py: the batch driver         *)
(* ================================================================== *)

Module ConvertMdToMdx.
Import Py.
Local Open Scope io_scope.

Section Driver.

(** The rewriting [convert_md_to_mdx] applies to the text it read (its
    chain of substitutions and the frontmatter it may add). *)
Variable rewrite : string -> pystr -> pystr.

Definition mdx_path (md_file_path : string) : string :=
  string_of_list_ascii (replace (str ".md") (str ".mdx") (str md_file_path)).

Definition convert_md_to_mdx (md_file_path : string) : IO.io string :=
  let! content := IO.read_text md_file_path in
  let mdx_file_path := mdx_path md_file_path in
  IO.write_text mdx_file_path (rewrite md_file_path content) >>>
  IO.ret mdx_file_path.

(** The loop of [main] with its [try]; [converted_files] is threaded. *)
Fixpoint convert_all (md_files : list string) (converted_files : list string)
    : IO.io (list string) :=
  match md_files with
  | [] => IO.ret converted_files
  | md_file :: rest =>
      IO.print (str "Converting: " ++ str md_file) >>>
      let! converted_files :=
        IO.try_except
          (let! mdx_file := convert_md_to_mdx md_file in
           IO.print (str "  -> Created: " ++ str mdx_file) >>>
           IO.ret (converted_files ++ [mdx_file]))
          (fun e =>
             IO.print (str "  Error converting " ++ str md_file ++ str ": "
                       ++ IO.exn_text e) >>>
             IO.ret converted_files) in
      convert_all rest converted_files
  end.

(** [main], given what [glob.glob] returned. *)
Definition main (md_files : list string) : IO.io unit :=
  match md_files with
  | [] => IO.print (str "No .md files found in current directory.")
  | _ =>
      IO.print (str "Found " ++ str_of_nat (length md_files)
                ++ str " .md files to convert:") >>>
      let! converted_files := convert_all md_files [] in
      IO.print [] >>>
      IO.print (str "Conversion complete! Created "
                ++ str_of_nat (length converted_files) ++ str " .mdx files:") >>>
      IO.for_each converted_files (fun f => IO.print (str "  " ++ str f)) >>>
      IO.print [] >>>
      IO.print (str "Note: Original .md files are preserved.") >>>
      IO.print (str "You can now use the .mdx files in your Docusaurus project.")
  end.

End Driver.

End ConvertMdToMdx.


(* ================================================================== *)
(** * Notions the properties are stated with                            *)
(* ================================================================== *)

Module Spec.
Import Py.

(** [w] occurs in [s]. *)
Definition occurs (w s : pystr) : Prop := exists u v, s = u ++ w ++ v.

(** A computation of the converter that returns [v] and leaves the object
    and the output as they were. *)
Definition pure {A} (m : Alchemist.M A) (v : A) : Prop :=
  forall st, m st = (v, st).

(** Two outputs that differ at most in the payload stored under the key
    [image/png]. *)
Definition same_but_image (o o' : Alchemist.Output) : Prop :=
  Alchemist.output_type o = Alchemist.output_type o'
  /\ Alchemist.text o = Alchemist.text o'
  /\ Alchemist.traceback o = Alchemist.traceback o'
  /\ (forall k, k <> "image/png"%string ->
        Alchemist.data o !! k = Alchemist.data o' !! k)
  /\ (is_Some (Alchemist.data o !! "image/png"%string)
      <-> is_Some (Alchemist.data o' !! "image/png"%string)).

Definition same_but_images_cell (c c' : Alchemist.Cell) : Prop :=
  Alchemist.cell_type c = Alchemist.cell_type c'
  /\ Alchemist.source c = Alchemist.source c'
  /\ Forall2 same_but_image (Alchemist.outputs c) (Alchemist.outputs c').

Definition same_but_images (n n' : Alchemist.Notebook) : Prop :=
  Alchemist.metadata n = Alchemist.metadata n'
  /\ Forall2 same_but_images_cell (Alchemist.cells n) (Alchemist.cells n').

(** A cell type the converter knows. *)
Definition recognized (c : Alchemist.Cell) : bool :=
  Alchemist.is_type "markdown" (Alchemist.cell_type c)
  || Alchemist.is_type "code" (Alchemist.cell_type c)
  || Alchemist.is_type "raw" (Alchemist.cell_type c).

(** The text one cell adds to the document, before the newline that
    follows every cell. *)
Definition cell_text (c : Alchemist.Cell) : pystr :=
  if Alchemist.is_type "markdown" (Alchemist.cell_type c) then
    Alchemist._clean_markdown (concat (Alchemist.source c)) ++ [nl]
  else if Alchemist.is_type "code" (Alchemist.cell_type c) then
    Alchemist.fence (str "python") (concat (Alchemist.source c))
    ++ concat (map Alchemist.transmute_output (Alchemist.outputs c))
  else if Alchemist.is_type "raw" (Alchemist.cell_type c) then
    Alchemist.fence [] (concat (Alchemist.source c))
  else [].

Definition cells_text (cells : list Alchemist.Cell) : pystr :=
  concat (map (fun c => cell_text c ++ [nl]) cells).

(** A level-1 heading line: [#], white space, the heading text. *)
Definition heading_line (ws heading : pystr) : pystr := "#" :: ws ++ heading.

(** A line on which no level-1 heading starts: it does not begin with [#]
    followed by white space or by the end of the line. *)
Definition not_heading (line : pystr) : bool :=
  match line with
  | "#" :: c :: _ => negb (isspace c)
  | "#" :: [] => false
  | _ => true
  end.

Definition one_line (l : pystr) : Prop := ~ In nl l.

(** The title a [#] at the start of a line gives, [r] being the text after
    that [#] to the end of the cell, newlines included.  White space must
    follow the [#].  When a character that is no white space comes after
    it, on the same line or on a later one, the title is the text from that
    character to the end of its line, stripped.  When white space is all
    there is, the title is empty if one of the white-space characters after
    the first is no newline, and there is no title otherwise. *)
Definition heading_title (r : pystr) : option pystr :=
  match takewhile isspace r, dropwhile isspace r with
  | [], _ => None
  | _ :: _, c :: rest => Some (strip (takewhile (fun x => negb (Ascii.eqb x nl)) (c :: rest)))
  | _ :: ws, [] => if forallb (fun x => Ascii.eqb x nl) ws then None else Some []
  end.

(** The title of the first line that begins with [#] and gives one. *)
Fixpoint first_heading (lines : list pystr) : option pystr :=
  match lines with
  | [] => None
  | line :: rest =>
      match line with
      | "#" :: r =>
          match heading_title (join [nl] (r :: rest)) with
          | Some t => Some t
          | None => first_heading rest
          end
      | _ => first_heading rest
      end
  end.

Definition markdown (c : Alchemist.Cell) : bool :=
  Alchemist.is_type "markdown" (Alchemist.cell_type c).

(** A line [add_frontmatter] takes the description from: stripped, it is
    not empty, no heading, and longer than 30 characters. *)
Definition describes (line : pystr) : bool :=
  negb (Nat.eqb (length (strip line)) 0)
  && negb (startswith ["#"] (strip line))
  && Nat.ltb 30 (length (strip line)).

(** The number of double quotes of a text. *)
Definition quotes (s : pystr) : nat := length (List.filter (Ascii.eqb dquote) s).

(** The angle-bracket rule in the words of the specification: a [<] that
    is not followed by a letter, [/] or [!] becomes [&lt;]; a [>] that has
    no letter before it and no letter after it becomes [&gt;]; every other
    character stays. *)
Definition angle_char (prev : option ascii) (c : ascii) (rest : pystr) : pystr :=
  if Ascii.eqb c "<" && negb (Tags.next_is Tags.tag_start rest) then str "&lt;"
  else if Ascii.eqb c ">" && negb (Tags.prev_is isalpha prev)
          && negb (Tags.next_is isalpha rest) then str "&gt;"
  else [c].

Fixpoint angles_spec (prev : option ascii) (s : pystr) : pystr :=
  match s with
  | [] => []
  | c :: rest => angle_char prev c rest ++ angles_spec (Some c) rest
  end.

(** The first substitution of [escape_angles], character by character. *)
Fixpoint lt_escaped (s : pystr) : pystr :=
  match s with
  | [] => []
  | c :: rest =>
      (if Ascii.eqb c "<" && negb (Tags.next_is Tags.tag_start rest) then str "&lt;" else [c])
      ++ lt_escaped rest
  end.

(** How the second substitution of [escape_angles] renders a piece. *)
Definition gt_render (p : Re.piece) : pystr :=
  match p with Re.Lit c => [c] | Re.Match _ _ => str "&gt;" end.

(** The output only grew between two worlds. *)
Definition grows (w w' : IO.world) : Prop :=
  exists more, IO.stdout w' = IO.stdout w ++ more.

(** The output only grew between two worlds, and [line] is one of the new
    lines. *)
Definition printed (line : pystr) (w w' : IO.world) : Prop :=
  exists more, IO.stdout w' = IO.stdout w ++ more /\ In line more.

(** ** Braces outside code, as a count of markers

    A line is a fence marker when, stripped, it starts with three
    backticks.  A line is inside a fenced block when an odd number of
    markers stands before it.  The other lines are prose; a character of a
    prose line is inside inline code when an odd number of backticks stands
    before it, counted over the prose lines from the start of the text. *)






Definition is_brace (c : ascii) : bool := Ascii.eqb c "{" || Ascii.eqb c "}".

(** A brace outside inline code gets a backslash; nothing else changes. *)
Definition escape_char (inside : bool) (c : ascii) : pystr :=
  if negb inside && is_brace c then ["\"; c] else [c].



(** ** The brace step of [fix_mdx.py], character by character

    A [{] gets a backslash unless a backtick stands before it or another
    [{] after it; a [}] gets one unless a backtick or a [{] stands before
    it or another [}] after it. *)
Definition brace_char (prev : option ascii) (c : ascii) (rest : pystr) : pystr :=
  if Ascii.eqb c "{" && negb (Tags.prev_is (Ascii.eqb "`") prev)
     && negb (Tags.next_is (Ascii.eqb "{") rest)
  then ["\"; "{"]
  else if Ascii.eqb c "}"
          && negb (Tags.prev_is (Ascii.eqb "`") prev || Tags.prev_is (Ascii.eqb "{") prev)
          && negb (Tags.next_is (Ascii.eqb "}") rest)
  then ["\"; "}"]
  else [c].

Fixpoint braces_spec (prev : option ascii) (s : pystr) : pystr :=
  match s with
  | [] => []
  | c :: rest => brace_char prev c rest ++ braces_spec (Some c) rest
  end.

(** The first of its two substitutions alone. *)
Fixpoint open_escaped (prev : option ascii) (s : pystr) : pystr :=
  match s with
  | [] => []
  | c :: rest =>
      (if Ascii.eqb c "{" && negb (Tags.prev_is (Ascii.eqb "`") prev)
          && negb (Tags.next_is (Ascii.eqb "{") rest)
       then ["\"; "{"] else [c])
      ++ open_escaped (Some c) rest
  end.

Definition open_render (p : Re.piece) : pystr :=
  match p with Re.Lit c => [c] | Re.Match _ _ => ["\"; "{"] end.

Definition close_render (p : Re.piece) : pystr :=
  match p with Re.Lit c => [c] | Re.Match _ _ => ["\"; "}"] end.

(** ** Protected code blocks ([fix_mdx_issues.py])

    While the code blocks are saved, the content is a sequence of items:
    text that was never saved, and saved blocks, each known by the index of
    its placeholder.  At the stage where the blocks below [from] are
    restored, a block with a smaller index shows as its own text and every
    other block as its placeholder. *)

(** The part of a placeholder that cannot be told from prose. *)
Definition marker : pystr := str "CODE_BLOCK_".

Definition marker_free (s : pystr) : Prop := ~ occurs marker s.

Inductive item :=
| Text (t : pystr)
| Block (j : nat) (b : pystr).

Definition shown (from : nat) (it : item) : pystr :=
  match it with
  | Text t => t
  | Block j b => if Nat.ltb j from then b else FixMdxIssues.placeholder j
  end.

Definition flat (from : nat) (its : list item) : pystr :=
  concat (map (shown from) its).

(** The text the items stand for: every block restored. *)
Definition full_item (it : item) : pystr :=
  match it with
  | Text t => t
  | Block _ b => b
  end.

Definition full (its : list item) : pystr := concat (map full_item its).

(** The items of a substitution that saves its matches, the first of them
    under the index [base]. *)
Fixpoint items_of (base : nat) (ps : list Re.piece) : list item :=
  match ps with
  | [] => []
  | Re.Lit c :: ps' => Text [c] :: items_of base ps'
  | Re.Match m _ :: ps' => Block base m :: items_of (S base) ps'
  end.

(** Every block of the items is the saved block of its index. *)
Definition tabled (code_blocks : list pystr) (its : list item) : Prop :=
  forall j b, In (Block j b) its -> code_blocks !! j = Some b.

(** Every saved block is a block of the items, under its index. *)
Definition all_saved (code_blocks : list pystr) (its : list item) : Prop :=
  forall j b, code_blocks !! j = Some b -> In (Block j b) its.



(** An item of text is one character, as the substitution leaves it. *)
Definition single (it : item) : Prop :=
  match it with
  | Text t => exists c, t = [c]
  | Block _ _ => True
  end.

(** A span of inline code: it starts and ends with a backtick. *)
Definition ticked (m : pystr) : Prop := exists body, m = "`"%char :: body ++ ["`"%char].

Definition ticked_piece (p : Re.piece) : Prop :=
  match p with
  | Re.Lit _ => True
  | Re.Match m _ => ticked m /\ marker_free m
  end.

(** [w in s], computed. *)
Fixpoint occursb (w s : pystr) : bool :=
  Py.startswith w s || match s with [] => false | _ :: r => occursb w r end.

End Spec.

(* ================================================================== *)
(** * Notions for the properties of the single steps                    *)
(* ================================================================== *)

Module Notions.
Import Py Re.

(** Every double quote of [s] has a backslash before it; [b] tells whether
    a backslash stands before [s]. *)
Fixpoint escaped_from (b : bool) (s : pystr) : Prop :=
  match s with
  | [] => True
  | c :: r => (c = dquote -> b = true) /\ escaped_from (Ascii.eqb c "\") r
  end.

(** The world an outcome leaves, returned or raised. *)
Definition world_of {A} (o : IO.outcome A) : IO.world :=
  match o with
  | IO.Return _ w => w
  | IO.Raise _ w => w
  end.

(** A character of a URL-friendly file name: a lower-case letter, a digit,
    [-] or [_]. *)
Definition safe_char (c : ascii) : bool :=
  islower c || isdigit c || Ascii.eqb c "-" || Ascii.eqb c "_".

(** No [-] of [s] follows another; [b] tells whether a [-] stands before
    [s]. *)
Fixpoint single_dashes (b : bool) (s : pystr) : Prop :=
  match s with
  | [] => True
  | c :: r => (c = "-"%char -> b = false) /\ single_dashes (Ascii.eqb c "-") r
  end.

(** The text after an [&] makes it an entity the scripts keep. *)
Definition entity (r : pystr) : bool :=
  existsb (fun w => startswith w r)
    [str "amp;"; str "lt;"; str "gt;"; str "quot;"; str "#"].

(** A line of a markdown cell that can serve as the description of a
    notebook: stripped, it is no heading and has more than 20 characters. *)
Definition describes_notebook (line : pystr) : bool :=
  negb (startswith ["#"%char] (strip line)) && Nat.ltb 20 (length (strip line)).

(** A cell that has no such line, or is no markdown cell. *)
Definition without_description (c : Alchemist.Cell) : Prop :=
  Alchemist.is_type "markdown" (Alchemist.cell_type c) = false
  \/ Forall (fun l => describes_notebook l = false)
        (split_nl (concat (Alchemist.source c))).


(** The directory part of a path: the path without its base name. *)
Definition directory (path : string) : pystr :=
  take (length (str path) - length (FixMdxIssues.basename path)) (str path).

End Notions.

(* ================================================================== *)
(** * docs3/scripts/add_frontmatter.py: the whole conversion            *)
(* ================================================================== *)

Module AddFrontmatterFile.
Import Py Re Tags.

(** [^#\s+.+\n?] with MULTILINE: the heading that [^#\s+(.+)] finds, and
    the newline after it when there is one. *)
Definition h1_line : matcher := fun prev s =>
  match Alchemist.h1 prev s with
  | Some f =>
      if next_is (Ascii.eqb nl) (drop (span f) s)
      then found_of (S (span f)) (groups f)
      else Some f
  | None => None
  end.

(** [re.sub(pattern, repl, s, count=1)]: the first match is replaced, the
    rest of the subject stays. *)
Fixpoint first_replaced (repl : pystr -> list pystr -> pystr) (ps : list piece)
    : pystr :=
  match ps with
  | [] => []
  | Lit c :: ps' => c :: first_replaced repl ps'
  | Match t gs :: ps' => repl t gs ++ concat (map raw ps')
  end.

Definition sub_first (m : matcher) (repl : pystr -> list pystr -> pystr)
    (s : pystr) : pystr :=
  first_replaced repl (pieces m s).

(** The title from the file name. *)
Definition filename_title (md_file : string) : pystr :=
  title (replace ["-"] [" "]
           (replace ["_"] [" "]
              (replace (str ".md") [] (FixMdxIssues.basename md_file)))).

(** The title, and the content without the heading the title was taken
    from. *)
Definition title_and_content (md_file : string) (content : pystr)
    : pystr * pystr :=
  match search Alchemist.h1 content with
  | Some (_, g :: _) => (strip g, sub_first h1_line (fun _ _ => []) content)
  | _ => (filename_title md_file, content)
  end.

(** [!\[png\]\([^)]+\)] *)
Definition png_image : matcher := fun _ s =>
  if startswith (str "![png](") s then
    match before ")" (drop 7 s) with
    | Some (_ :: inside) => found_of (7 + S (length inside) + 1) []
    | _ => None
    end
  else None.

(** [os.remove(path)] *)
Definition remove (path : string) : IO.io unit :=
  fun w => match IO.fs w !! path with
           | Some _ => IO.Return tt {| IO.fs := delete path (IO.fs w);
                                       IO.stdout := IO.stdout w |}
           | None => IO.Raise (IO.FileNotFoundError path) w
           end.

Section Page.

(** The note put for a chart starts with the character U+1F4CA, which is
    outside the characters of the text model; the note is kept as a
    parameter of the page. *)
Variable chart_icon : pystr.

Definition chart_note : pystr :=
  str ":::note" ++ [nl] ++ chart_icon
  ++ str " Chart/image output (rendered in notebook)" ++ [nl] ++ str ":::".

(** What is written to the [.mdx] file for the content read. *)
Definition page (md_file : string) (content : pystr) : pystr :=
  let '(title, content) := title_and_content md_file content in
  let description := AddFrontmatter.emitted_description content in
  let title := replace [dquote] ["\"; dquote] title in
  let frontmatter :=
    str "---" ++ [nl]
    ++ str "title: " ++ [dquote] ++ title ++ [dquote; nl]
    ++ str "description: " ++ [dquote] ++ description ++ [dquote; nl]
    ++ str "---" ++ [nl; nl] in
  let content := sub png_image (fun _ _ => chart_note) content in
  let content := sub FixMdx.style_block (fun _ _ => []) content in
  frontmatter ++ content.

Local Open Scope io_scope.

Definition convert_md_to_mdx (md_file : string) : IO.io unit :=
  let! content := IO.read_text md_file in
  let mdx_file := ConvertMdToMdx.mdx_path md_file in
  IO.write_text mdx_file (page md_file content) >>>
  remove md_file >>>
  IO.print (str "Converted " ++ FixMdxIssues.basename md_file ++ str " to "
            ++ FixMdxIssues.basename mdx_file).

(** The loop of the script over the files the glob returned. *)
Definition main (md_files : list string) : IO.io unit :=
  IO.for_each md_files convert_md_to_mdx.

End Page.

End AddFrontmatterFile.

(* ================================================================== *)
(** * docs3/docs/jupyter/convert_md_to_mdx.py: the rewriting            *)
(* ================================================================== *)

Module ConvertMdToMdxFile.
Import Py Re Tags.

(** The class [\w] on the characters of the model. *)
Definition isword (c : ascii) : bool :=
  let n := nat_of_ascii c in
  isalpha c || isdigit c || Ascii.eqb c "_"
  || Nat.eqb n 170 || (Nat.leb 178 n && Nat.leb n 179) || Nat.eqb n 181
  || (Nat.leb 185 n && Nat.leb n 186) || (Nat.leb 188 n && Nat.leb n 190)
  || (Nat.leb 192 n && Nat.leb n 214) || (Nat.leb 216 n && Nat.leb n 246)
  || Nat.leb 248 n.

(** [<!--\s*(.+?)\s*-->] with DOTALL.  After the white space that follows
    [<!--] the group takes at least one character and stops at the first
    [-->] that can end it, without the white space before that [-->]; when
    only white space stands between [<!--] and [-->], the group is the last
    of these white-space characters. *)
Definition comment : matcher := fun _ s =>
  if startswith (str "<!--") s then
    let r := drop 4 s in
    let w := length (takewhile isspace r) in
    match before_word (str "-->") (drop (S w) r) with
    | Some k =>
        let d := S w + k in
        let ws_before := length (takewhile isspace (rev (take d r))) in
        let p := Nat.max (S w) (d - ws_before) in
        found_of (4 + d + 3) [take (p - w) (drop w r)]
    | None =>
        if Nat.ltb 0 w && startswith (str "-->") (drop w r)
        then found_of (4 + w + 3) [take 1 (drop (w - 1) r)]
        else None
    end
  else None.

Definition jsx_comment (_ : pystr) (gs : list pystr) : pystr :=
  str "{/* " ++ concat gs ++ str " */}".

(** [!\[(ALT)\]\((data:image/[^)]+)\)] with [ALT] a run of characters
    other than the closing bracket. *)
Definition data_image : matcher := fun _ s =>
  if startswith (str "![") s then
    let r := drop 2 s in
    let alt_text := takewhile (neqb "]") r in
    let r1 := drop (length alt_text) r in
    if startswith (str "](data:image/") r1 then
      match before ")" (drop 13 r1) with
      | Some (c :: rest) =>
          found_of (2 + length alt_text + 13 + S (length rest) + 1)
            [alt_text; str "data:image/" ++ c :: rest]
      | _ => None
      end
    else None
  else None.

Definition wrap_data_url (_ : pystr) (gs : list pystr) : pystr :=
  match gs with
  | alt_text :: data_url :: _ =>
      str "<img alt=" ++ [dquote] ++ alt_text ++ [dquote] ++ str " src=" ++ [dquote]
      ++ data_url ++ [dquote] ++ str " />"
  | _ => []
  end.

(** [(?<!<)(?<!</)(?<!=Q)(?<!:)(<)(?![a-zA-Z/!])] with [Q] the double
    quote, replaced by [&lt;]: the pattern takes one character, so the
    substitution is a pass over the characters with the two characters
    before the current one at hand. *)
Fixpoint escape_lt (before2 before1 : option ascii) (s : pystr) : pystr :=
  match s with
  | [] => []
  | c :: r =>
      (if Ascii.eqb c "<"
          && negb (prev_is (Ascii.eqb "<") before1)
          && negb (prev_is (Ascii.eqb "<") before2 && prev_is (Ascii.eqb "/") before1)
          && negb (prev_is (Ascii.eqb "=") before2 && prev_is (Ascii.eqb dquote) before1)
          && negb (prev_is (Ascii.eqb ":") before1)
          && negb (next_is tag_start r)
       then str "&lt;" else [c])
      ++ escape_lt before1 (Some c) r
  end.

(** [(?<![a-zA-Z/])(?<!Q)(?<!/)(?<!;)>(?!>)] with [Q] the double quote. *)
Definition lone_gt : matcher := fun prev s =>
  match s with
  | ">" :: r =>
      if prev_is (fun c => isalpha c || Ascii.eqb c "/" || Ascii.eqb c dquote
                           || Ascii.eqb c ";") prev
         || next_is (Ascii.eqb ">") r
      then None
      else found_of 1 []
  | _ => None
  end.

Definition tag_end_char (c : ascii) : bool := negb (Ascii.eqb c "/" || isspace c).

(** [<(\w+)([^>]*[^/\s])(/?)>].  With [g] the place of the first [>] after
    the [<]: the character before the optional [/] and the closing [>] may
    be that first [>] itself, when [>] or [/>] follows it; otherwise it is
    the character before the first [>], or before the [/] that precedes
    it.  The name gives up its last characters when nothing else is left
    for the second group. *)
Definition open_tag : matcher := fun _ s =>
  match s with
  | "<" :: r =>
      let a := length (takewhile isword r) in
      match before ">" r with
      | Some t =>
          let g := length t in
          if Nat.eqb a 0 then None
          else if startswith (str "/>") (drop (S g) r) then
            found_of (1 + g + 3) [take a r; drop a (take (S g) r); ["/"]]
          else if startswith [">"] (drop (S g) r) then
            found_of (1 + g + 2) [take a r; drop a (take (S g) r); []]
          else if Nat.leb 2 g && next_is tag_end_char (drop (g - 1) r) then
            let a' := Nat.min a (g - 1) in
            found_of (1 + g + 1) [take a' r; drop a' t; []]
          else if Nat.leb 3 g && next_is (Ascii.eqb "/") (drop (g - 1) r)
                  && next_is tag_end_char (drop (g - 2) r) then
            let a' := Nat.min a (g - 2) in
            found_of (1 + g + 1) [take a' r; drop a' (take (g - 1) t); ["/"]]
          else None
      | None => None
      end
  | _ => None
  end.

Definition spaced_tag (_ : pystr) (gs : list pystr) : pystr :=
  match gs with
  | name :: attrs :: slash :: _ => "<" :: name ++ attrs ++ " " :: slash ++ [">"]
  | _ => []
  end.

(** [<(\w+)(G2)/>] with [G2] a run of characters other than [>]. *)
Definition closed_tag : matcher := fun _ s =>
  match s with
  | "<" :: r =>
      let a := length (takewhile isword r) in
      match before ">" r with
      | Some t =>
          let g := length t in
          if negb (Nat.eqb a 0) && Nat.leb 2 g && next_is (Ascii.eqb "/") (drop (g - 1) r)
          then
            let a' := Nat.min a (g - 1) in
            found_of (1 + g + 1) [take a' r; drop a' (take (g - 1) t)]
          else None
      | None => None
      end
  | _ => None
  end.

Definition self_closed_tag (_ : pystr) (gs : list pystr) : pystr :=
  "<" :: concat gs ++ str " />".

(** Steps 1 to 3 of [convert_md_to_mdx]. *)
Definition fix_markup (content : pystr) : pystr :=
  let content := sub comment jsx_comment content in
  let content := sub data_image wrap_data_url content in
  let content := escape_lt None None content in
  let content := sub lone_gt (fun _ _ => str "&gt;") content in
  let content := sub open_tag spaced_tag content in
  sub closed_tag self_closed_tag content.

(** Step 4: the frontmatter, when the content has none. *)
Definition with_frontmatter (md_file_path : string) (content : pystr) : pystr :=
  if startswith (str "---") content then content
  else
    let title :=
      match search Alchemist.h1 content with
      | Some (_, g :: _) => g
      | _ => path_stem (str md_file_path)
      end in
    (str "---" ++ [nl] ++ str "title: " ++ title ++ [nl] ++ str "---" ++ [nl; nl])
    ++ content.

(** What [convert_md_to_mdx] writes for the content it read. *)
Definition rewrite (md_file_path : string) (content : pystr) : pystr :=
  with_frontmatter md_file_path (fix_markup content).

(** The script: the batch driver with this rewriting. *)
Definition main (md_files : list string) : IO.io unit :=
  ConvertMdToMdx.main rewrite md_files.

End ConvertMdToMdxFile.


(* ================================================================== *)
(** * Facts about the string primitives and the substitution            *)
(* ================================================================== *)

Module PyFacts.
Import Py.

Lemma startswith_prefix (p s : pystr) :
  startswith p s = true <-> exists r, s = p ++ r.
Proof.
  revert s. induction p as [|a p IH]; intros s; simpl.
  - split; [intros _; exists s; reflexivity|reflexivity].
  - destruct s as [|b s].
    + split; [discriminate|]. intros [r Hr]. discriminate.
    + rewrite andb_true_iff, IH. split.
      * intros [Hab [r ->]]. apply Ascii.eqb_eq in Hab. subst b. exists r. reflexivity.
      * intros [r Hr]. injection Hr as -> ->. split; [apply Ascii.eqb_refl|].
        exists r. reflexivity.
Qed.

Lemma startswith_app (p r : pystr) : startswith p (p ++ r) = true.
Proof. apply startswith_prefix. exists r. reflexivity. Qed.

Lemma takewhile_dropwhile (p : ascii -> bool) (s : pystr) :
  takewhile p s ++ dropwhile p s = s.
Proof.
  induction s as [|c s IH]; simpl; [reflexivity|].
  destruct (p c); simpl; [rewrite IH|]; reflexivity.
Qed.

Lemma takewhile_all (p : ascii -> bool) (s : pystr) :
  Forall (fun c => p c = true) (takewhile p s).
Proof.
  induction s as [|c s IH]; simpl; [constructor|].
  destruct (p c) eqn:E; [constructor; assumption|constructor].
Qed.

Lemma dropwhile_head (p : ascii -> bool) (s : pystr) :
  match dropwhile p s with c :: _ => p c = false | [] => True end.
Proof.
  induction s as [|c s IH]; simpl; [exact I|].
  destruct (p c) eqn:E; [exact IH|exact E].
Qed.

Lemma drop_takewhile (p : ascii -> bool) (s : pystr) :
  drop (length (takewhile p s)) s = dropwhile p s.
Proof.
  induction s as [|c s IH]; simpl; [reflexivity|].
  destruct (p c); simpl; [exact IH|reflexivity].
Qed.

Lemma dropwhile_app (p : ascii -> bool) (u v : pystr) :
  match v with c :: _ => p c = false | [] => True end ->
  dropwhile p (u ++ v) = dropwhile p u ++ v.
Proof.
  intros Hv. induction u as [|c u IH]; simpl.
  - destruct v as [|d v]; [reflexivity|]. simpl. rewrite Hv. reflexivity.
  - destruct (p c); [exact IH|reflexivity].
Qed.

(** A text that ends with a character other than white space keeps its
    end when stripped. *)
Lemma rstrip_keeps (s : pystr) (c : ascii) :
  isspace c = false -> rstrip (s ++ [c]) = s ++ [c].
Proof.
  intros Hc. unfold rstrip. rewrite rev_app_distr. simpl. rewrite Hc.
  simpl. rewrite rev_involutive. reflexivity.
Qed.

(** Replacing a single character is a character-wise map. *)
Lemma replace_char (a : ascii) (new s : pystr) :
  replace [a] new s
  = concat (map (fun c => if Ascii.eqb a c then new else [c]) s).
Proof.
  unfold replace. induction s as [|c s IH]; [reflexivity|].
  cbn [replace_from startswith length Nat.sub map concat].
  rewrite andb_true_r. destruct (Ascii.eqb a c); rewrite IH; reflexivity.
Qed.

Lemma replace_char_length (a : ascii) (new s : pystr) :
  new <> [] ->
  length (replace [a] new s)
  = length s + length (List.filter (Ascii.eqb a) s) * (length new - 1).
Proof.
  intros Hnew. rewrite replace_char. induction s as [|c s IH]; [reflexivity|].
  cbn [map concat List.filter]. rewrite length_app, IH.
  destruct (Ascii.eqb a c); cbn [length]; [|lia].
  destruct new as [|n new]; [contradiction|]. cbn [length]. lia.
Qed.

End PyFacts.

Module ReFacts.
Import Py Re.

Lemma last_of_cons (c : ascii) (u : pystr) (prev : option ascii) :
  last_of (c :: u) prev = last_of u (Some c).
Proof.
  unfold last_of. simpl. destruct (rev u) as [|d l]; reflexivity.
Qed.

(** The characters of a match still to be passed over are passed over. *)
Lemma pieces_skip (m : matcher) (u rest : pystr) (prev : option ascii) :
  pieces_from m (length u) prev (u ++ rest) = pieces_from m 0 (last_of u prev) rest.
Proof.
  revert prev. induction u as [|c u IH]; intros prev.
  - reflexivity.
  - cbn [length app pieces_from]. rewrite IH, last_of_cons. reflexivity.
Qed.

(** A match at the head of the subject. *)
Lemma pieces_match (m : matcher) (prev : option ascii) (s : pystr) (n : nat)
    (gs : list pystr) :
  m prev s = Some {| span := S n; groups := gs |} ->
  S n <= length s ->
  pieces_from m 0 prev s
  = Match (take (S n) s) gs :: pieces_from m 0 (last_of (take (S n) s) prev) (drop (S n) s).
Proof.
  intros Hm Hlen. destruct s as [|c s]; [simpl in Hlen; lia|].
  cbn [pieces_from]. rewrite Hm. f_equal.
  cbn [take drop]. rewrite last_of_cons.
  rewrite <- (take_drop n s) at 1.
  replace n with (length (take n s)) at 1 by (rewrite length_take; simpl in Hlen; lia).
  apply pieces_skip.
Qed.

Lemma pieces_lit (m : matcher) (prev : option ascii) (c : ascii) (s : pystr) :
  m prev (c :: s) = None ->
  pieces_from m 0 prev (c :: s) = Lit c :: pieces_from m 0 (Some c) s.
Proof. intros Hm. cbn [pieces_from]. rewrite Hm. reflexivity. Qed.

End ReFacts.


(* ================================================================== *)
(** * The converter leaves its object and its output alone              *)
(* ================================================================== *)

Module AlchemistFacts.
Import Py Alchemist Spec.
Local Open Scope alchemist_scope.

Lemma pure_ret {A} (v : A) : pure (ret v) v.
Proof. intros st. reflexivity. Qed.

Lemma pure_bind {A B} (m : M A) (k : A -> M B) (a : A) (b : B) :
  pure m a -> pure (k a) b -> pure (bind m k) b.
Proof. intros Hm Hk st. unfold bind. rewrite Hm. apply Hk. Qed.

(** The text the outputs of a cell add, in their order. *)
Lemma transmute_outputs_pure (outs : list Output) :
  pure (_transmute_outputs outs) (concat (map transmute_output outs)).
Proof.
  induction outs as [|o outs IH]; simpl.
  - apply pure_ret.
  - eapply pure_bind; [exact IH|]. apply pure_ret.
Qed.

Lemma transmute_cell_pure (c : Cell) :
  pure (if is_type "markdown" (cell_type c) then _transmute_markdown_cell c
        else if is_type "code" (cell_type c) then _transmute_code_cell c
        else if is_type "raw" (cell_type c) then _transmute_raw_cell c
        else ret []) (cell_text c).
Proof.
  unfold cell_text.
  destruct (is_type "markdown" (cell_type c)); [apply pure_ret|].
  destruct (is_type "code" (cell_type c)).
  - unfold _transmute_code_cell.
    destruct (outputs c) as [|o outs] eqn:E.
    + simpl. rewrite app_nil_r. apply pure_ret.
    + eapply pure_bind; [apply transmute_outputs_pure|]. apply pure_ret.
  - destruct (is_type "raw" (cell_type c)); apply pure_ret.
Qed.

Lemma transmute_cells_pure (cells : list Cell) :
  pure (_transmute_cells cells) (cells_text cells).
Proof.
  induction cells as [|c cells IH]; simpl.
  - apply pure_ret.
  - eapply pure_bind; [apply transmute_cell_pure|].
    eapply pure_bind; [exact IH|].
    unfold cells_text. simpl. rewrite <- app_assoc. apply pure_ret.
Qed.

Lemma cells_text_app (xs ys : list Cell) :
  cells_text (xs ++ ys) = cells_text xs ++ cells_text ys.
Proof. unfold cells_text. rewrite map_app, concat_app. reflexivity. Qed.

Lemma extract_title_pure (nb : Notebook) (path : pystr) :
  pure (_extract_title nb path)
       (match title_loop (cells nb) with
        | Some t => t
        | None => filename_title path
        end).
Proof. unfold _extract_title. destruct (title_loop (cells nb)); apply pure_ret. Qed.

Lemma extract_description_pure (nb : Notebook) :
  exists d, pure (_extract_description nb) d.
Proof.
  unfold _extract_description.
  destruct (metadata nb !! "description"%string); [eexists; apply pure_ret|].
  destruct (description_loop (cells nb)); eexists; apply pure_ret.
Qed.

Lemma create_frontmatter_pure (t : pystr) (nb : Notebook) :
  exists f, pure (_create_frontmatter t nb) f.
Proof.
  destruct (extract_description_pure nb) as [d Hd].
  eexists. unfold _create_frontmatter.
  eapply pure_bind; [exact Hd|]. apply pure_ret.
Qed.

Lemma mdx_content_pure (nb : Notebook) (path : pystr) :
  exists doc, pure (mdx_content nb path) doc.
Proof.
  destruct (create_frontmatter_pure
              (match title_loop (cells nb) with
               | Some t => t
               | None => filename_title path
               end) nb) as [f Hf].
  exists (f ++ cells_text (cells nb)). unfold mdx_content.
  eapply pure_bind; [apply extract_title_pure|].
  eapply pure_bind; [exact Hf|].
  eapply pure_bind; [apply transmute_cells_pure|]. apply pure_ret.
Qed.

(** C8 (as stated, refuted).  A cell of a type the converter does not know
    is skipped without a trace: after [_transmute_cells] on a notebook
    whose only cell has the type [heading], the counter of the object is
    still 0 and nothing was printed. *)
Lemma C8_unknown_cell_is_skipped_silently :
  let cell := {| cell_type := Some "heading"%string;
                 source := [str "Old-style heading"];
                 outputs := [] |} in
  let st0 := {| self := init; stdout := [] |} in
  _transmute_cells [cell] st0 = ([nl], st0)
  /\ cell_counter (self (snd (_transmute_cells [cell] st0))) = 0
  /\ stdout (snd (_transmute_cells [cell] st0)) = [].
Proof. repeat split. Qed.

(** C8 (amended).  [_transmute_cells] neither counts nor prints: it leaves
    the object and the output as they were.  Its text is made of the texts
    of the cells in input order, each followed by a newline, and a cell
    whose type is none of markdown, code and raw adds that newline only. *)
Theorem C8_cells_in_order_unknown_dropped (cells : list Cell) (st : state) :
  snd (_transmute_cells cells st) = st
  /\ fst (_transmute_cells cells st)
     = concat (map (fun c => fst (_transmute_cells [c] st)) cells)
  /\ (forall c, recognized c = false -> fst (_transmute_cells [c] st) = [nl])
  /\ (forall c, recognized c = true ->
        fst (_transmute_cells [c] st) = cell_text c ++ [nl]).
Proof.
  assert (Hone : forall c, fst (_transmute_cells [c] st) = cell_text c ++ [nl]).
  { intros c. rewrite (transmute_cells_pure [c] st). unfold cells_text. simpl.
    apply app_nil_r. }
  rewrite (transmute_cells_pure cells st). cbn [fst snd]. repeat split.
  - unfold cells_text. f_equal. apply map_ext. intros c. symmetry. apply Hone.
  - intros c Hc. rewrite Hone. unfold cell_text, recognized in *.
    destruct (is_type "markdown" (cell_type c)); [discriminate|].
    destruct (is_type "code" (cell_type c)); [discriminate|].
    destruct (is_type "raw" (cell_type c)); [discriminate|]. reflexivity.
  - intros c _. apply Hone.
Qed.

(** C9.  Rendering is deterministic: the text of the document does not
    depend on the state of the object or on what was printed before, and
    rendering leaves both unchanged, so rendering the same notebook twice in
    a row gives the same text twice. *)
Theorem C9_rendering_is_deterministic (nb : Notebook) (path : pystr) :
  (forall st st', fst (mdx_content nb path st) = fst (mdx_content nb path st'))
  /\ (forall st, snd (mdx_content nb path st) = st)
  /\ (forall st,
        let '(first, st1) := mdx_content nb path st in
        let '(second, _) := mdx_content nb path st1 in
        first = second).
Proof.
  destruct (mdx_content_pure nb path) as [doc Hdoc].
  repeat split.
  - intros st st'. rewrite (Hdoc st), (Hdoc st'). reflexivity.
  - intros st. rewrite (Hdoc st). reflexivity.
  - intros st. rewrite (Hdoc st), (Hdoc st). reflexivity.
Qed.

(** What the document depends on. *)
Lemma mdx_content_depends (nb nb' : Notebook) (path : pystr) (st st' : state) :
  metadata nb = metadata nb' ->
  title_loop (cells nb) = title_loop (cells nb') ->
  description_loop (cells nb) = description_loop (cells nb') ->
  cells_text (cells nb) = cells_text (cells nb') ->
  fst (mdx_content nb path st) = fst (mdx_content nb' path st').
Proof.
  intros Hm Ht Hd Hc.
  unfold mdx_content, _extract_title, _create_frontmatter, _extract_description.
  rewrite Hm, Ht, Hd.
  destruct (title_loop (cells nb')); destruct (metadata nb' !! "description"%string);
    destruct (description_loop (cells nb'));
    unfold bind, ret;
    rewrite (transmute_cells_pure (cells nb)), (transmute_cells_pure (cells nb'));
    cbn [fst]; rewrite Hc; reflexivity.
Qed.

Lemma transmute_output_same_but_image (o o' : Output) :
  same_but_image o o' -> transmute_output o = transmute_output o'.
Proof.
  intros (Hty & Htx & Htb & Hk & Hpng).
  unfold transmute_output. rewrite Hty, Htx, Htb.
  rewrite (Hk "text/plain"%string) by discriminate.
  rewrite (Hk "text/html"%string) by discriminate.
  destruct (data o !! "image/png"%string) as [p|] eqn:E;
    destruct (data o' !! "image/png"%string) as [p'|] eqn:E'; try reflexivity.
  - destruct Hpng as [H _]. destruct H as [x Hx]; [eexists; reflexivity|discriminate].
  - destruct Hpng as [_ H]. destruct H as [x Hx]; [eexists; reflexivity|discriminate].
Qed.

Lemma cell_text_same_but_images (c c' : Cell) :
  same_but_images_cell c c' -> cell_text c = cell_text c'.
Proof.
  intros (Hty & Hsrc & Houts). unfold cell_text. rewrite Hty, Hsrc.
  replace (map transmute_output (outputs c)) with (map transmute_output (outputs c'));
    [reflexivity|].
  induction Houts as [|o o' os os' Ho _ IH]; simpl; [reflexivity|].
  rewrite IH, (transmute_output_same_but_image o o' Ho). reflexivity.
Qed.

Lemma loops_same_but_images (cs cs' : list Cell) :
  Forall2 same_but_images_cell cs cs' ->
  title_loop cs = title_loop cs'
  /\ description_loop cs = description_loop cs'
  /\ cells_text cs = cells_text cs'.
Proof.
  induction 1 as [|c c' cs cs' Hc _ (IHt & IHd & IHc)]; [repeat split|].
  pose proof (cell_text_same_but_images c c' Hc) as Htext.
  destruct Hc as (Hty & Hsrc & _).
  repeat split; simpl.
  - rewrite Hty, Hsrc, IHt. reflexivity.
  - rewrite Hty, Hsrc, IHd. reflexivity.
  - unfold cells_text in *. simpl. rewrite Htext, IHc. reflexivity.
Qed.

(** What an [execute_result] or [display_data] output adds. *)
Lemma transmute_output_display (o : Output) :
  is_type "execute_result" (output_type o)
  || is_type "display_data" (output_type o) = true ->
  transmute_output o
  = match data o !! "text/plain"%string with
    | Some t => fence [] (concat t)
    | None => []
    end
    ++ match data o !! "image/png"%string with
       | Some _ => image_note
       | None => []
       end
    ++ match data o !! "text/html"%string with
       | Some h => fence (str "html") (concat h)
       | None => []
       end.
Proof.
  intros Hty. unfold transmute_output.
  destruct (is_type "stream" (output_type o)) eqn:Es.
  { exfalso. unfold is_type in *. destruct (output_type o) as [t|]; [|discriminate].
    apply String.eqb_eq in Es. subst t. discriminate. }
  rewrite Hty. reflexivity.
Qed.

Lemma transmute_outputs_app (pre post : list Output) (st : state) :
  fst (_transmute_outputs (pre ++ post) st)
  = fst (_transmute_outputs pre st) ++ fst (_transmute_outputs post st).
Proof.
  rewrite !transmute_outputs_pure. cbn [fst].
  rewrite map_app, concat_app. reflexivity.
Qed.

Lemma occurs_app_l (w s t : pystr) : occurs w s -> occurs w (s ++ t).
Proof.
  intros (u & v & ->). exists u, (v ++ t). rewrite <- !app_assoc. reflexivity.
Qed.

Lemma occurs_app_r (w s t : pystr) : occurs w t -> occurs w (s ++ t).
Proof.
  intros (u & v & ->). exists (s ++ u), v. rewrite <- !app_assoc. reflexivity.
Qed.

(** The text of the cells is the end of the document. *)
Lemma mdx_content_cells (nb : Notebook) (path : pystr) (st : state) :
  exists frontmatter,
    fst (mdx_content nb path st) = frontmatter ++ cells_text (cells nb).
Proof.
  destruct (create_frontmatter_pure
              (match title_loop (cells nb) with
               | Some t => t
               | None => filename_title path
               end) nb) as [f Hf].
  exists f. unfold mdx_content, bind.
  rewrite (extract_title_pure nb path st), (Hf st), (transmute_cells_pure (cells nb) st).
  reflexivity.
Qed.

(** C1 (as stated, refuted).  The payload of an image can appear in the
    document: a [display_data] output that carries the picture under
    [image/png] and, as notebooks do, an HTML rendering that embeds the
    same payload in a data URL.  The HTML is rendered verbatim in a fence,
    after the note, so the payload text is in the output of
    [_transmute_outputs] and in the document. *)
Lemma C1_payload_repeated_in_html_is_rendered :
  let payload := str "iVBORw0KGgo=" in
  let html := str "<img src='data:image/png;base64,iVBORw0KGgo='>" in
  let figure :=
    {| output_type := Some "display_data"%string; text := [];
       data := <["image/png"%string := [payload]]>
                 (<["text/html"%string := [html]]> ∅);
       traceback := [] |} in
  let notebook :=
    {| metadata := ∅;
       cells := [ {| cell_type := Some "code"%string;
                     source := [str "img"];
                     outputs := [figure] |} ] |} in
  let st := {| self := init; stdout := [] |} in
  fst (_transmute_outputs [figure] st)
  = image_note
    ++ str "```html" ++ [nl]
    ++ str "<img src='data:image/png;base64,iVBORw0KGgo='>" ++ [nl]
    ++ str "```" ++ [nl]
  /\ occurs payload (fst (_transmute_outputs [figure] st))
  /\ occurs payload (fst (mdx_content notebook (str "img.ipynb") st)).
Proof.
  intros payload html figure notebook st.
  assert (Houts : fst (_transmute_outputs [figure] st)
                  = image_note
                    ++ str "```html" ++ [nl]
                    ++ str "<img src='data:image/png;base64,iVBORw0KGgo='>" ++ [nl]
                    ++ str "```" ++ [nl]).
  { rewrite (transmute_outputs_pure [figure] st). cbn [fst map concat].
    rewrite app_nil_r.
    rewrite (transmute_output_display figure) by reflexivity.
    unfold figure. cbn [data].
    rewrite lookup_insert_ne by discriminate.
    rewrite lookup_insert_ne by discriminate.
    rewrite lookup_empty.
    rewrite lookup_insert_eq.
    rewrite lookup_insert_ne by discriminate.
    rewrite lookup_insert_eq.
    reflexivity. }
  assert (Hin : occurs payload (fst (_transmute_outputs [figure] st))).
  { rewrite Houts.
    exists (image_note ++ str "```html" ++ [nl] ++ str "<img src='data:image/png;base64,"),
           (str "'>" ++ [nl] ++ str "```" ++ [nl]).
    reflexivity. }
  split; [exact Houts|]. split; [exact Hin|].
  destruct (mdx_content_cells notebook (str "img.ipynb") st) as [f ->].
  apply occurs_app_r. unfold cells_text, notebook. cbn [cells map concat].
  apply occurs_app_l. apply occurs_app_l.
  unfold cell_text. cbn [cell_type is_type outputs source].
  change (String.eqb "code" "markdown") with false.
  change (String.eqb "code" "code") with true. cbv iota.
  apply occurs_app_r.
  rewrite (transmute_outputs_pure [figure] st) in Hin. exact Hin.
Qed.

(** C1 (amended).  For an [execute_result] or [display_data] output that
    has the key [image/png], the loop of [_transmute_outputs] adds the
    fenced [text/plain] value if there is one, then the placeholder note,
    then the fenced [text/html] value if there is one, between what the
    outputs before and after it add; the note is in the document of every
    notebook that has such an output in a code cell; and the value stored
    under [image/png] is never read: notebooks that differ only in these
    values have the same document. *)
Theorem C1_image_is_rendered_as_the_note_only :
  (forall (pre post : list Output) (o : Output) (payload : list pystr) (st : state),
      is_type "execute_result" (output_type o)
      || is_type "display_data" (output_type o) = true ->
      data o !! "image/png"%string = Some payload ->
      fst (_transmute_outputs (pre ++ o :: post) st)
      = fst (_transmute_outputs pre st)
        ++ match data o !! "text/plain"%string with
           | Some t => str "```" ++ [nl] ++ concat t ++ [nl] ++ str "```" ++ [nl]
           | None => []
           end
        ++ image_note
        ++ match data o !! "text/html"%string with
           | Some h => str "```html" ++ [nl] ++ concat h ++ [nl] ++ str "```" ++ [nl]
           | None => []
           end
        ++ fst (_transmute_outputs post st))
  /\ (forall (nb : Notebook) (path : pystr) (st : state)
             (c : Cell) (o : Output) (payload : list pystr),
        In c (cells nb) ->
        is_type "code" (cell_type c) = true ->
        In o (outputs c) ->
        is_type "execute_result" (output_type o)
        || is_type "display_data" (output_type o) = true ->
        data o !! "image/png"%string = Some payload ->
        occurs image_note (fst (mdx_content nb path st)))
  /\ (forall (nb nb' : Notebook) (path : pystr) (st st' : state),
        same_but_images nb nb' ->
        fst (mdx_content nb path st) = fst (mdx_content nb' path st')).
Proof.
  assert (Hone : forall (o : Output) (payload : list pystr),
             is_type "execute_result" (output_type o)
             || is_type "display_data" (output_type o) = true ->
             data o !! "image/png"%string = Some payload ->
             transmute_output o
             = match data o !! "text/plain"%string with
               | Some t => str "```" ++ [nl] ++ concat t ++ [nl] ++ str "```" ++ [nl]
               | None => []
               end
               ++ image_note
               ++ match data o !! "text/html"%string with
                  | Some h => str "```html" ++ [nl] ++ concat h ++ [nl] ++ str "```" ++ [nl]
                  | None => []
                  end).
  { intros o payload Hty Hpng. rewrite (transmute_output_display o Hty), Hpng.
    unfold fence.
    destruct (data o !! "text/plain"%string); destruct (data o !! "text/html"%string);
      reflexivity. }
  split; [|split].
  - intros pre post o payload st Hty Hpng.
    rewrite transmute_outputs_app.
    change (o :: post) with ([o] ++ post). rewrite transmute_outputs_app.
    rewrite (transmute_outputs_pure [o] st). cbn [fst map concat].
    rewrite app_nil_r, (Hone o payload Hty Hpng), <- !app_assoc. reflexivity.
  - intros nb path st c o payload Hc Hcode Ho Hty Hpng.
    destruct (mdx_content_cells nb path st) as [f ->]. apply occurs_app_r.
    destruct (in_split _ _ Hc) as (xs & ys & ->).
    rewrite cells_text_app. apply occurs_app_r.
    unfold cells_text. cbn [map concat]. apply occurs_app_l, occurs_app_l.
    unfold cell_text. rewrite Hcode.
    destruct (is_type "markdown" (cell_type c)) eqn:Em.
    { exfalso. unfold is_type in *. destruct (cell_type c) as [t|]; [|discriminate].
      apply String.eqb_eq in Em. subst t. discriminate. }
    apply occurs_app_r.
    destruct (in_split _ _ Ho) as (pre & post & ->).
    rewrite map_app, concat_app. apply occurs_app_r. cbn [map concat].
    apply occurs_app_l. rewrite (Hone o payload Hty Hpng).
    eexists _, _. reflexivity.
  - intros nb nb' path st st' (Hm & Hcells).
    destruct (loops_same_but_images _ _ Hcells) as (Ht & Hd & Hc).
    apply mdx_content_depends; assumption.
Qed.

(** C1 at a notebook with one code cell that shows a figure, for two
    different payloads: the output of the cell is the fenced text, then the
    note; the note is in the document; and the document is the same for
    both payloads. *)
Lemma C1_witness :
  let figure payload :=
    {| output_type := Some "display_data"%string; text := [];
       data := <["image/png"%string := [payload]]>
                 (<["text/plain"%string := [str "<Figure size 640x480>"]]> ∅);
       traceback := [] |} in
  let notebook payload :=
    {| metadata := ∅;
       cells := [ {| cell_type := Some "code"%string;
                     source := [str "plt.show()"];
                     outputs := [figure payload] |} ] |} in
  let st := {| self := init; stdout := [] |} in
  fst (_transmute_outputs [figure (str "iVBORw0KGgo=")] st)
  = str "```" ++ [nl] ++ str "<Figure size 640x480>" ++ [nl] ++ str "```" ++ [nl]
    ++ image_note
  /\ occurs image_note
       (fst (mdx_content (notebook (str "iVBORw0KGgo=")) (str "plot.ipynb") st))
  /\ fst (mdx_content (notebook (str "iVBORw0KGgo=")) (str "plot.ipynb") st)
     = fst (mdx_content (notebook (str "R0lGODlhAQABAAAAACw=")) (str "plot.ipynb") st).
Proof.
  intros figure notebook st.
  pose proof C1_image_is_rendered_as_the_note_only as (Hloop & Hdoc & Hsame).
  split; [|split].
  - pose proof (Hloop [] [] (figure (str "iVBORw0KGgo=")) [str "iVBORw0KGgo="] st
                  eq_refl (lookup_insert_eq _ _ _)) as H.
    cbn [app] in H. rewrite H. unfold figure. cbn [data].
    rewrite lookup_insert_ne by discriminate.
    rewrite lookup_insert_eq.
    rewrite lookup_insert_ne by discriminate.
    rewrite lookup_insert_ne by discriminate.
    rewrite lookup_empty. cbn [_transmute_outputs ret fst concat].
    rewrite !app_nil_r, <- !app_assoc. reflexivity.
  - apply (Hdoc (notebook (str "iVBORw0KGgo=")) (str "plot.ipynb") st
             {| cell_type := Some "code"%string;
                source := [str "plt.show()"];
                outputs := [figure (str "iVBORw0KGgo=")] |}
             (figure (str "iVBORw0KGgo=")) [str "iVBORw0KGgo="]).
    + left. reflexivity.
    + reflexivity.
    + left. reflexivity.
    + reflexivity.
    + apply lookup_insert_eq.
  - apply Hsame. split; [reflexivity|].
    constructor; [|constructor]. split; [reflexivity|]. split; [reflexivity|].
    constructor; [|constructor]. repeat split.
    + intros k Hk. simpl.
      etrans; [apply lookup_insert_ne; congruence|].
      symmetry. apply lookup_insert_ne. congruence.
    + intros _. simpl. rewrite lookup_insert_eq. eexists; reflexivity.
    + intros _. simpl. rewrite lookup_insert_eq. eexists; reflexivity.
Defined.

End AlchemistFacts.


(* ================================================================== *)
(** * The length of a description                                       *)
(* ================================================================== *)

Module DescriptionFacts.
Import Py Re Alchemist Spec PyFacts ReFacts.

Lemma strip_ellipsis (x : pystr) :
  strip (x ++ str "...") = lstrip x ++ str "...".
Proof.
  unfold strip, lstrip. rewrite dropwhile_app by reflexivity.
  change (str "...") with (str ".." ++ ["."]). rewrite app_assoc.
  apply rstrip_keeps. reflexivity.
Qed.

Lemma takewhile_length (p : ascii -> bool) (s : pystr) :
  length (takewhile p s) <= length s.
Proof.
  induction s as [|c s IH]; simpl; [lia|]. destruct (p c); simpl; lia.
Qed.

(** After [\s+] is replaced by one space, a white-space character at the
    start is not followed by another one. *)
Lemma sub_spaces_head (prev : option ascii) (s : pystr) (x y : ascii) (r : pystr) :
  concat (map (fun p => match p with Lit c => [c] | Match _ _ => [" "] end)
            (pieces_from spaces 0 prev s)) = x :: y :: r ->
  isspace x = true -> isspace y = false.
Proof.
  destruct s as [|a s']; [discriminate|].
  destruct (isspace a) eqn:Ea.
  - assert (Hm : spaces prev (a :: s')
                 = Some {| span := S (length (takewhile isspace s')); groups := [] |}).
    { unfold spaces. simpl. rewrite Ea. reflexivity. }
    rewrite (pieces_match spaces prev (a :: s') _ [] Hm)
      by (pose proof (takewhile_length isspace s'); simpl; lia).
    cbn [drop]. rewrite drop_takewhile.
    pose proof (dropwhile_head isspace s') as Hhead.
    destruct (dropwhile isspace s') as [|z rest]; [discriminate|].
    rewrite pieces_lit by (unfold spaces; simpl; rewrite Hhead; reflexivity).
    simpl. intros H _. injection H as _ <- _. exact Hhead.
  - rewrite pieces_lit by (unfold spaces; simpl; rewrite Ea; reflexivity).
    simpl. intros H Hx. injection H as <- _. congruence.
Qed.

Lemma yaml_cleaned_head (text : pystr) (x y : ascii) (r : pystr) :
  yaml_cleaned text = x :: y :: r -> isspace x = true -> isspace y = false.
Proof. unfold yaml_cleaned, sub, pieces. apply sub_spaces_head. Qed.

Lemma clean_yaml_string_cases (text : pystr) :
  _clean_yaml_string text
  = strip (if Nat.ltb 150 (length (yaml_cleaned text))
           then take 147 (yaml_cleaned text) ++ str "..."
           else yaml_cleaned text).
Proof. destruct text; reflexivity. Qed.

(** C7 (as stated, refuted).  A description of 201 characters that starts
    with a space is emitted with 149 characters, and is not its first 147
    characters followed by the ellipsis. *)
Lemma C7_leading_space_gives_149 :
  let description := " " :: repeat "a" 200 in
  150 < length description
  /\ length (_clean_yaml_string description) = 149
  /\ _clean_yaml_string description <> take 147 description ++ str "...".
Proof.
  repeat split.
  - simpl. lia.
  - intros H. apply (f_equal (@length ascii)) in H. vm_compute in H. discriminate.
Qed.

Lemma description_loop_cons (l : pystr) (rest : list pystr) :
  AddFrontmatter.description_loop (l :: rest)
  = if describes l then
      let d := sub AddFrontmatter.emphasis_mark (fun _ _ => []) (strip l) in
      if Nat.ltb 150 (length d) then take 147 d ++ str "..." else d
    else AddFrontmatter.description_loop rest.
Proof. reflexivity. Qed.

Lemma description_loop_found (before after : list pystr) (line : pystr) :
  Forall (fun l => describes l = false) before ->
  describes line = true ->
  AddFrontmatter.description_loop (before ++ line :: after)
  = let d := sub AddFrontmatter.emphasis_mark (fun _ _ => []) (strip line) in
    if Nat.ltb 150 (length d) then take 147 d ++ str "..." else d.
Proof.
  intros Hbefore Hline. induction Hbefore as [|l before Hl _ IH].
  - cbn [app]. rewrite description_loop_cons, Hline. reflexivity.
  - cbn [app]. rewrite description_loop_cons, Hl. exact IH.
Qed.

(** C7 (amended).  [_clean_yaml_string] measures the text after it removed
    the tags, escaped the quotes and collapsed the white space: when that
    text has more than 150 characters the result is its first 147
    characters and the ellipsis, stripped, which has 150 characters when
    the text starts with a character other than white space and 149 when it
    starts with white space; a text of at most 150 characters is only
    stripped.  [add_frontmatter] cuts the description it extracted (the
    stripped line without its emphasis marks) to its first 147 characters
    and the ellipsis, 150 characters, when it is longer than 150, and keeps
    it otherwise; escaping the quotes afterwards adds one character for
    every quote. *)
Theorem C7_truncation_to_150 :
  (forall text : pystr,
      let c := yaml_cleaned text in
      (150 < length c ->
         _clean_yaml_string text = lstrip (take 147 c) ++ str "..."
         /\ (forall x r, c = x :: r -> isspace x = false ->
               _clean_yaml_string text = take 147 c ++ str "..."
               /\ length (_clean_yaml_string text) = 150)
         /\ (forall x r, c = x :: r -> isspace x = true ->
               _clean_yaml_string text = drop 1 (take 147 c) ++ str "..."
               /\ length (_clean_yaml_string text) = 149))
      /\ (length c <= 150 -> _clean_yaml_string text = strip c))
  /\ (forall (content : pystr) (before after : list pystr) (line : pystr),
        split_nl content = before ++ line :: after ->
        Forall (fun l => describes l = false) before ->
        describes line = true ->
        let d := sub AddFrontmatter.emphasis_mark (fun _ _ => []) (strip line) in
        (150 < length d ->
           AddFrontmatter.extract_description content = take 147 d ++ str "..."
           /\ length (AddFrontmatter.extract_description content) = 150)
        /\ (length d <= 150 -> AddFrontmatter.extract_description content = d)
        /\ length (AddFrontmatter.emitted_description content)
           = length (AddFrontmatter.extract_description content)
             + quotes (AddFrontmatter.extract_description content)).
Proof.
  split.
  - intros text c. split.
    + intros Hlong.
      assert (Hres : _clean_yaml_string text = lstrip (take 147 c) ++ str "...").
      { rewrite clean_yaml_string_cases. fold c.
        apply Nat.ltb_lt in Hlong. rewrite Hlong. apply strip_ellipsis. }
      split; [exact Hres|]. split.
      * intros x r Hc Hx. rewrite Hres, Hc. unfold lstrip. cbn [take dropwhile].
        rewrite Hx. split; [reflexivity|].
        rewrite Hc in Hlong. cbn [length] in Hlong.
        rewrite length_app. cbn [length]. rewrite length_take.
        change (length (str "...")) with 3. lia.
      * intros x r Hc Hx. rewrite Hres, Hc.
        destruct r as [|y r]; [rewrite Hc in Hlong; simpl in Hlong; lia|].
        pose proof (yaml_cleaned_head text x y r Hc Hx) as Hy.
        unfold lstrip. cbn [take dropwhile drop]. rewrite Hx, Hy.
        split; [reflexivity|].
        rewrite Hc in Hlong. cbn [length] in Hlong.
        rewrite length_app. cbn [length]. rewrite length_take.
        change (length (str "...")) with 3. lia.
    + intros Hshort. rewrite clean_yaml_string_cases. fold c.
      replace (Nat.ltb 150 (length c)) with false; [reflexivity|].
      symmetry. apply Nat.ltb_ge. exact Hshort.
  - intros content before after line Hsplit Hbefore Hline d.
    assert (Hex : AddFrontmatter.extract_description content
                  = if Nat.ltb 150 (length d) then take 147 d ++ str "..." else d).
    { unfold AddFrontmatter.extract_description. rewrite Hsplit.
      apply description_loop_found; assumption. }
    repeat split.
    + rewrite Hex. apply Nat.ltb_lt in H. rewrite H. reflexivity.
    + rewrite Hex. pose proof H as H'. apply Nat.ltb_lt in H. rewrite H.
      rewrite length_app, length_take. change (length (str "...")) with 3. lia.
    + intros Hshort. rewrite Hex.
      replace (Nat.ltb 150 (length d)) with false; [reflexivity|].
      symmetry. apply Nat.ltb_ge. exact Hshort.
    + unfold AddFrontmatter.emitted_description.
      rewrite replace_char_length by discriminate. unfold quotes. simpl. lia.
Qed.

(** C7 at a description of 160 letters, at one of 200 letters after a
    space, at a short one, and at a page whose first long line has 180
    characters, two of them emphasis marks and two of them quotes. *)
Lemma C7_witness :
  let long := repeat "a" 160 in
  let spaced := " " :: repeat "a" 200 in
  let page := str "# Title" ++ [nl] ++ str "short" ++ [nl]
              ++ str "*Pixeltable* says " ++ [dquote] ++ repeat "x" 160 ++ [dquote] in
  (_clean_yaml_string long = take 147 long ++ str "..."
   /\ length (_clean_yaml_string long) = 150)
  /\ length (_clean_yaml_string spaced) = 149
  /\ _clean_yaml_string (str " ok ") = str "ok"
  /\ length (AddFrontmatter.extract_description page) = 150
  /\ length (AddFrontmatter.emitted_description page) = 151.
Proof.
  intros long spaced page.
  pose proof (proj1 C7_truncation_to_150) as HA.
  pose proof (proj2 C7_truncation_to_150 page [str "# Title"; str "short"] []
                (str "*Pixeltable* says " ++ [dquote] ++ repeat "x" 160 ++ [dquote])
                eq_refl ltac:(repeat constructor) eq_refl) as HB.
  cbv zeta in HA, HB.
  refine (conj (conj _ _) (conj _ (conj _ (conj _ _)))).
  - destruct (HA long) as [Hlong _].
    destruct (Hlong ltac:(vm_compute; lia)) as (_ & Hns & _).
    exact (proj1 (Hns "a" (repeat "a" 159) eq_refl eq_refl)).
  - destruct (HA long) as [Hlong _].
    destruct (Hlong ltac:(vm_compute; lia)) as (_ & Hns & _).
    exact (proj2 (Hns "a" (repeat "a" 159) eq_refl eq_refl)).
  - destruct (HA spaced) as [Hlong _].
    destruct (Hlong ltac:(vm_compute; lia)) as (_ & _ & Hsp).
    exact (proj2 (Hsp " " (repeat "a" 200) eq_refl eq_refl)).
  - destruct (HA (str " ok ")) as [_ Hshort].
    exact (Hshort ltac:(vm_compute; lia)).
  - destruct HB as (Hlong & _ & _).
    exact (proj2 (Hlong ltac:(vm_compute; lia))).
  - destruct HB as (_ & _ & Hemit). rewrite Hemit. reflexivity.
Defined.

End DescriptionFacts.


(* ================================================================== *)
(** * Angle brackets                                                    *)
(* ================================================================== *)

Module AngleFacts.
Import Py Re Tags Spec PyFacts ReFacts.

Lemma sub_bare_lt (prev : option ascii) (s : pystr) :
  concat (map (fun p => match p with Lit c => [c] | Match _ _ => str "&lt;" end)
            (pieces_from bare_lt 0 prev s)) = lt_escaped s.
Proof.
  revert prev. induction s as [|c s IH]; intros prev; [reflexivity|].
  cbn [lt_escaped]. destruct (Ascii.eqb_spec c "<") as [->|Hne].
  - destruct (next_is tag_start s) eqn:En.
    + rewrite pieces_lit by (unfold bare_lt; rewrite En; reflexivity).
      cbn [map concat andb negb]. rewrite IH. reflexivity.
    + cbn [pieces_from]. unfold bare_lt at 1. rewrite En.
      cbn [found_of map concat andb negb]. rewrite IH. reflexivity.
  - rewrite pieces_lit.
    + cbn [map concat andb]. rewrite IH. reflexivity.
    + unfold bare_lt. destruct c as [[] [] [] [] [] [] [] []]; try reflexivity.
      exfalso. apply Hne. reflexivity.
Qed.

Lemma next_is_alpha_lt_escaped (s : pystr) :
  next_is isalpha (lt_escaped s) = next_is isalpha s.
Proof.
  destruct s as [|c s]; [reflexivity|]. cbn [lt_escaped].
  destruct (Ascii.eqb_spec c "<") as [->|Hne].
  - destruct (next_is tag_start s); reflexivity.
  - reflexivity.
Qed.

Lemma sub_bare_gt_lits (prev : option ascii) (u t : pystr) :
  ~ In ">" u ->
  concat (map gt_render (pieces_from FixMdx.bare_gt 0 prev (u ++ t)))
  = u ++ concat (map gt_render (pieces_from FixMdx.bare_gt 0 (last_of u prev) t)).
Proof.
  revert prev. induction u as [|c u IH]; intros prev Hu; [reflexivity|].
  cbn [app]. rewrite pieces_lit.
  - cbn [map concat gt_render]. rewrite IH, last_of_cons; [reflexivity|].
    intros H. apply Hu. right. exact H.
  - unfold FixMdx.bare_gt. destruct c as [[] [] [] [] [] [] [] []]; try reflexivity.
    exfalso. apply Hu. left. reflexivity.
Qed.

Lemma escape_angles_from (prev prev' : option ascii) (s : pystr) :
  prev_is isalpha prev = prev_is isalpha prev' ->
  concat (map gt_render (pieces_from FixMdx.bare_gt 0 prev (lt_escaped s)))
  = angles_spec prev' s.
Proof.
  revert prev prev'. induction s as [|c s IH]; intros prev prev' Hprev; [reflexivity|].
  cbn [lt_escaped angles_spec]. unfold angle_char.
  destruct (Ascii.eqb_spec c "<") as [->|Hlt].
  - destruct (next_is tag_start s) eqn:En; cbn [andb negb].
    + rewrite (sub_bare_gt_lits prev ["<"]) by (intros [H|[]]; discriminate).
      rewrite (IH _ (Some "<")) by reflexivity. reflexivity.
    + rewrite (sub_bare_gt_lits prev (str "&lt;"))
        by (intros H; repeat (destruct H as [H|H]; [discriminate|]); exact H).
      rewrite (IH _ (Some "<")) by reflexivity. reflexivity.
  - cbn [andb app]. destruct (Ascii.eqb_spec c ">") as [->|Hgt].
    + cbn [andb]. rewrite <- Hprev, <- (next_is_alpha_lt_escaped s).
      destruct (prev_is isalpha prev || next_is isalpha (lt_escaped s)) eqn:E.
      * rewrite pieces_lit by (unfold FixMdx.bare_gt; rewrite E; reflexivity).
        apply orb_true_iff in E.
        replace (negb (prev_is isalpha prev) && negb (next_is isalpha (lt_escaped s)))
          with false
          by (destruct E as [-> | ->]; [reflexivity|symmetry; apply andb_false_r]).
        cbn [map concat gt_render]. rewrite (IH _ (Some ">")) by reflexivity.
        reflexivity.
      * cbn [pieces_from]. unfold FixMdx.bare_gt at 1. rewrite E.
        apply orb_false_iff in E. destruct E as [-> ->].
        cbn [found_of map concat gt_render negb andb].
        rewrite (IH _ (Some ">")) by reflexivity. reflexivity.
    + rewrite pieces_lit.
      * cbn [map concat gt_render]. rewrite (IH _ (Some c)) by reflexivity.
        reflexivity.
      * unfold FixMdx.bare_gt. destruct c as [[] [] [] [] [] [] [] []]; try reflexivity.
        exfalso. apply Hgt. reflexivity.
Qed.

(** In [fix_mdx.py] the two substitutions do what the specification says
    of angle brackets, on every text. *)
Theorem fix_mdx_escape_angles_meets_spec (content : pystr) :
  FixMdx.escape_angles content = angles_spec None content.
Proof.
  unfold FixMdx.escape_angles, sub, pieces.
  rewrite (sub_bare_lt None content).
  apply (escape_angles_from None None). reflexivity.
Qed.

(** C6 (the code departs from it).  [_fix_mdx_syntax] looks only at the
    character before a [>]: in a link whose opening tag ends with a quoted
    attribute, the [>] that closes the tag stands before a letter and is
    escaped all the same, although the specification leaves it unchanged
    (as the same step of [fix_mdx.py] does). *)
Theorem C6_gt_before_a_letter_is_escaped :
  let link := str "<a href=" ++ [dquote; "x"; dquote] ++ str ">text</a>" in
  Alchemist._fix_mdx_syntax link
  = str "<a href=" ++ [dquote; "x"; dquote] ++ str "&gt;text</a>"
  /\ angles_spec None link = link
  /\ FixMdx.escape_angles link = link.
Proof. repeat split. Qed.

End AngleFacts.


(* ================================================================== *)
(** * The batch drivers                                                 *)
(* ================================================================== *)

Module BatchFacts.
Import Py IO.
Local Open Scope io_scope.

Import Spec.

Lemma grows_refl (w : world) : grows w w.
Proof. exists []. symmetry. apply app_nil_r. Qed.

Lemma grows_trans (w1 w2 w3 : world) : grows w1 w2 -> grows w2 w3 -> grows w1 w3.
Proof.
  intros [m1 H1] [m2 H2]. exists (m1 ++ m2). rewrite H2, H1, app_assoc. reflexivity.
Qed.

Lemma grows_In (w w' : world) (line : pystr) :
  grows w w' -> In line (stdout w) -> In line (stdout w').
Proof. intros [m ->] H. apply in_or_app. left. exact H. Qed.

Lemma grows_print (w : world) (line : pystr) :
  grows w {| fs := fs w; stdout := stdout w ++ [line] |}.
Proof. exists [line]. reflexivity. Qed.

Lemma grows_set_fs (w : world) (f : gmap string file_data) :
  grows w {| fs := f; stdout := stdout w |}.
Proof. exists []. simpl. symmetry. apply app_nil_r. Qed.

Lemma printed_grows (line : pystr) (w w' : world) : printed line w w' -> grows w w'.
Proof. intros (more & H & _). exists more. exact H. Qed.

Lemma printed_In (line : pystr) (w w' : world) :
  printed line w w' -> In line (stdout w').
Proof. intros (more & -> & H). apply in_or_app. right. exact H. Qed.

(** A loop whose body always returns, returns, and what each round printed
    is still in the output at the end. *)
Lemma for_each_returns {A} (body : A -> io unit) (line : A -> pystr) :
  (forall x w, exists w', body x w = Return tt w' /\ printed (line x) w w') ->
  forall xs w, exists w', for_each xs body w = Return tt w'
                          /\ grows w w'
                          /\ forall x, In x xs -> In (line x) (stdout w').
Proof.
  intros Hbody xs. induction xs as [|x xs IH]; intros w.
  - exists w. split; [reflexivity|]. split; [apply grows_refl|]. intros x [].
  - destruct (Hbody x w) as (w1 & Hx & Hp1).
    destruct (IH w1) as (w2 & Hxs & Hg2 & Hin).
    exists w2. split; [|split].
    + cbn [for_each]. unfold bind. rewrite Hx. exact Hxs.
    + eapply grows_trans; [|exact Hg2]. eapply printed_grows. exact Hp1.
    + intros y [<-|Hy]; [|apply Hin; exact Hy].
      apply (grows_In w1 w2 _ Hg2). eapply printed_In. exact Hp1.
Qed.

Ltac printed_line := 
  eexists; split; [cbn [stdout]; rewrite <- ?app_assoc; reflexivity|];
  simpl; tauto.

Lemma check_file_returns (f : string) (w : world) :
  exists w', FixMdxIssues.check_file f w = Return tt w'
             /\ printed (str "Checking " ++ FixMdxIssues.basename f ++ str "...") w w'.
Proof.
  unfold FixMdxIssues.check_file, FixMdxIssues.fix_mdx_issues.
  unfold bind, try_except, read_text, print, write_text, ret. cbn [fs stdout].
  destruct (fs w !! f) as [[t|]|] eqn:E.
  - destruct (FixMdxIssues.fix_content (universal_newlines t)) as [[fixed fixes] modified].
    destruct modified.
    + cbn [fs stdout]. rewrite E. cbn [fs stdout].
      eexists. split; [reflexivity|]. printed_line.
    + eexists. split; [reflexivity|]. printed_line.
  - eexists. split; [reflexivity|]. printed_line.
  - eexists. split; [reflexivity|]. printed_line.
Qed.

(** [fix_mdx_issues.py]: whatever the files hold, [main] returns, and it
    has checked every file of the batch. *)
Theorem fix_mdx_issues_main_never_aborts (mdx_files : list string) (w : world) :
  exists w', FixMdxIssues.main mdx_files w = Return tt w'
             /\ forall f, In f mdx_files ->
                  In (str "Checking " ++ FixMdxIssues.basename f ++ str "...") (stdout w').
Proof.
  unfold FixMdxIssues.main.
  destruct (for_each_returns FixMdxIssues.check_file
              (fun f => str "Checking " ++ FixMdxIssues.basename f ++ str "...")
              check_file_returns mdx_files
              {| fs := fs w;
                 stdout := stdout w ++ [str "Found " ++ str_of_nat (length mdx_files)
                                        ++ str " MDX files to check..."] |})
    as (w1 & Hloop & Hg & Hin).
  eexists. split.
  - unfold bind at 1. unfold print at 1. unfold bind at 1. rewrite Hloop.
    reflexivity.
  - intros f Hf. cbn [stdout]. apply in_or_app. left. apply in_or_app. left.
    apply in_or_app. left. apply Hin. exact Hf.
Qed.

Lemma convert_all_returns (rewrite : string -> pystr -> pystr)
    (md_files converted : list string) (w : world) :
  exists converted' w',
    ConvertMdToMdx.convert_all rewrite md_files converted w = Return converted' w'
    /\ grows w w'
    /\ forall f, In f md_files -> In (str "Converting: " ++ str f) (stdout w').
Proof.
  revert converted w. induction md_files as [|f rest IH]; intros converted w.
  - exists converted, w. split; [reflexivity|]. split; [apply grows_refl|]. intros f [].
  - cbn [ConvertMdToMdx.convert_all].
    unfold ConvertMdToMdx.convert_md_to_mdx.
    unfold bind, try_except, read_text, print, write_text, ret. cbn [fs stdout].
    destruct (fs w !! f) as [[t|]|] eqn:E;
      match goal with
      | |- context [ConvertMdToMdx.convert_all rewrite rest ?c ?w1] =>
          destruct (IH c w1) as (c' & w' & Hrun & Hg & Hin);
          exists c', w'; split; [exact Hrun|]; split;
          [ eapply grows_trans; [|exact Hg]; eexists; cbn [stdout];
            rewrite <- ?app_assoc; reflexivity
          | intros y [<-|Hy]; [|apply Hin; exact Hy];
            apply (grows_In w1 w' _ Hg); cbn [stdout];
            rewrite <- ?app_assoc; apply in_or_app; right; left; reflexivity ]
      end.
Qed.

(** [docs/jupyter/convert_md_to_mdx.py]: whatever the files hold and
    whatever the rewriting does, [main] returns, and it has taken up every
    file of the batch. *)
Theorem convert_md_to_mdx_main_never_aborts (rewrite : string -> pystr -> pystr)
    (md_files : list string) (w : world) :
  exists w', ConvertMdToMdx.main rewrite md_files w = Return tt w'
             /\ forall f, In f md_files -> In (str "Converting: " ++ str f) (stdout w').
Proof.
  destruct md_files as [|f0 rest].
  - eexists. split; [reflexivity|]. intros f [].
  - remember (f0 :: rest) as files eqn:Hfiles.
    assert (Hmain : ConvertMdToMdx.main rewrite files
                    = (IO.print (str "Found " ++ str_of_nat (length files)
                                 ++ str " .md files to convert:") >>>
                       let! converted_files := ConvertMdToMdx.convert_all rewrite files [] in
                       IO.print [] >>>
                       IO.print (str "Conversion complete! Created "
                                 ++ str_of_nat (length converted_files)
                                 ++ str " .mdx files:") >>>
                       IO.for_each converted_files (fun f => IO.print (str "  " ++ str f)) >>>
                       IO.print [] >>>
                       IO.print (str "Note: Original .md files are preserved.") >>>
                       IO.print (str "You can now use the .mdx files in your Docusaurus project."))%io).
    { rewrite Hfiles. reflexivity. }
    rewrite Hmain. clear Hmain Hfiles.
    destruct (convert_all_returns rewrite files []
                {| fs := fs w;
                   stdout := stdout w ++ [str "Found " ++ str_of_nat (length files)
                                          ++ str " .md files to convert:"] |})
      as (conv & w1 & Hrun & Hg & Hin).
    destruct (for_each_returns (fun f => print (str "  " ++ str f))
                (fun f => str "  " ++ str f)) with
      (xs := conv)
      (w := {| fs := fs {| fs := fs w1; stdout := stdout w1 ++ [[]] |};
               stdout := stdout {| fs := fs w1; stdout := stdout w1 ++ [[]] |}
                         ++ [str "Conversion complete! Created "
                             ++ str_of_nat (length conv) ++ str " .mdx files:"] |})
      as (w2 & Hlist & Hg2 & _).
    { intros x w0. eexists. split; [reflexivity|]. eexists. split; [reflexivity|].
      left. reflexivity. }
    eexists. split.
    + unfold bind at 1. unfold print at 1. unfold bind at 1. rewrite Hrun.
      unfold bind at 1. unfold print at 1. unfold bind at 1. unfold print at 1.
      unfold bind at 1. rewrite Hlist. reflexivity.
    + intros f Hf. cbn [stdout].
      repeat (apply in_or_app; left).
      apply (grows_In w1 w2 _).
      * eapply grows_trans; [|exact Hg2]. eexists. cbn [stdout].
        rewrite <- app_assoc. reflexivity.
      * apply Hin. exact Hf.
Qed.

(** C5 (the code departs from it).  [clean_mdx.py]'s [main] has no [try]
    around the per-file call: with two files of which the first cannot be
    decoded, it raises at the first and never cleans the second, whose
    braces stay unescaped; on the same files [fix_mdx_issues.py]'s [main]
    reports the first and goes on to fix the second. *)
Theorem C5_clean_mdx_main_aborts_the_batch :
  let files := ["docs/a.mdx"; "docs/b.mdx"]%string in
  let w := {| fs := <["docs/a.mdx"%string := Undecodable]>
                      (<["docs/b.mdx"%string := Utf8 (str "{x}")]> ∅);
              stdout := [] |} in
  (exists w', CleanMdx.main files w = Raise (UnicodeDecodeError "docs/a.mdx") w'
              /\ fs w' !! "docs/b.mdx"%string = Some (Utf8 (str "{x}"))
              /\ stdout w' = [str "Cleaning 2 MDX files..."])
  /\ (exists w', FixMdxIssues.main files w = Return tt w'
                 /\ fs w' !! "docs/b.mdx"%string = Some (Utf8 (str "\{x\}"))
                 /\ In (str "  Error processing a.mdx: 'utf-8' codec can't decode docs/a.mdx")
                      (stdout w')).
Proof.
  split.
  - eexists. split; [vm_compute; reflexivity|]. split; reflexivity.
  - eexists. split; [vm_compute; reflexivity|]. split; [reflexivity|].
    vm_compute. right. right. right. left. reflexivity.
Qed.

End BatchFacts.


(* ================================================================== *)
(** * Lines of a text                                                   *)
(* ================================================================== *)

Module LineFacts.
Import Py Spec PyFacts.

Lemma split_nl_not_nil (s : pystr) : split_nl s <> [].
Proof.
  unfold split_nl. destruct s as [|c s]; simpl; [discriminate|].
  destruct (Ascii.eqb c nl); [discriminate|].
  destruct (split_on nl s); discriminate.
Qed.

Lemma split_nl_cons (c : ascii) (s : pystr) :
  split_nl (c :: s)
  = if Ascii.eqb c nl then [] :: split_nl s
    else match split_nl s with
         | l :: ls => (c :: l) :: ls
         | [] => [[c]]
         end.
Proof. reflexivity. Qed.

(** Joining the lines of a text gives the text back. *)
Lemma join_split_nl (s : pystr) : join [nl] (split_nl s) = s.
Proof.
  induction s as [|c s IH]; [reflexivity|].
  rewrite split_nl_cons. destruct (Ascii.eqb_spec c nl) as [->|Hc].
  - pose proof (split_nl_not_nil s) as Hne.
    destruct (split_nl s) as [|l ls]; [contradiction|].
    change (join [nl] ([] :: l :: ls)) with (nl :: join [nl] (l :: ls)).
    rewrite IH. reflexivity.
  - pose proof (split_nl_not_nil s) as Hne.
    destruct (split_nl s) as [|l ls]; [contradiction|].
    destruct ls as [|l2 ls]; simpl in *; rewrite <- IH; reflexivity.
Qed.

Lemma split_nl_one_line (l : pystr) : one_line l -> split_nl l = [l].
Proof.
  induction l as [|c l IH]; intros Hl; [reflexivity|].
  rewrite split_nl_cons.
  destruct (Ascii.eqb_spec c nl) as [->|Hc]; [exfalso; apply Hl; left; reflexivity|].
  rewrite IH; [reflexivity|]. intros H. apply Hl. right. exact H.
Qed.

Lemma split_nl_app (l rest : pystr) :
  one_line l -> split_nl (l ++ nl :: rest) = l :: split_nl rest.
Proof.
  induction l as [|c l IH]; intros Hl.
  - reflexivity.
  - cbn [app]. rewrite split_nl_cons.
    destruct (Ascii.eqb_spec c nl) as [->|Hc]; [exfalso; apply Hl; left; reflexivity|].
    rewrite IH; [reflexivity|]. intros H. apply Hl. right. exact H.
Qed.

(** Splitting the join of lines gives the lines back. *)
Lemma split_join_nl (ls : list pystr) :
  ls <> [] -> Forall one_line ls -> split_nl (join [nl] ls) = ls.
Proof.
  intros Hne Hall. induction Hall as [|l ls Hl Hls IH]; [contradiction|].
  destruct ls as [|l2 ls].
  - apply split_nl_one_line. exact Hl.
  - change (join [nl] (l :: l2 :: ls)) with (l ++ nl :: join [nl] (l2 :: ls)).
    rewrite split_nl_app by exact Hl. rewrite IH by discriminate. reflexivity.
Qed.

Lemma split_nl_lines (s : pystr) : Forall one_line (split_nl s).
Proof.
  induction s as [|c s IH]; [repeat constructor; intros []|].
  rewrite split_nl_cons. destruct (Ascii.eqb_spec c nl) as [->|Hc].
  - constructor; [intros []|exact IH].
  - destruct (split_nl s) as [|l ls]; [repeat constructor; intros [H|[]]; congruence|].
    inversion IH as [|? ? Hl Hls]; subst. constructor; [|exact Hls].
    intros [H|H]; [congruence|exact (Hl H)].
Qed.

Lemma join_nl_inj (xs ys : list pystr) :
  xs <> [] -> ys <> [] -> Forall one_line xs -> Forall one_line ys ->
  join [nl] xs = join [nl] ys -> xs = ys.
Proof.
  intros Hx Hy Hxs Hys H.
  rewrite <- (split_join_nl xs Hx Hxs), <- (split_join_nl ys Hy Hys), H. reflexivity.
Qed.

End LineFacts.


(* ================================================================== *)
(** * The title of a notebook                                           *)
(* ================================================================== *)

Module TitleFacts.
Import Py Re Alchemist Spec PyFacts AlchemistFacts LineFacts.

Ltac one_line_tac :=
  unfold one_line; simpl;
  let H := fresh in intros H; repeat (destruct H as [H|H]; [discriminate|]); exact H.

Lemma takewhile_app_stop (p : ascii -> bool) (u v : pystr) :
  Forall (fun c => p c = true) u ->
  match v with c :: _ => p c = false | [] => True end ->
  takewhile p (u ++ v) = u.
Proof.
  intros Hu Hv. induction Hu as [|c u Hc _ IH]; simpl.
  - destruct v as [|c v]; [reflexivity|]. simpl. rewrite Hv. reflexivity.
  - rewrite Hc, IH. reflexivity.
Qed.

Lemma neqb_true (a c : ascii) : neqb a c = true <-> c <> a.
Proof.
  unfold neqb. rewrite negb_true_iff. split.
  - intros H ->. rewrite Ascii.eqb_refl in H. discriminate.
  - intros H. apply Ascii.eqb_neq. exact H.
Qed.

Lemma Forall_neqb (a : ascii) (l : pystr) :
  ~ In a l -> Forall (fun c => neqb a c = true) l.
Proof.
  intros H. apply List.Forall_forall. intros c Hc. apply neqb_true.
  intros ->. exact (H Hc).
Qed.

(** Inside a line no heading starts, and none at its start when the line is
    not a heading line: the search passes over the line. *)
Lemma pieces_h1_inside (line tail : pystr) (prev : option ascii) :
  one_line line ->
  at_line_start prev = false ->
  pieces_from h1 0 prev (line ++ tail)
  = map Lit line
    ++ pieces_from h1 0 (match rev line with c :: _ => Some c | [] => prev end) tail.
Proof.
  revert prev. induction line as [|c line IH]; intros prev Hl Hprev.
  - reflexivity.
  - assert (Hc : c <> nl) by (intros ->; apply Hl; left; reflexivity).
    assert (Hl' : one_line line) by (intros H; apply Hl; right; exact H).
    change ((c :: line) ++ tail) with (c :: (line ++ tail)).
    cbn [pieces_from].
    replace (h1 prev (c :: line ++ tail)) with (@None found).
    2:{ unfold h1. destruct (Ascii.eqb_spec c "#") as [->|Hne].
        - rewrite Hprev. reflexivity.
        - destruct c as [[] [] [] [] [] [] [] []]; try reflexivity.
          exfalso. apply Hne. reflexivity. }
    rewrite (IH (Some c) Hl').
    2:{ simpl. apply Ascii.eqb_neq. exact Hc. }
    simpl. f_equal. f_equal.
    destruct (rev line) as [|d l'] eqn:E; simpl; [reflexivity|].
    reflexivity.
Qed.

Lemma h1_not_heading (line tail : pystr) (prev : option ascii) :
  not_heading line = true ->
  match tail with [] => True | c :: _ => c = nl end ->
  h1 prev (line ++ tail) = None.
Proof.
  intros Hn Htail. unfold h1.
  destruct line as [|c line].
  - simpl. destruct tail as [|t tail]; [reflexivity|]. subst t. reflexivity.
  - destruct (Ascii.eqb_spec c "#") as [->|Hne].
    + destruct line as [|d line]; [discriminate|].
      simpl in Hn. apply negb_true_iff in Hn.
      simpl. destruct (at_line_start prev); [|reflexivity].
      rewrite Hn. reflexivity.
    + simpl. destruct c as [[] [] [] [] [] [] [] []]; try reflexivity.
      exfalso. apply Hne. reflexivity.
Qed.

Lemma pieces_h1_line (line tail : pystr) (prev : option ascii) :
  one_line line ->
  not_heading line = true ->
  match tail with [] => True | c :: _ => c = nl end ->
  exists prev',
    pieces_from h1 0 prev (line ++ tail)
    = map Lit line ++ pieces_from h1 0 prev' tail.
Proof.
  intros Hl Hn Htail. destruct line as [|c line].
  - exists prev. reflexivity.
  - assert (Hc : c <> nl) by (intros ->; apply Hl; left; reflexivity).
    assert (Hl' : one_line line) by (intros H; apply Hl; right; exact H).
    pose proof (h1_not_heading (c :: line) tail prev Hn Htail) as Hnone.
    change ((c :: line) ++ tail) with (c :: (line ++ tail)) in *.
    cbn [pieces_from]. rewrite Hnone.
    rewrite (pieces_h1_inside line tail (Some c) Hl').
    2:{ simpl. apply Ascii.eqb_neq. exact Hc. }
    eexists. reflexivity.
Qed.

Lemma first_match_lits (cs : pystr) (ps : list piece) :
  first_match (map Lit cs ++ ps) = first_match ps.
Proof. induction cs as [|c cs IH]; simpl; [reflexivity|exact IH]. Qed.

(** The lines before the heading are passed over. *)
Lemma search_skips_lines (lines : list pystr) (rest : pystr) (prev : option ascii) :
  Forall (fun l => not_heading l = true /\ one_line l) lines ->
  first_match (pieces_from h1 0 prev (concat (map (fun l => l ++ [nl]) lines) ++ rest))
  = first_match (pieces_from h1 0 (match lines with [] => prev | _ => Some nl end) rest).
Proof.
  intros H. revert prev. induction H as [|l lines [Hn Hl] _ IH]; intros prev.
  - reflexivity.
  - simpl. rewrite <- !app_assoc.
    destruct (pieces_h1_line l ([nl] ++ concat (map (fun l0 => l0 ++ [nl]) lines) ++ rest)
                prev Hl Hn) as [p1 Hp1]; [reflexivity|].
    rewrite Hp1, first_match_lits.
    change ([nl] ++ concat (map (fun l0 => l0 ++ [nl]) lines) ++ rest)
      with (nl :: (concat (map (fun l0 => l0 ++ [nl]) lines) ++ rest)).
    cbn [pieces_from].
    replace (h1 p1 (nl :: concat (map (fun l0 => l0 ++ [nl]) lines) ++ rest))
      with (@None found) by reflexivity.
    cbn [first_match].
    rewrite (IH (Some nl)). destruct lines; reflexivity.
Qed.

Lemma join_nl_cons (l : pystr) (ls : list pystr) :
  ls <> [] -> join [nl] (l :: ls) = l ++ [nl] ++ join [nl] ls.
Proof. destruct ls; [contradiction|reflexivity]. Qed.

Lemma join_nl_app (before : list pystr) (ls : list pystr) :
  ls <> [] ->
  join [nl] (before ++ ls) = concat (map (fun l => l ++ [nl]) before) ++ join [nl] ls.
Proof.
  intros Hne. induction before as [|b before IH]; [reflexivity|].
  change ((b :: before) ++ ls) with (b :: (before ++ ls)).
  rewrite join_nl_cons by (destruct before; [exact Hne|discriminate]).
  rewrite IH. simpl. rewrite <- !app_assoc. reflexivity.
Qed.

(** The heading line is found, and its group is the heading text. *)
Lemma h1_heading (ws heading tail : pystr) (prev : option ascii) :
  at_line_start prev = true ->
  ws <> [] ->
  Forall (fun c => isspace c = true) ws ->
  (exists b rest, heading = b :: rest /\ isspace b = false) ->
  one_line heading ->
  match tail with [] => True | c :: _ => c = nl end ->
  h1 prev (heading_line ws heading ++ tail)
  = found_of (1 + length ws + length heading) [heading].
Proof.
  intros Hprev Hws Hsp (b & rest & -> & Hb) Hone Htail.
  unfold h1, heading_line. cbn [app]. rewrite Hprev.
  rewrite <- app_assoc.
  rewrite (takewhile_app_stop isspace ws ((b :: rest) ++ tail) Hsp) by exact Hb.
  destruct ws as [|w ws]; [contradiction|].
  cbn [length longest].
  assert (Hd : drop (S (length ws)) ((w :: ws) ++ (b :: rest) ++ tail)
               = (b :: rest) ++ tail).
  { change (S (length ws)) with (length (w :: ws)). apply drop_app_length. }
  unfold heading_at at 1. rewrite Hd. cbn [app].
  assert (Hbnl : Ascii.eqb b nl = false).
  { apply Ascii.eqb_neq. intros ->. discriminate. }
  rewrite Hbnl.
  change (b :: rest ++ tail) with ((b :: rest) ++ tail).
  rewrite (takewhile_app_stop (neqb nl) (b :: rest) tail).
  - reflexivity.
  - apply Forall_neqb. exact Hone.
  - destruct tail as [|t tail]; [exact I|]. subst t. reflexivity.
Qed.

Lemma search_h1_heading (before after : list pystr) (ws heading : pystr) :
  Forall (fun l => not_heading l = true /\ one_line l) before ->
  ws <> [] ->
  Forall (fun c => isspace c = true) ws ->
  (exists b rest, heading = b :: rest /\ isspace b = false) ->
  one_line heading ->
  one_line ws ->
  exists whole,
    search h1 (join [nl] (before ++ heading_line ws heading :: after))
    = Some (whole, [heading]).
Proof.
  intros Hbefore Hws Hsp Hhead Hone Hwsone.
  unfold search, pieces.
  rewrite join_nl_app by discriminate.
  rewrite (search_skips_lines before _ None Hbefore).
  set (prev' := match before with [] => None | _ => Some nl end).
  assert (Hstart : at_line_start prev' = true) by (destruct before; reflexivity).
  assert (Hjoin : exists tail,
             join [nl] (heading_line ws heading :: after)
             = heading_line ws heading ++ tail
             /\ match tail with [] => True | c :: _ => c = nl end).
  { destruct after as [|a after].
    - exists []. split; [symmetry; apply app_nil_r|exact I].
    - exists ([nl] ++ join [nl] (a :: after)). split; reflexivity. }
  destruct Hjoin as (tail & -> & Htail).
  pose proof (h1_heading ws heading tail prev' Hstart Hws Hsp Hhead Hone Htail) as Hm.
  unfold heading_line in *. cbn [app] in *. cbn [pieces_from].
  rewrite Hm. unfold found_of. cbn [plus first_match].
  eexists. reflexivity.
Qed.

Lemma search_h1_none (lines : list pystr) :
  Forall (fun l => not_heading l = true /\ one_line l) lines ->
  search h1 (join [nl] lines) = None.
Proof.
  intros H. unfold search, pieces.
  induction lines as [|l front _] using rev_ind; [reflexivity|].
  apply Forall_app in H. destruct H as [Hfront Hlast].
  apply Forall_inv in Hlast. destruct Hlast as [Hn Hl].
  rewrite join_nl_app by discriminate.
  rewrite (search_skips_lines front _ None Hfront).
  cbn [join].
  destruct (pieces_h1_line l [] (match front with [] => None | _ => Some nl end) Hl Hn)
    as [p Hp]; [exact I|].
  rewrite app_nil_r in Hp. rewrite Hp. rewrite first_match_lits. reflexivity.
Qed.

Lemma title_loop_skip (skipped rest : list Cell) :
  Forall (fun c => markdown c = false) skipped ->
  title_loop (skipped ++ rest) = title_loop rest.
Proof.
  induction 1 as [|c skipped Hc _ IH]; [reflexivity|].
  simpl. unfold markdown in Hc. rewrite Hc. exact IH.
Qed.

Lemma strip_leading (b : ascii) (rest : pystr) :
  isspace b = false -> strip (b :: rest) = rstrip (b :: rest).
Proof. intros Hb. unfold strip, lstrip. simpl. rewrite Hb. reflexivity. Qed.

(** C4 (as stated, refuted).  With a metadata title, a heading in the first
    markdown cell and a file name, the extractor returns the heading, not
    the metadata title. *)
Lemma C4_metadata_title_does_not_win :
  let notebook :=
    {| metadata := <["title"%string := str "A"]> ∅;
       cells := [ {| cell_type := Some "markdown"%string;
                     source := [str "# B"];
                     outputs := [] |} ] |} in
  let st := {| self := init; stdout := [] |} in
  fst (_extract_title notebook (str "c.ipynb") st) = str "B"
  /\ fst (_extract_title notebook (str "c.ipynb") st) <> str "A"
  /\ filename_title (str "c.ipynb") = str "C".
Proof. repeat split. discriminate. Qed.

(** ** The search, line by line *)

Lemma dropwhile_all (p : ascii -> bool) (s : pystr) :
  Forall (fun c => p c = true) s -> dropwhile p s = [].
Proof. induction 1 as [|c s Hc _ IH]; simpl; [reflexivity|]. rewrite Hc. exact IH. Qed.

Lemma strip_blank (g : pystr) : Forall (fun c => isspace c = true) g -> strip g = [].
Proof. intros H. unfold strip, lstrip. rewrite (dropwhile_all _ _ H). reflexivity. Qed.

Lemma Forall_takewhile (P : ascii -> Prop) (p : ascii -> bool) (s : pystr) :
  Forall P s -> Forall P (takewhile p s).
Proof.
  induction 1 as [|c s Hc _ IH]; simpl; [constructor|].
  destruct (p c); [constructor; assumption|constructor].
Qed.

Lemma takewhile_holds (p : ascii -> bool) (s : pystr) :
  Forall (fun c => p c = true) (takewhile p s).
Proof.
  induction s as [|c s IH]; simpl; [constructor|].
  destruct (p c) eqn:E; [constructor; assumption|constructor].
Qed.

Lemma h1_unfold (prev : option ascii) (s : pystr) :
  h1 prev s
  = match s with
    | c :: r =>
        if Ascii.eqb c "#"
        then if at_line_start prev
             then longest (heading_at r) (length (takewhile isspace r))
             else None
        else None
    | [] => None
    end.
Proof.
  destruct s as [|c r]; [reflexivity|].
  destruct c as [[] [] [] [] [] [] [] []]; reflexivity.
Qed.

Lemma first_heading_unfold (line : pystr) (rest : list pystr) :
  first_heading (line :: rest)
  = match line with
    | c :: r =>
        if Ascii.eqb c "#"
        then match heading_title (join [nl] (r :: rest)) with
             | Some t => Some t
             | None => first_heading rest
             end
        else first_heading rest
    | [] => first_heading rest
    end.
Proof.
  destruct line as [|c r]; [reflexivity|].
  destruct c as [[] [] [] [] [] [] [] []]; reflexivity.
Qed.

(** After a [#] that only white space follows, the white space gives
    characters back until one that is no newline is the next: the group is
    made of white space. *)
Lemma longest_blank (r : pystr) (n : nat) :
  Forall (fun c => isspace c = true) r ->
  S n <= length r ->
  (longest (heading_at r) n = None
   /\ forallb (fun x => Ascii.eqb x nl) (take n (drop 1 r)) = true)
  \/ (exists k g, longest (heading_at r) n = found_of (S k) [g]
        /\ Forall (fun c => isspace c = true) g
        /\ forallb (fun x => Ascii.eqb x nl) (take n (drop 1 r)) = false).
Proof.
  intros Hr. induction n as [|n IH]; intros Hn.
  - left. split; reflexivity.
  - destruct (lookup_lt_is_Some_2 r (S n)) as [c Hc]; [lia|].
    assert (Htake : take (S n) (drop 1 r) = take n (drop 1 r) ++ [c]).
    { apply take_S_r. rewrite lookup_drop. exact Hc. }
    assert (Hdrop : drop (S n) r = c :: drop (S (S n)) r).
    { apply drop_S. exact Hc. }
    cbn [longest]. unfold heading_at at 1. unfold heading_at at 2.
    rewrite Hdrop. rewrite Htake, forallb_app. cbn [forallb].
    destruct (Ascii.eqb c nl) eqn:Ec.
    + rewrite !andb_true_r. apply IH. lia.
    + right. eexists _, _. split; [reflexivity|]. split.
      * apply Forall_takewhile. rewrite <- Hdrop. apply Forall_drop. exact Hr.
      * rewrite andb_false_r. reflexivity.
Qed.

(** What the pattern finds after a [#] that starts a line. *)
Lemma longest_heading (r : pystr) :
  match longest (heading_at r) (length (takewhile isspace r)) with
  | Some f => exists k g, f = {| span := S k; groups := [g] |}
                          /\ heading_title r = Some (strip g)
  | None => heading_title r = None
  end.
Proof.
  pose proof (takewhile_dropwhile isspace r) as Hsplit.
  pose proof (takewhile_holds isspace r) as Hws.
  unfold heading_title.
  destruct (takewhile isspace r) as [|w ws] eqn:Ews; [reflexivity|].
  destruct (dropwhile isspace r) as [|c rest] eqn:Ed.
  - rewrite app_nil_r in Hsplit. subst r. clear Ews Ed.
    cbn [length longest]. unfold heading_at at 1.
    replace (drop (S (length ws)) (w :: ws)) with (@nil ascii)
      by (symmetry; apply (drop_all (w :: ws))).
    destruct (longest_blank (w :: ws) (length ws) Hws) as [[Hnone Hall]|(k & g & Hsome & Hg & Hall)].
    + cbn [length]. lia.
    + change (drop 1 (w :: ws)) with ws in Hall. rewrite firstn_all in Hall.
      rewrite Hnone, Hall. reflexivity.
    + change (drop 1 (w :: ws)) with ws in Hall. rewrite firstn_all in Hall.
      rewrite Hsome, Hall.
      unfold found_of. exists k, g. split; [reflexivity|].
      rewrite (strip_blank g Hg). reflexivity.
  - assert (Hc : isspace c = false).
    { pose proof (dropwhile_head isspace r) as H. rewrite Ed in H. exact H. }
    assert (Hcnl : Ascii.eqb c nl = false).
    { apply Ascii.eqb_neq. intros ->. discriminate. }
    cbn [length longest]. unfold heading_at at 1.
    assert (Hdrop : drop (S (length ws)) r = c :: rest).
    { rewrite <- Hsplit. change (S (length ws)) with (length (w :: ws)).
      apply drop_app_length. }
    rewrite Hdrop, Hcnl. unfold found_of. eexists _, _. split; reflexivity.
Qed.

Lemma pieces_h1_pass (line tail : pystr) (prev : option ascii) :
  one_line line ->
  h1 prev (line ++ tail) = None ->
  exists prev',
    pieces_from h1 0 prev (line ++ tail)
    = map Lit line ++ pieces_from h1 0 prev' tail.
Proof.
  intros Hl Hnone. destruct line as [|c line].
  - exists prev. reflexivity.
  - assert (Hc : c <> nl) by (intros ->; apply Hl; left; reflexivity).
    assert (Hl' : one_line line) by (intros H; apply Hl; right; exact H).
    change ((c :: line) ++ tail) with (c :: (line ++ tail)) in *.
    cbn [pieces_from]. rewrite Hnone.
    rewrite (pieces_h1_inside line tail (Some c) Hl').
    2:{ simpl. apply Ascii.eqb_neq. exact Hc. }
    eexists. reflexivity.
Qed.

Lemma join_nl_tail (l : pystr) (rest : list pystr) :
  join [nl] (l :: rest)
  = l ++ match rest with [] => [] | _ => nl :: join [nl] rest end.
Proof. destruct rest; [symmetry; apply app_nil_r|reflexivity]. Qed.

(** The search of the heading pattern in a text is the search, line by
    line, of the first line that gives a title. *)
Lemma search_h1_lines (lines : list pystr) (prev : option ascii) :
  Forall one_line lines ->
  at_line_start prev = true ->
  match first_match (pieces_from h1 0 prev (join [nl] lines)) with
  | Some (_, g :: _) => Some (strip g)
  | _ => None
  end = first_heading lines.
Proof.
  intros Hlines. revert prev.
  induction Hlines as [|l rest Hl _ IH]; intros prev Hprev; [reflexivity|].
  assert (Hrest : forall p,
             match first_match
                     (pieces_from h1 0 p
                        (match rest with [] => [] | _ => nl :: join [nl] rest end)) with
             | Some (_, g :: _) => Some (strip g)
             | _ => None
             end = first_heading rest).
  { intros p. destruct rest as [|l2 rest]; [reflexivity|].
    cbn [pieces_from]. rewrite h1_unfold. change (Ascii.eqb nl "#") with false.
    cbv iota. cbn [first_match]. apply IH. reflexivity. }
  rewrite first_heading_unfold, join_nl_tail.
  destruct l as [|c r].
  - cbn [app]. destruct rest as [|l2 rest]; [reflexivity|]. apply Hrest.
  - assert (Hr : one_line r) by (intros H; apply Hl; right; exact H).
    assert (Hc : c <> nl) by (intros ->; apply Hl; left; reflexivity).
    destruct (Ascii.eqb c "#") eqn:Ec.
    + apply Ascii.eqb_eq in Ec. subst c.
      rewrite join_nl_tail.
      set (tail := match rest with [] => [] | _ => nl :: join [nl] rest end) in *.
      change (("#" :: r) ++ tail) with ("#" :: (r ++ tail)).
      cbn [pieces_from]. rewrite h1_unfold. change (Ascii.eqb "#" "#") with true.
      cbv iota. rewrite Hprev.
      pose proof (longest_heading (r ++ tail)) as Hlong.
      destruct (longest (heading_at (r ++ tail)) (length (takewhile isspace (r ++ tail))))
        as [f|].
      * destruct Hlong as (k & g & -> & Htitle). rewrite Htitle.
        cbn [first_match]. reflexivity.
      * rewrite Hlong. cbn [first_match].
        rewrite (pieces_h1_inside r tail (Some "#") Hr) by reflexivity.
        rewrite first_match_lits. apply Hrest.
    + set (tail := match rest with [] => [] | _ => nl :: join [nl] rest end) in *.
      destruct (pieces_h1_pass (c :: r) tail prev Hl) as [p Hp].
      { change ((c :: r) ++ tail) with (c :: (r ++ tail)).
        rewrite h1_unfold, Ec. reflexivity. }
      rewrite Hp, first_match_lits. apply Hrest.
Qed.

Lemma search_h1_first_heading (content : pystr) :
  match search h1 content with
  | Some (_, g :: _) => Some (strip g)
  | _ => None
  end = first_heading (split_nl content).
Proof.
  unfold search, pieces. rewrite <- (join_split_nl content) at 1.
  apply search_h1_lines; [apply split_nl_lines|reflexivity].
Qed.

Lemma title_loop_first_markdown (skipped rest : list Cell) (c : Cell) :
  Forall (fun x => markdown x = false) skipped ->
  markdown c = true ->
  title_loop (skipped ++ c :: rest) = first_heading (split_nl (concat (source c))).
Proof.
  intros Hskip Hmd. rewrite (title_loop_skip skipped (c :: rest) Hskip).
  cbn [title_loop]. unfold markdown in Hmd. rewrite Hmd.
  apply search_h1_first_heading.
Qed.

(** C4 (amended).  [_extract_title] never reads the metadata.  Only the
    first markdown cell is searched, and the title is that of its first
    line that begins with [#] and gives a title: white space follows the
    [#], on to the next lines if need be, and then a character that is no
    white space, from which the title runs to the end of its line; or only
    white space follows, not all of it after the first character being
    newlines, and the title is empty.  So a line made of [#], white space
    of that line and a text gives the text, stripped, when no line before
    it starts with [#] followed by white space or by the end of the line.
    When no line gives a title, or the notebook has no markdown cell, the
    title is the stem of the file name with [_] and [-] replaced by spaces,
    title-cased; this is stated for the file names whose title case is a
    text of the model. *)
Theorem C4_title_is_first_heading_then_file_name
    (nb : Notebook) (path : pystr) (st : state) :
  (forall m, fst (_extract_title {| metadata := m; cells := cells nb |} path st)
             = fst (_extract_title nb path st))
  /\ (forall skipped c rest t,
        cells nb = skipped ++ c :: rest ->
        Forall (fun x => markdown x = false) skipped ->
        markdown c = true ->
        first_heading (split_nl (concat (source c))) = Some t ->
        fst (_extract_title nb path st) = t)
  /\ (forall skipped c rest before after ws heading,
        cells nb = skipped ++ c :: rest ->
        Forall (fun x => markdown x = false) skipped ->
        markdown c = true ->
        concat (source c) = join [nl] (before ++ heading_line ws heading :: after) ->
        Forall (fun l => not_heading l = true /\ one_line l) before ->
        ws <> [] -> Forall (fun x => isspace x = true) ws -> one_line ws ->
        (exists b tl, heading = b :: tl /\ isspace b = false) ->
        one_line heading ->
        fst (_extract_title nb path st) = strip heading)
  /\ (forall skipped c rest,
        cells nb = skipped ++ c :: rest ->
        Forall (fun x => markdown x = false) skipped ->
        markdown c = true ->
        first_heading (split_nl (concat (source c))) = None ->
        title_fits (replace ["-"] [" "] (replace ["_"] [" "] (path_stem path))) = true ->
        fst (_extract_title nb path st)
        = title (replace ["-"] [" "] (replace ["_"] [" "] (path_stem path))))
  /\ (Forall (fun x => markdown x = false) (cells nb) ->
      title_fits (replace ["-"] [" "] (replace ["_"] [" "] (path_stem path))) = true ->
      fst (_extract_title nb path st)
      = title (replace ["-"] [" "] (replace ["_"] [" "] (path_stem path)))).
Proof.
  split; [reflexivity|]. split; [|split; [|split]].
  - intros skipped c rest t Hcells Hskip Hmd Hfirst.
    rewrite (extract_title_pure nb path st). cbn [fst].
    rewrite Hcells, (title_loop_first_markdown skipped rest c Hskip Hmd), Hfirst.
    reflexivity.
  - intros skipped c rest before after ws heading Hcells Hskip Hmd Hsrc Hbefore
      Hws Hsp Hwsone Hhead Hone.
    rewrite (extract_title_pure nb path st). cbn [fst].
    rewrite Hcells, (title_loop_skip skipped (c :: rest) Hskip).
    cbn [title_loop]. unfold markdown in Hmd. rewrite Hmd, Hsrc.
    destruct (search_h1_heading before after ws heading Hbefore Hws Hsp Hhead Hone Hwsone)
      as [whole Hfound].
    rewrite Hfound. reflexivity.
  - intros skipped c rest Hcells Hskip Hmd Hfirst _.
    rewrite (extract_title_pure nb path st). cbn [fst].
    rewrite Hcells, (title_loop_first_markdown skipped rest c Hskip Hmd), Hfirst.
    reflexivity.
  - intros Hall _. rewrite (extract_title_pure nb path st). cbn [fst].
    rewrite <- (app_nil_r (cells nb)). rewrite (title_loop_skip _ [] Hall). reflexivity.
Qed.

(** C4 at a notebook with a metadata title, a code cell, then a markdown
    cell whose second line is the heading; at a cell in which the [#]
    stands alone on its line, where the title is the next line; at a cell
    without a heading and at a notebook without a markdown cell, whose
    titles come from the file name. *)
Lemma C4_witness :
  let st := {| self := init; stdout := [] |} in
  let code := {| cell_type := Some "code"%string; source := [str "import pixeltable"];
                 outputs := [] |} in
  let intro := {| cell_type := Some "markdown"%string;
                  source := [str "Welcome" ++ [nl]; str "# First Steps " ++ [nl];
                             str "Hello {world}"];
                  outputs := [] |} in
  let bare := {| cell_type := Some "markdown"%string;
                 source := [str "#" ++ [nl]; str "foo"];
                 outputs := [] |} in
  let plain := {| cell_type := Some "markdown"%string;
                  source := [str "#hashtag" ++ [nl]; str "## Section"];
                  outputs := [] |} in
  let with_heading := {| metadata := <["title"%string := str "A"]> ∅;
                         cells := [code; intro] |} in
  let with_bare := {| metadata := ∅; cells := [code; bare] |} in
  let without := {| metadata := ∅; cells := [code; plain] |} in
  let no_markdown := {| metadata := ∅; cells := [code] |} in
  fst (_extract_title with_heading (str "docs/my_first-notebook.ipynb") st)
  = str "First Steps"
  /\ fst (_extract_title with_bare (str "docs/my_first-notebook.ipynb") st)
     = str "foo"
  /\ fst (_extract_title without (str "docs/my_first-notebook.ipynb") st)
     = str "My First Notebook"
  /\ fst (_extract_title no_markdown (str "docs/my_first-notebook.ipynb") st)
     = str "My First Notebook".
Proof.
  intros st code intro bare plain with_heading with_bare without no_markdown.
  split; [|split; [|split]].
  - apply (proj1 (proj2 (proj2 (C4_title_is_first_heading_then_file_name with_heading
                           (str "docs/my_first-notebook.ipynb") st)))
             [code] intro [] [str "Welcome"] [str "Hello {world}"]
             [" "] (str "First Steps "));
      try reflexivity.
    + repeat constructor.
    + repeat constructor. one_line_tac.
    + discriminate.
    + repeat constructor.
    + one_line_tac.
    + eexists _, _. split; reflexivity.
    + one_line_tac.
  - apply (proj1 (proj2 (C4_title_is_first_heading_then_file_name with_bare
                           (str "docs/my_first-notebook.ipynb") st))
             [code] bare []); try reflexivity.
    repeat constructor.
  - apply (proj1 (proj2 (proj2 (proj2 (C4_title_is_first_heading_then_file_name without
                           (str "docs/my_first-notebook.ipynb") st))))
             [code] plain []); try reflexivity.
    repeat constructor.
  - apply (proj2 (proj2 (proj2 (proj2 (C4_title_is_first_heading_then_file_name no_markdown
                           (str "docs/my_first-notebook.ipynb") st))))); try reflexivity.
    repeat constructor.
Defined.

End TitleFacts.


(* ================================================================== *)
(** * Braces outside code ([clean_mdx.py])                              *)
(* ================================================================== *)

Module BraceFacts.
Import Py Spec PyFacts LineFacts CleanMdx.

Lemma escape_line_cons (i : bool) (c : ascii) (rest : pystr) :
  escape_line i (c :: rest)
  = let i' := if Ascii.eqb c "`" then negb i else i in
    (escape_char i c ++ fst (escape_line i' rest), snd (escape_line i' rest)).
Proof.
  cbn [escape_line]. unfold escape_char, is_brace.
  destruct (Ascii.eqb_spec c "`") as [->|Ht].
  - destruct (escape_line (negb i) rest). destruct i; reflexivity.
  - destruct (Ascii.eqb_spec c "{") as [->|Ho].
    + destruct (escape_line i rest). destruct i; reflexivity.
    + destruct (Ascii.eqb_spec c "}") as [->|Hc];
        destruct (escape_line i rest); destruct i; reflexivity.
Qed.










(** ** Applying the pass twice *)

Lemma rstrip_cons (c : ascii) (s : pystr) :
  isspace c = false -> rstrip (c :: s) = c :: rstrip s.
Proof.
  intros Hc. unfold rstrip. cbn [rev].
  rewrite dropwhile_app by exact Hc. rewrite rev_app_distr. reflexivity.
Qed.

Lemma rstrip_prefix (s : pystr) : exists t, s = rstrip s ++ t.
Proof.
  exists (rev (takewhile isspace (rev s))). unfold rstrip.
  rewrite <- rev_app_distr, takewhile_dropwhile, rev_involutive. reflexivity.
Qed.

Lemma startswith_rstrip (p s : pystr) :
  Forall (fun c => isspace c = false) p ->
  startswith p (rstrip s) = startswith p s.
Proof.
  intros Hp. destruct (startswith p s) eqn:E.
  - apply startswith_prefix in E. destruct E as [r ->].
    clear - Hp. induction Hp as [|c p Hc _ IH]; [reflexivity|].
    cbn [app]. rewrite rstrip_cons by exact Hc. cbn [startswith].
    rewrite Ascii.eqb_refl. exact IH.
  - destruct (startswith p (rstrip s)) eqn:E'; [|reflexivity].
    apply startswith_prefix in E'. destruct E' as [r Hr].
    destruct (rstrip_prefix s) as [t Ht]. rewrite Hr, <- app_assoc in Ht.
    rewrite Ht, startswith_app in E. discriminate.
Qed.

Lemma is_fence_lstrip (l : pystr) :
  is_fence l = startswith (str "```") (lstrip l).
Proof.
  unfold is_fence, strip. apply startswith_rstrip. repeat constructor.
Qed.

Lemma escape_char_head (i : bool) (c : ascii) :
  exists x tl, escape_char i c = x :: tl
               /\ (x = c \/ x = "\"%char)
               /\ (forall y, In y tl -> y = c).
Proof.
  unfold escape_char. destruct (negb i && is_brace c).
  - exists "\"%char, [c]. split; [reflexivity|]. split; [right; reflexivity|].
    intros y [<-|[]]. reflexivity.
  - exists c, []. split; [reflexivity|]. split; [left; reflexivity|]. intros y [].
Qed.

Lemma escape_char_backtick (i : bool) : escape_char i "`" = ["`"%char].
Proof. destruct i; reflexivity. Qed.

Lemma escape_char_space (i : bool) (c : ascii) :
  isspace c = true -> escape_char i c = [c] /\ Ascii.eqb c "`" = false.
Proof.
  intros Hc. unfold escape_char, is_brace.
  destruct (Ascii.eqb_spec c "{") as [->|_]; [discriminate|].
  destruct (Ascii.eqb_spec c "}") as [->|_]; [discriminate|].
  destruct (Ascii.eqb_spec c "`") as [->|_]; [discriminate|].
  rewrite andb_false_r. split; reflexivity.
Qed.

Lemma escape_line_lstrip (i : bool) (l : pystr) :
  lstrip (fst (escape_line i l)) = fst (escape_line i (lstrip l)).
Proof.
  unfold lstrip. induction l as [|c l IH]; [reflexivity|].
  cbn [dropwhile]. destruct (isspace c) eqn:Ec.
  - rewrite escape_line_cons. destruct (escape_char_space i c Ec) as [-> ->].
    cbn [fst app dropwhile]. rewrite Ec. exact IH.
  - rewrite escape_line_cons. cbn [fst].
    destruct (escape_char_head i c) as (x & tl & -> & Hx & _).
    cbn [app dropwhile].
    replace (isspace x) with false; [reflexivity|].
    destruct Hx as [->| ->]; [symmetry; exact Ec|reflexivity].
Qed.

Lemma startswith_backticks_escape (p : pystr) (i : bool) (s : pystr) :
  Forall (fun c => c = "`"%char) p ->
  startswith p (fst (escape_line i s)) = startswith p s.
Proof.
  intros Hp. revert i s. induction Hp as [|c p -> _ IH]; intros i s; [reflexivity|].
  destruct s as [|a s]; [reflexivity|].
  rewrite escape_line_cons. cbn [fst].
  destruct (Ascii.eqb_spec a "`") as [->|Ha].
  - rewrite escape_char_backtick. cbn [app startswith]. rewrite IH. reflexivity.
  - destruct (escape_char_head i a) as (x & tl & -> & Hx & _).
    cbn [app startswith].
    replace (Ascii.eqb "`" x) with false.
    + replace (Ascii.eqb "`" a) with false; [reflexivity|].
      symmetry. apply Ascii.eqb_neq. congruence.
    + symmetry. apply Ascii.eqb_neq. destruct Hx as [->| ->]; congruence.
Qed.

(** A prose line stays a prose line, and a marker a marker. *)
Lemma is_fence_escape (i : bool) (l : pystr) :
  is_fence (fst (escape_line i l)) = is_fence l.
Proof.
  rewrite !is_fence_lstrip, escape_line_lstrip.
  apply startswith_backticks_escape. repeat constructor.
Qed.

Lemma escape_line_one_line (i : bool) (l : pystr) :
  one_line l -> one_line (fst (escape_line i l)).
Proof.
  revert i. induction l as [|c l IH]; intros i Hl; [exact Hl|].
  rewrite escape_line_cons. cbn [fst]. intros Hin.
  apply in_app_or in Hin. destruct Hin as [Hin|Hin].
  - destruct (escape_char_head i c) as (x & tl & Heq & Hx & Htl).
    rewrite Heq in Hin. destruct Hin as [Hin|Hin].
    + destruct Hx as [Hx|Hx]; [apply Hl; left; congruence|].
      rewrite Hx in Hin. discriminate.
    + apply Htl in Hin. apply Hl. left. congruence.
  - revert Hin. apply IH. intros H. apply Hl. right. exact H.
Qed.

Lemma escape_lines_one_line (b i : bool) (ls : list pystr) :
  Forall one_line ls -> Forall one_line (escape_lines b i ls).
Proof.
  intros H. revert b i. induction H as [|l ls Hl _ IH]; intros b i; [constructor|].
  cbn [escape_lines]. destruct (is_fence l); [constructor; [exact Hl|apply IH]|].
  destruct b; [constructor; [exact Hl|apply IH]|].
  pose proof (escape_line_one_line i l Hl) as H1.
  destruct (escape_line i l) as [new_line st]. constructor; [exact H1|apply IH].
Qed.

Lemma escape_lines_not_nil (b i : bool) (ls : list pystr) :
  ls <> [] -> escape_lines b i ls <> [].
Proof.
  destruct ls as [|l ls]; [contradiction|]. intros _. cbn [escape_lines].
  destruct (is_fence l); [discriminate|]. destruct b; [discriminate|].
  destruct (escape_line i l). discriminate.
Qed.

(** A line the loop would change once more was changed the first time:
    when the second pass leaves the escaped line alone, so did the first. *)
Lemma escape_line_fixed (i : bool) (l : pystr) :
  fst (escape_line i (fst (escape_line i l))) = fst (escape_line i l) ->
  fst (escape_line i l) = l.
Proof.
  revert i. induction l as [|c l IH]; intros i; [reflexivity|].
  rewrite escape_line_cons. cbn [fst].
  set (i' := if Ascii.eqb c "`" then negb i else i).
  destruct (negb i && is_brace c) eqn:E.
  - (* the brace got its backslash: a second pass adds another one *)
    assert (Hec : escape_char i c = ["\"%char; c]) by (unfold escape_char; rewrite E; reflexivity).
    rewrite Hec. cbn [app]. rewrite escape_line_cons. cbn [fst].
    replace (escape_char i "\") with ["\"%char] by (destruct i; reflexivity).
    cbn [app]. change (if Ascii.eqb "\" "`" then negb i else i) with i.
    rewrite escape_line_cons. cbn [fst]. rewrite Hec. cbn [app].
    intros H. exfalso.
    apply (f_equal (fun s => s !! 1)) in H. cbn in H. injection H as H.
    apply andb_true_iff in E. destruct E as [_ Hc]. rewrite <- H in Hc. discriminate.
  - assert (Hec : escape_char i c = [c]) by (unfold escape_char; rewrite E; reflexivity).
    rewrite Hec. cbn [app]. rewrite escape_line_cons. cbn [fst]. rewrite Hec.
    cbn [app]. fold i'. intros H. f_equal. apply IH.
    apply (f_equal (drop 1)) in H. exact H.
Qed.

Lemma escape_lines_fixed (b i : bool) (ls : list pystr) :
  escape_lines b i (escape_lines b i ls) = escape_lines b i ls ->
  escape_lines b i ls = ls.
Proof.
  revert b i. induction ls as [|l ls IH]; intros b i; [reflexivity|].
  cbn [escape_lines]. destruct (is_fence l) eqn:Ef.
  - cbn [escape_lines]. rewrite Ef. intros H. injection H as H. f_equal. apply IH, H.
  - destruct b.
    + cbn [escape_lines]. rewrite Ef. intros H. injection H as H. f_equal. apply IH, H.
    + pose proof (is_fence_escape i l) as Hf. rewrite Ef in Hf.
      pose proof (escape_line_fixed i l) as Hfix.
      destruct (escape_line i l) as [new_line st] eqn:El. cbn [fst] in Hf, Hfix.
      cbn [escape_lines]. rewrite Hf.
      destruct (escape_line i new_line) as [again st2] eqn:El2. cbn [fst] in Hfix.
      intros H. injection H as H1 H2. specialize (Hfix H1). subst new_line.
      rewrite El in El2. injection El2 as _ <-.
      f_equal. apply IH, H2.
Qed.

Lemma escape_twice_lines (text : pystr) :
  escape_braces_outside_code (escape_braces_outside_code text)
  = join [nl] (escape_lines false false (escape_lines false false (split_nl text))).
Proof.
  unfold escape_braces_outside_code at 1. f_equal. f_equal.
  unfold escape_braces_outside_code. apply split_join_nl.
  - apply escape_lines_not_nil, split_nl_not_nil.
  - apply escape_lines_one_line, split_nl_lines.
Qed.

(** The text is the same after the pass exactly when no line changed. *)
Lemma escape_unchanged_lines (text : pystr) :
  escape_braces_outside_code text = text
  <-> escape_lines false false (split_nl text) = split_nl text.
Proof.
  unfold escape_braces_outside_code. split.
  - intros H. rewrite <- H at 2. symmetry. apply split_join_nl.
    + apply escape_lines_not_nil, split_nl_not_nil.
    + apply escape_lines_one_line, split_nl_lines.
  - intros ->. apply join_split_nl.
Qed.

End BraceFacts.


(* ================================================================== *)
(** * The brace step of [fix_mdx.py]                                    *)
(* ================================================================== *)

Module FixMdxBraceFacts.
Import Py Re Tags Spec PyFacts ReFacts.

Lemma sub_open_brace (prev : option ascii) (s : pystr) :
  concat (map open_render (pieces_from FixMdx.open_brace 0 prev s)) = open_escaped prev s.
Proof.
  revert prev. induction s as [|c s IH]; intros prev; [reflexivity|].
  cbn [open_escaped]. destruct (Ascii.eqb_spec c "{") as [->|Hne].
  - cbn [andb].
    destruct (prev_is (Ascii.eqb "`") prev || next_is (Ascii.eqb "{") s) eqn:E.
    + rewrite pieces_lit by (unfold FixMdx.open_brace; rewrite E; reflexivity).
      apply orb_true_iff in E.
      replace (negb (prev_is (Ascii.eqb "`") prev) && negb (next_is (Ascii.eqb "{") s))
        with false
        by (destruct E as [-> | ->]; [reflexivity|symmetry; apply andb_false_r]).
      cbn [map concat open_render]. rewrite IH. reflexivity.
    + cbn [pieces_from]. unfold FixMdx.open_brace at 1. rewrite E.
      apply orb_false_iff in E. destruct E as [-> ->].
      cbn [found_of map concat open_render negb andb]. rewrite IH. reflexivity.
  - rewrite pieces_lit.
    + cbn [map concat open_render andb]. rewrite IH. reflexivity.
    + unfold FixMdx.open_brace. destruct c as [[] [] [] [] [] [] [] []]; try reflexivity.
      exfalso. apply Hne. reflexivity.
Qed.

Lemma next_close_open_escaped (prev : option ascii) (s : pystr) :
  next_is (Ascii.eqb "}") (open_escaped prev s) = next_is (Ascii.eqb "}") s.
Proof.
  destruct s as [|c s]; [reflexivity|]. cbn [open_escaped].
  destruct (Ascii.eqb_spec c "{") as [->|Hne]; [|reflexivity].
  cbn [andb].
  destruct (negb (prev_is (Ascii.eqb "`") prev) && negb (next_is (Ascii.eqb "{") s));
    reflexivity.
Qed.

Lemma sub_close_lits (prev : option ascii) (u t : pystr) :
  ~ In "}" u ->
  concat (map close_render (pieces_from FixMdx.close_brace 0 prev (u ++ t)))
  = u ++ concat (map close_render (pieces_from FixMdx.close_brace 0 (last_of u prev) t)).
Proof.
  revert prev. induction u as [|c u IH]; intros prev Hu; [reflexivity|].
  cbn [app]. rewrite pieces_lit.
  - cbn [map concat close_render]. rewrite IH, last_of_cons; [reflexivity|].
    intros H. apply Hu. right. exact H.
  - unfold FixMdx.close_brace. destruct c as [[] [] [] [] [] [] [] []]; try reflexivity.
    exfalso. apply Hu. left. reflexivity.
Qed.

Lemma escape_braces_from (prev : option ascii) (s : pystr) :
  concat (map close_render (pieces_from FixMdx.close_brace 0 prev (open_escaped prev s)))
  = braces_spec prev s.
Proof.
  revert prev. induction s as [|c s IH]; intros prev; [reflexivity|].
  cbn [open_escaped braces_spec]. unfold brace_char.
  destruct (Ascii.eqb_spec c "{") as [->|Ho].
  - cbn [andb].
    destruct (negb (prev_is (Ascii.eqb "`") prev) && negb (next_is (Ascii.eqb "{") s)).
    + rewrite (sub_close_lits prev ["\"; "{"])
        by (intros H; repeat (destruct H as [H|H]; [discriminate|]); exact H).
      change (last_of ["\"; "{"] prev) with (Some "{"). rewrite IH. reflexivity.
    + replace (Ascii.eqb "{" "}") with false by reflexivity. cbn [andb].
      rewrite (sub_close_lits prev ["{"])
        by (intros H; repeat (destruct H as [H|H]; [discriminate|]); exact H).
      change (last_of ["{"] prev) with (Some "{"). rewrite IH. reflexivity.
  - cbn [andb app]. destruct (Ascii.eqb_spec c "}") as [->|Hc].
    + cbn [andb]. rewrite <- (next_close_open_escaped (Some "}") s).
      destruct (prev_is (Ascii.eqb "`") prev || prev_is (Ascii.eqb "{") prev
                || next_is (Ascii.eqb "}") (open_escaped (Some "}") s)) eqn:E.
      * rewrite pieces_lit by (unfold FixMdx.close_brace; rewrite E; reflexivity).
        replace (negb (prev_is (Ascii.eqb "`") prev || prev_is (Ascii.eqb "{") prev)
                 && negb (next_is (Ascii.eqb "}") (open_escaped (Some "}") s)))
          with false.
        2:{ symmetry. apply orb_true_iff in E. destruct E as [-> | ->];
              [reflexivity|apply andb_false_r]. }
        cbn [map concat close_render]. rewrite IH. reflexivity.
      * cbn [pieces_from]. unfold FixMdx.close_brace at 1. rewrite E.
        apply orb_false_iff in E. destruct E as [-> ->].
        cbn [found_of map concat close_render negb andb]. rewrite IH. reflexivity.
    + rewrite pieces_lit.
      * cbn [map concat close_render]. rewrite IH. reflexivity.
      * unfold FixMdx.close_brace. destruct c as [[] [] [] [] [] [] [] []]; try reflexivity.
        exfalso. apply Hc. reflexivity.
Qed.

(** The two substitutions together are the character-wise rule. *)
Lemma escape_braces_spec (content : pystr) :
  FixMdx.escape_braces content = braces_spec None content.
Proof.
  unfold FixMdx.escape_braces, sub, pieces.
  change (fun p : piece => match p with Lit c => [c] | Match _ _ => str "\{" end)
    with open_render.
  change (fun p : piece => match p with Lit c => [c] | Match _ _ => str "\}" end)
    with close_render.
  rewrite (sub_open_brace None content). apply escape_braces_from.
Qed.

Lemma brace_char_cases (prev : option ascii) (c : ascii) (rest : pystr) :
  brace_char prev c rest = [c]
  \/ (brace_char prev c rest = ["\"%char; c] /\ c = "{"%char
      /\ prev_is (Ascii.eqb "`") prev = false
      /\ next_is (Ascii.eqb "{") rest = false)
  \/ (brace_char prev c rest = ["\"%char; c] /\ c = "}"%char
      /\ prev_is (Ascii.eqb "`") prev = false
      /\ next_is (Ascii.eqb "}") rest = false).
Proof.
  unfold brace_char.
  destruct (Ascii.eqb_spec c "{") as [->|Ho].
  - cbn [andb]. destruct (prev_is (Ascii.eqb "`") prev); cbn [negb andb].
    + left. reflexivity.
    + destruct (next_is (Ascii.eqb "{") rest); cbn [negb].
      * left. reflexivity.
      * right. left. repeat split.
  - cbn [andb]. destruct (Ascii.eqb_spec c "}") as [->|Hc]; [|left; reflexivity].
    cbn [andb]. destruct (prev_is (Ascii.eqb "`") prev); cbn [orb negb andb].
    + left. reflexivity.
    + destruct (prev_is (Ascii.eqb "{") prev); cbn [negb andb]; [left; reflexivity|].
      destruct (next_is (Ascii.eqb "}") rest); cbn [negb].
      * left. reflexivity.
      * right. right. repeat split.
Qed.

Lemma next_is_braces_spec (x : ascii) (prev : option ascii) (rest : pystr) :
  x <> "\"%char ->
  next_is (Ascii.eqb x) rest = false ->
  next_is (Ascii.eqb x) (braces_spec prev rest) = false.
Proof.
  intros Hx Hn. destruct rest as [|d rest]; [reflexivity|].
  cbn [braces_spec].
  destruct (brace_char_cases prev d rest) as [-> | [(-> & _) | (-> & _)]].
  - exact Hn.
  - cbn [app next_is]. apply Ascii.eqb_neq. exact Hx.
  - cbn [app next_is]. apply Ascii.eqb_neq. exact Hx.
Qed.

Lemma brace_char_backslash (prev : option ascii) (rest : pystr) :
  brace_char prev "\" rest = ["\"%char].
Proof. reflexivity. Qed.

(** When the second pass leaves the output alone, the first left the text
    alone: a brace that got a backslash gets another one. *)
Lemma braces_spec_fixed (prev : option ascii) (s : pystr) :
  braces_spec prev (braces_spec prev s) = braces_spec prev s ->
  braces_spec prev s = s.
Proof.
  revert prev. induction s as [|c rest IH]; intros prev; [reflexivity|].
  cbn [braces_spec].
  set (R := braces_spec (Some c) rest).
  assert (Hagain : forall c' : ascii,
             c' = c -> c = "{"%char \/ c = "}"%char ->
             next_is (Ascii.eqb c) rest = false ->
             brace_char (Some "\"%char) c R = ["\"%char; c]).
  { intros c' _ Hc Hn.
    assert (HnR : next_is (Ascii.eqb c) R = false).
    { apply next_is_braces_spec; [|exact Hn]. destruct Hc as [-> | ->]; discriminate. }
    unfold brace_char. destruct Hc as [-> | ->]; cbn; rewrite HnR; reflexivity. }
  destruct (brace_char_cases prev c rest) as [Hx | [(Hx & Hc & Hp & Hn) | (Hx & Hc & Hp & Hn)]];
    rewrite Hx.
  - cbn [app braces_spec]. fold R.
    destruct (brace_char_cases prev c R) as [Hy | [(Hy & Hc & _) | (Hy & Hc & _)]];
      rewrite Hy; cbn [app]; intros H.
    + f_equal. apply IH. apply (f_equal (drop 1)) in H. exact H.
    + apply (f_equal (fun l => l !! 0)) in H. cbn in H. injection H as H.
      rewrite Hc in H. discriminate.
    + apply (f_equal (fun l => l !! 0)) in H. cbn in H. injection H as H.
      rewrite Hc in H. discriminate.
  - cbn [app braces_spec]. rewrite brace_char_backslash. fold R.
    rewrite (Hagain c eq_refl (or_introl Hc)) by (rewrite Hc; exact Hn).
    cbn [app]. intros H. apply (f_equal (fun l => l !! 1)) in H. cbn in H.
    injection H as H. rewrite Hc in H. discriminate.
  - cbn [app braces_spec]. rewrite brace_char_backslash. fold R.
    rewrite (Hagain c eq_refl (or_intror Hc)) by (rewrite Hc; exact Hn).
    cbn [app]. intros H. apply (f_equal (fun l => l !! 1)) in H. cbn in H.
    injection H as H. rewrite Hc in H. discriminate.
Qed.

(** C3 (as stated, refuted).  A brace that is already escaped is escaped a
    second time: the pass of [clean_mdx.py] and the brace step of
    [fix_mdx.py] both turn their own output for [f{x}] into a text with two
    backslashes before each brace. *)
Lemma C3_escaped_brace_is_escaped_again :
  let once := ["f"; "\"; "{"; "x"; "\"; "}"]%char in
  let twice := ["f"; "\"; "\"; "{"; "x"; "\"; "\"; "}"]%char in
  CleanMdx.escape_braces_outside_code (str "f{x}") = once
  /\ CleanMdx.escape_braces_outside_code once = twice
  /\ FixMdx.escape_braces (str "f{x}") = once
  /\ FixMdx.escape_braces once = twice
  /\ twice <> once.
Proof. repeat split. discriminate. Qed.

(** C3 (amended).  The brace-escaping pass is not idempotent: it gives a
    brace outside code a backslash whether or not one stands before it
    already.  Applied to its own output, it leaves that output unchanged
    exactly when the first application left the text unchanged; this holds
    for [escape_braces_outside_code] of [clean_mdx.py] and for the brace
    step of [fix_mdx.py]. *)
Theorem C3_second_pass_changes_what_the_first_changed (text : pystr) :
  (CleanMdx.escape_braces_outside_code (CleanMdx.escape_braces_outside_code text)
   = CleanMdx.escape_braces_outside_code text
   <-> CleanMdx.escape_braces_outside_code text = text)
  /\ (FixMdx.escape_braces (FixMdx.escape_braces text) = FixMdx.escape_braces text
      <-> FixMdx.escape_braces text = text).
Proof.
  split; split.
  - intros H. rewrite BraceFacts.escape_twice_lines in H.
    apply BraceFacts.escape_unchanged_lines.
    apply BraceFacts.escape_lines_fixed.
    unfold CleanMdx.escape_braces_outside_code in H.
    apply LineFacts.join_nl_inj in H; [exact H| | | |].
    + apply BraceFacts.escape_lines_not_nil, BraceFacts.escape_lines_not_nil,
        LineFacts.split_nl_not_nil.
    + apply BraceFacts.escape_lines_not_nil, LineFacts.split_nl_not_nil.
    + apply BraceFacts.escape_lines_one_line, BraceFacts.escape_lines_one_line,
        LineFacts.split_nl_lines.
    + apply BraceFacts.escape_lines_one_line, LineFacts.split_nl_lines.
  - intros H. rewrite H. exact H.
  - rewrite !escape_braces_spec. apply braces_spec_fixed.
  - intros H. rewrite H. exact H.
Qed.

End FixMdxBraceFacts.


(* ================================================================== *)
(** * Placeholders and replacement                                      *)
(* ================================================================== *)

Module PlaceholderFacts.
Import Py Re Spec PyFacts ReFacts FixMdxIssues.

(** ** Decimal numerals *)

Lemma string_of_uint_digits (d : Decimal.uint) :
  Forall (fun c => isdigit c = true)
    (list_ascii_of_string (NilEmpty.string_of_uint d)).
Proof. induction d; simpl; constructor; (reflexivity || assumption). Qed.

Lemma str_of_nat_digits (n : nat) :
  Forall (fun c => isdigit c = true) (str_of_nat n).
Proof. apply string_of_uint_digits. Qed.

Lemma str_of_nat_not_nil (n : nat) : str_of_nat n <> [].
Proof.
  unfold str_of_nat. intros H.
  assert (Hn : Nat.to_uint n <> Decimal.Nil).
  { rewrite <- (Unsigned.of_to n) at 1. rewrite Unsigned.to_of. apply unorm_nonnil. }
  destruct (Nat.to_uint n); try discriminate. apply Hn. reflexivity.
Qed.

Lemma str_of_nat_inj (i j : nat) : str_of_nat i = str_of_nat j -> i = j.
Proof.
  unfold str_of_nat. intros H.
  apply (f_equal string_of_list_ascii) in H.
  rewrite !string_of_list_ascii_of_string in H.
  apply Unsigned.to_uint_inj.
  apply (f_equal NilEmpty.uint_of_string) in H.
  rewrite !NilEmpty.usu in H. injection H as H. exact H.
Qed.

(** Two numerals that are each followed by a character that is no digit and
    start the same text are the same numeral. *)
Lemma digits_then_other (a b x y : pystr) (c d : ascii) :
  Forall (fun k => isdigit k = true) a ->
  Forall (fun k => isdigit k = true) b ->
  isdigit c = false -> isdigit d = false ->
  a ++ c :: x = b ++ d :: y -> a = b.
Proof.
  intros Ha. revert b. induction Ha as [|k a Hk _ IH]; intros b Hb Hc Hd H.
  - destruct b as [|k b]; [reflexivity|].
    cbn [app] in H. injection H as -> _. inversion Hb; subst. congruence.
  - destruct b as [|k' b].
    + cbn [app] in H. injection H as -> _. congruence.
    + cbn [app] in H. injection H as -> H. inversion Hb; subst.
      f_equal. eapply IH; eassumption.
Qed.

(** ** [str.replace] *)

Lemma replace_from_skip (old new u rest : pystr) :
  replace_from (length u) old new (u ++ rest) = replace_from 0 old new rest.
Proof. induction u as [|c u IH]; [reflexivity|]. exact IH. Qed.

(** An occurrence at the head is replaced. *)
Lemma replace_match (old new rest : pystr) :
  old <> [] -> replace old new (old ++ rest) = new ++ replace old new rest.
Proof.
  intros Hold. unfold replace. destruct old as [|a old]; [contradiction|].
  cbn [app replace_from]. change (a :: old ++ rest) with ((a :: old) ++ rest).
  rewrite startswith_app.
  replace (length (a :: old) - 1) with (length old) by (cbn [length]; lia).
  rewrite replace_from_skip. reflexivity.
Qed.

(** A stretch in which no occurrence starts is passed over. *)
Lemma replace_pass (old new u rest : pystr) :
  (forall u1 u2, u = u1 ++ u2 -> u2 <> [] -> startswith old (u2 ++ rest) = false) ->
  replace old new (u ++ rest) = u ++ replace old new rest.
Proof.
  unfold replace. induction u as [|c u IH]; intros H; [reflexivity|].
  cbn [app replace_from].
  change (c :: u ++ rest) with ((c :: u) ++ rest).
  rewrite (H [] (c :: u) eq_refl) by discriminate.
  f_equal. apply IH. intros u1 u2 -> Hu2. apply (H (c :: u1) u2); [reflexivity|exact Hu2].
Qed.

Lemma replace_none (old new s : pystr) :
  (forall u1 u2, s = u1 ++ u2 -> u2 <> [] -> startswith old u2 = false) ->
  replace old new s = s.
Proof.
  intros H. rewrite <- (app_nil_r s) at 1. rewrite replace_pass.
  - unfold replace. simpl. apply app_nil_r.
  - intros u1 u2 Hs Hu2. rewrite app_nil_r. apply (H u1 u2 Hs Hu2).
Qed.

(** ** Where a placeholder can be read in the content *)

Lemma marker_free_app (a b : pystr) :
  marker_free (a ++ b) -> marker_free a /\ marker_free b.
Proof.
  intros H. split; intros (u & v & E); apply H.
  - exists u, (v ++ b). rewrite E, <- !app_assoc. reflexivity.
  - exists (a ++ u), v. rewrite E, <- !app_assoc. reflexivity.
Qed.

Lemma placeholder_eq (j : nat) :
  placeholder j = str "__" ++ marker ++ str_of_nat j ++ str "__".
Proof. reflexivity. Qed.

Lemma not_digit_in (c : ascii) (l : pystr) :
  Forall (fun k => isdigit k = true) l -> isdigit c = false ->
  forall x y, l ++ str "__" = x ++ c :: y -> c = "_"%char.
Proof.
  intros Hl Hc. induction Hl as [|k l Hk _ IH]; intros x y H.
  - destruct x as [|a [|b [|e x]]]; cbn in H; try discriminate; congruence.
  - destruct x as [|a x]; cbn in H.
    + injection H as -> _. congruence.
    + injection H as _ H. eapply IH. exact H.
Qed.

(** Inside a placeholder the letter C stands at the start of the marker,
    or before a K. *)
Lemma capital_in_placeholder (j : nat) (x l : pystr) :
  placeholder j = x ++ "C"%char :: l ->
  x = str "__" \/ exists l', l = "K"%char :: l'.
Proof.
  rewrite placeholder_eq. intros H. cbn in H.
  do 13 (destruct x as [|? x];
         [cbn in H; first [discriminate | injection H as H; subst;
                           first [left; reflexivity | right; eexists; reflexivity]]
         |cbn in H; injection H as ? H; subst]).
  exfalso.
  pose proof (not_digit_in "C" (str_of_nat j) (str_of_nat_digits j) eq_refl x l H).
  discriminate.
Qed.

(** The marker followed by a digit does not run into a placeholder. *)
Lemma marker_not_across (d : ascii) (x l : pystr) :
  isdigit d = true ->
  marker ++ [d] = x ++ "_"%char :: "_"%char :: l -> False.
Proof.
  intros Hd H. cbn in H.
  do 12 (destruct x as [|? x]; cbn in H;
         [first [discriminate | injection H as H; subst; discriminate]
         |injection H as ? H; subst]).
  destruct x; discriminate.
Qed.

Lemma flat_cons (i : nat) (it : item) (its : list item) :
  flat i (it :: its) = shown i it ++ flat i its.
Proof. reflexivity. Qed.

Lemma full_cons (it : item) (its : list item) :
  full (it :: its) = full_item it ++ full its.
Proof. reflexivity. Qed.

(** Where the marker is followed by a digit, a placeholder that is not yet
    restored starts two characters before. *)
Lemma marker_occurrence (i : nat) (its : list item) (pre u v : pystr) (d : ascii) :
  marker_free (pre ++ full its) ->
  isdigit d = true ->
  pre ++ flat i its = u ++ marker ++ d :: v ->
  exists its1 j b its2,
    its = its1 ++ Block j b :: its2
    /\ Nat.ltb j i = false
    /\ u = pre ++ flat i its1 ++ str "__".
Proof.
  revert pre u v. induction its as [|it its IH]; intros pre u v Hfree Hd H.
  - exfalso. apply Hfree. exists u, (d :: v).
    unfold full, flat in *. cbn in *. rewrite H. reflexivity.
  - assert (Hshift : forall t, shown i it = t -> full_item it = t ->
               exists its1 j b its2,
                 it :: its = its1 ++ Block j b :: its2
                 /\ Nat.ltb j i = false
                 /\ u = pre ++ flat i its1 ++ str "__").
    { intros t Hs Hf. rewrite flat_cons, Hs, app_assoc in H.
      rewrite full_cons, Hf, app_assoc in Hfree.
      destruct (IH (pre ++ t) u v Hfree Hd H) as (its1 & j & b & its2 & -> & Hj & ->).
      exists (it :: its1), j, b, its2. split; [reflexivity|]. split; [exact Hj|].
      rewrite flat_cons, Hs, <- !app_assoc. reflexivity. }
    destruct it as [t|j b]; [apply (Hshift t); reflexivity|].
    destruct (Nat.ltb j i) eqn:Ej.
    { apply (Hshift b); [cbn [shown]; rewrite Ej|]; reflexivity. }
    clear Hshift. rewrite flat_cons in H. cbn [shown] in H. rewrite Ej in H.
    rewrite full_cons in Hfree. cbn [full_item] in Hfree.
    apply marker_free_app in Hfree. destruct Hfree as [Hpre Hrest].
    apply marker_free_app in Hrest. destruct Hrest as [_ Hrest].
    apply app_eq_app in H. destruct H as [l [[Hu Hl] | [Hu Hl]]].
    + (* the occurrence starts in [pre] *)
      exfalso.
      assert (Hl' : l ++ (placeholder j ++ flat i its) = (marker ++ [d]) ++ v)
        by (rewrite <- Hl, <- app_assoc; reflexivity).
      apply app_eq_app in Hl'. destruct Hl' as [l2 [[H1 H2] | [H1 H2]]].
      * apply Hpre. exists u, (d :: l2). rewrite Hu, H1.
        rewrite <- ?app_assoc. reflexivity.
      * destruct l2 as [|a l2].
        { rewrite app_nil_r in H1. apply Hpre. exists u, [d].
          rewrite Hu, <- H1. rewrite <- ?app_assoc. reflexivity. }
        destruct l2 as [|a2 l2].
        { rewrite placeholder_eq in H2. cbn in H2. injection H2 as <- _.
          assert (d = "_"%char).
          { apply (f_equal (@rev ascii)) in H1. rewrite !rev_app_distr in H1.
            cbn in H1. injection H1 as H1 _. exact H1. }
          subst d. discriminate. }
        rewrite placeholder_eq in H2. cbn in H2. injection H2 as <- <- _.
        exact (marker_not_across d l l2 Hd H1).
    + (* the occurrence starts in the placeholder or after it *)
      apply app_eq_app in Hl. destruct Hl as [l2 [[H1 H2] | [H1 H2]]].
      * (* in it *)
        destruct l2 as [|a l2].
        { cbn [app] in H2.
          destruct (IH [] [] v Hrest Hd (eq_sym H2))
            as (its1 & j' & b' & its2 & -> & Hj & Hnil).
          exfalso. cbn [app] in Hnil. destruct (flat i its1); discriminate. }
        cbn in H2. injection H2 as <- H2.
        destruct (capital_in_placeholder j l l2 H1) as [-> | [l' ->]].
        -- exists [], j, b, its. split; [reflexivity|]. split; [exact Ej|].
           rewrite Hu. reflexivity.
        -- exfalso. cbn in H2. discriminate.
      * (* after it *)
        destruct (IH [] l2 v Hrest Hd H2) as (its1 & j' & b' & its2 & -> & Hj & ->).
        exists (Block j b :: its1), j', b', its2.
        split; [reflexivity|]. split; [exact Hj|].
        rewrite Hu, H1, flat_cons. cbn [shown]. rewrite Ej, <- !app_assoc. reflexivity.
Qed.

Lemma placeholder_not_nil (i : nat) : placeholder i <> [].
Proof. rewrite placeholder_eq. discriminate. Qed.

(** A placeholder read where another one stands is that one. *)
Lemma placeholder_prefix (i j : nat) (x y : pystr) :
  placeholder j ++ x = placeholder i ++ y -> i = j.
Proof.
  rewrite !placeholder_eq, <- !app_assoc. intros H.
  do 2 apply app_inv_head in H.
  apply str_of_nat_inj. symmetry.
  apply (digits_then_other _ _ (str "_" ++ x) (str "_" ++ y) "_" "_"
           (str_of_nat_digits j) (str_of_nat_digits i) eq_refl eq_refl).
  exact H.
Qed.

(** The placeholder of [i] is read only where the block [i] stands. *)
Lemma placeholder_occurrence (i : nat) (its : list item) (pre u v : pystr) :
  marker_free (pre ++ full its) ->
  pre ++ flat i its = u ++ placeholder i ++ v ->
  exists its1 b its2, its = its1 ++ Block i b :: its2 /\ u = pre ++ flat i its1.
Proof.
  intros Hfree H.
  pose proof (str_of_nat_digits i) as Hdig.
  pose proof (str_of_nat_not_nil i) as Hne.
  assert (H' := H). rewrite placeholder_eq in H.
  destruct (str_of_nat i) as [|d ds] eqn:Edec; [contradiction|].
  inversion Hdig as [|? ? Hd _]; subst.
  assert (Hocc : pre ++ flat i its
                 = (u ++ str "__") ++ marker ++ d :: (ds ++ str "__" ++ v)).
  { rewrite H, <- !app_assoc. reflexivity. }
  destruct (marker_occurrence i its pre _ _ d Hfree Hd Hocc)
    as (its1 & j & b & its2 & -> & Hj & Hu).
  rewrite app_assoc in Hu. apply app_inv_tail in Hu. subst u.
  unfold flat in H'. rewrite map_app, concat_app in H'. cbn [map concat shown] in H'.
  rewrite Hj in H'. fold (flat i its1) in H'. fold (flat i its2) in H'.
  rewrite <- !app_assoc in H'. do 2 apply app_inv_head in H'.
  apply placeholder_prefix in H'. subst j.
  exists its1, b, its2. split; reflexivity.
Qed.

Lemma flat_app (i : nat) (xs ys : list item) :
  flat i (xs ++ ys) = flat i xs ++ flat i ys.
Proof. unfold flat. rewrite map_app, concat_app. reflexivity. Qed.

(** One round of the restoring loop: the placeholder of [i] becomes the
    block, and nothing else changes. *)
Lemma restore_step (i : nat) (new : pystr) (its : list item) (pre : pystr) :
  marker_free (pre ++ full its) ->
  (forall b, In (Block i b) its -> b = new) ->
  replace (placeholder i) new (pre ++ flat i its) = pre ++ flat (S i) its.
Proof.
  revert pre. induction its as [|it its IH]; intros pre Hfree Hnew.
  - unfold flat. cbn [map concat]. rewrite app_nil_r. apply replace_none.
    intros u1 u2 Hpre Hu2 . destruct (startswith (placeholder i) u2) eqn:E; [|reflexivity].
    apply startswith_prefix in E. destruct E as [r ->].
    destruct (placeholder_occurrence i [] pre u1 r Hfree) as (its1 & b & its2 & Hx & _).
    + unfold flat. cbn [map concat]. rewrite app_nil_r. exact Hpre.
    + destruct its1; discriminate.
  - assert (Hshift : forall t, shown i it = t -> shown (S i) it = t -> full_item it = t ->
               replace (placeholder i) new (pre ++ flat i (it :: its))
               = pre ++ flat (S i) (it :: its)).
    { intros t H1 H2 H3. rewrite !flat_cons, H1, H2, !app_assoc. apply IH.
      - rewrite <- app_assoc, <- H3. exact Hfree.
      - intros b Hb. apply Hnew. right. exact Hb. }
    destruct it as [t|j b]; [apply (Hshift t); reflexivity|].
    destruct (lt_eq_lt_dec j i) as [[Hlt|Heq]|Hgt].
    + apply (Hshift b); cbn [shown full_item]; [| |reflexivity].
      * replace (Nat.ltb j i) with true by (symmetry; apply Nat.ltb_lt; lia). reflexivity.
      * replace (Nat.ltb j (S i)) with true by (symmetry; apply Nat.ltb_lt; lia).
        reflexivity.
    + subst j. clear Hshift. rewrite !flat_cons. cbn [shown].
      rewrite Nat.ltb_irrefl.
      replace (Nat.ltb i (S i)) with true by (symmetry; apply Nat.ltb_lt; lia).
      rewrite replace_pass.
      * rewrite replace_match by apply placeholder_not_nil.
        rewrite (Hnew b (or_introl eq_refl)).
        f_equal. f_equal. apply (IH []).
        -- rewrite full_cons in Hfree. apply marker_free_app in Hfree.
           destruct Hfree as [_ Hfree]. apply marker_free_app in Hfree. apply Hfree.
        -- intros b' Hb'. apply Hnew. right. exact Hb'.
      * intros u1 u2 Hpre Hu2.
        destruct (startswith (placeholder i) (u2 ++ placeholder i ++ flat i its)) eqn:E;
          [|reflexivity].
        exfalso. apply startswith_prefix in E. destruct E as [r Hr].
        destruct (placeholder_occurrence i (Block i b :: its) pre u1 r Hfree)
          as (its1 & b' & its2 & _ & Hu1).
        -- rewrite flat_cons. cbn [shown]. rewrite Nat.ltb_irrefl.
           rewrite Hpre, <- app_assoc, Hr. reflexivity.
        -- apply (f_equal (@length ascii)) in Hu1.
           rewrite Hpre, !length_app in Hu1.
           destruct u2; [contradiction|]. cbn [length] in Hu1. lia.
    + clear Hshift. rewrite !flat_cons. cbn [shown].
      replace (Nat.ltb j i) with false by (symmetry; apply Nat.ltb_ge; lia).
      replace (Nat.ltb j (S i)) with false by (symmetry; apply Nat.ltb_ge; lia).
      rewrite !app_assoc. rewrite replace_pass.
      * f_equal. apply (IH []).
        -- rewrite full_cons in Hfree. apply marker_free_app in Hfree.
           destruct Hfree as [_ Hfree]. apply marker_free_app in Hfree. apply Hfree.
        -- intros b' Hb'. apply Hnew. right. exact Hb'.
      * intros u1 u2 Hpre Hu2.
        destruct (startswith (placeholder i) (u2 ++ flat i its)) eqn:E; [|reflexivity].
        exfalso. apply startswith_prefix in E. destruct E as [r Hr].
        destruct (placeholder_occurrence i (Block j b :: its) pre u1 r Hfree)
          as (its1 & b' & its2 & Hits & Hu1).
        -- rewrite flat_cons. cbn [shown].
           replace (Nat.ltb j i) with false by (symmetry; apply Nat.ltb_ge; lia).
           rewrite app_assoc, Hpre, <- app_assoc, Hr. reflexivity.
        -- destruct its1 as [|it1 its1].
           ++ cbn [app] in Hits. injection Hits as Hj _. lia.
           ++ cbn [app] in Hits. injection Hits as <- _.
              rewrite flat_cons in Hu1. cbn [shown] in Hu1.
              replace (Nat.ltb j i) with false in Hu1 by (symmetry; apply Nat.ltb_ge; lia).
              apply (f_equal (@length ascii)) in Hu1.
              apply (f_equal (@length ascii)) in Hpre.
              rewrite !length_app in Hu1, Hpre.
              destruct u2; [contradiction|]. cbn [length] in Hpre. lia.
Qed.

Lemma tabled_lt (code_blocks : list pystr) (its : list item) (j : nat) (b : pystr) :
  tabled code_blocks its -> In (Block j b) its -> j < length code_blocks.
Proof. intros Ht Hin. apply (lookup_lt_Some code_blocks j b). apply Ht. exact Hin. Qed.

(** When every block is restored the content is the text. *)
Lemma flat_all (code_blocks : list pystr) (its : list item) :
  tabled code_blocks its -> flat (length code_blocks) its = full its.
Proof.
  induction its as [|it its IH]; intros Ht; [reflexivity|].
  rewrite flat_cons, full_cons, IH.
  - f_equal. destruct it as [t|j b]; [reflexivity|]. cbn [shown full_item].
    replace (Nat.ltb j (length code_blocks)) with true; [reflexivity|].
    symmetry. apply Nat.ltb_lt. apply (tabled_lt _ _ _ b Ht). left. reflexivity.
  - intros j b Hin. apply Ht. right. exact Hin.
Qed.

(** The restoring loop from the index [i] on. *)
Lemma restore_from_items (rest front : list pystr) (its : list item) :
  marker_free (full its) ->
  tabled (front ++ rest) its ->
  restore_from (length front) rest (flat (length front) its)
  = flat (length (front ++ rest)) its.
Proof.
  revert front. induction rest as [|b rest IH]; intros front Hfree Ht.
  - rewrite app_nil_r. reflexivity.
  - cbn [restore_from].
    assert (Hstep : replace (placeholder (length front)) b (flat (length front) its)
                    = flat (S (length front)) its).
    { apply (restore_step (length front) b its [] Hfree).
      intros b' Hin. apply Ht in Hin. rewrite list_lookup_middle in Hin by reflexivity.
      injection Hin as ->. reflexivity. }
    rewrite Hstep. specialize (IH (front ++ [b])).
    rewrite <- app_assoc in IH. cbn [app] in IH.
    rewrite length_app in IH. cbn [length] in IH. rewrite Nat.add_1_r in IH.
    apply IH; assumption.
Qed.

(** Restoring the saved blocks in a content that shows every block as its
    placeholder gives the text the items stand for. *)
Lemma restore_items (code_blocks : list pystr) (its : list item) :
  marker_free (full its) ->
  tabled code_blocks its ->
  restore code_blocks (flat 0 its) = full its.
Proof.
  intros Hfree Ht. unfold restore.
  etransitivity; [exact (restore_from_items code_blocks [] its Hfree Ht)|].
  apply flat_all. exact Ht.
Qed.

End PlaceholderFacts.

(** * The two protecting substitutions and the restoring loop
    ([fix_mdx_issues.py], lines 20-41) *)

Module RoundTripFacts.
Import Py Re Spec PyFacts ReFacts FixMdxIssues PlaceholderFacts.

(** The pieces of a subject are the subject. *)
Lemma pieces_raw (m : matcher) (s : pystr) (k : nat) (prev : option ascii) :
  concat (map raw (pieces_from m k prev s)) = drop k s.
Proof.
  revert k prev. induction s as [|c r IH]; intros k prev.
  - destruct k; reflexivity.
  - cbn [pieces_from]. destruct k as [|k]; [|apply IH].
    destruct (m prev (c :: r)) as [[[|n] gs]|].
    + cbn [map concat raw]. rewrite IH. reflexivity.
    + cbn [map concat raw]. rewrite IH. cbn [take drop app].
      rewrite take_drop. reflexivity.
    + cbn [map concat raw]. rewrite IH. reflexivity.
Qed.

(** What the saving substitution returns and what it has saved. *)
Lemma save_pieces_items (ps : list piece) (code_blocks : list pystr) :
  save_pieces ps code_blocks
  = (flat 0 (items_of (length code_blocks) ps), code_blocks ++ matches ps).
Proof.
  revert code_blocks. induction ps as [|[c|m gs] ps IH]; intros code_blocks.
  - cbn. rewrite app_nil_r. reflexivity.
  - cbn [save_pieces items_of matches]. rewrite IH. reflexivity.
  - cbn [save_pieces items_of matches]. rewrite IH.
    rewrite length_app. cbn [length]. rewrite flat_cons. cbn [shown].
    replace (length code_blocks + 1 - 1) with (length code_blocks) by lia.
    replace (length code_blocks + 1) with (S (length code_blocks)) by lia.
    rewrite <- app_assoc. reflexivity.
Qed.

Lemma full_items_of (base : nat) (ps : list piece) :
  full (items_of base ps) = concat (map raw ps).
Proof.
  revert base. induction ps as [|[c|m gs] ps IH]; intros base.
  - reflexivity.
  - cbn [items_of]. rewrite full_cons, IH. reflexivity.
  - cbn [items_of]. rewrite full_cons, IH. reflexivity.
Qed.

Lemma single_items_of (base : nat) (ps : list piece) :
  Forall single (items_of base ps).
Proof.
  revert base. induction ps as [|[c|m gs] ps IH]; intros base; cbn [items_of].
  - constructor.
  - constructor; [exists c; reflexivity|apply IH].
  - constructor; [exact I|apply IH].
Qed.

(** The blocks of a substitution are saved from [base] on, in order. *)
Lemma blocks_items_of (base : nat) (ps : list piece) (j : nat) (b : pystr) :
  In (Block j b) (items_of base ps) ->
  base <= j /\ matches ps !! (j - base) = Some b.
Proof.
  revert base. induction ps as [|[c|m gs] ps IH]; intros base Hin; cbn [items_of] in Hin.
  - destruct Hin.
  - destruct Hin as [Hin|Hin]; [discriminate|]. apply IH. exact Hin.
  - destruct Hin as [Hin|Hin].
    + injection Hin as <- <-. split; [lia|]. rewrite Nat.sub_diag. reflexivity.
    + apply IH in Hin. destruct Hin as [Hle Hlook]. split; [lia|].
      cbn [matches]. replace (j - base) with (S (j - S base)) by lia. exact Hlook.
Qed.

Lemma items_of_blocks (base : nat) (ps : list piece) (k : nat) (b : pystr) :
  matches ps !! k = Some b -> In (Block (base + k) b) (items_of base ps).
Proof.
  revert base k. induction ps as [|[c|m gs] ps IH]; intros base k Hk.
  - discriminate.
  - cbn [items_of matches] in *. right. apply IH. exact Hk.
  - cbn [items_of matches] in *. destruct k as [|k].
    + injection Hk as <-. left. rewrite Nat.add_0_r. reflexivity.
    + right. replace (base + S k) with (S base + k) by lia. apply IH. exact Hk.
Qed.

(** A span of inline code found by the pattern. *)
Lemma inline_ticked (prev : option ascii) (s : pystr) (n : nat) (gs : list pystr) :
  inline prev s = Some {| span := n; groups := gs |} -> ticked (take n s).
Proof.
  unfold inline. destruct s as [|c r]; [discriminate|].
  destruct (Ascii.eqb_spec c "`") as [->|Hc].
  2:{ intros H. exfalso. revert H.
      destruct c as [[] [] [] [] [] [] [] []]; try discriminate; congruence. }
  pose proof (takewhile_dropwhile (neqb "`") r) as Hr.
  pose proof (dropwhile_head (neqb "`") r) as Hd.
  pose proof (drop_takewhile (neqb "`") r) as Hdrop.
  cbv beta iota.
  destruct (takewhile (neqb "`") r) as [|b body] eqn:Eb; [discriminate|].
  rewrite Hdrop.
  destruct (dropwhile (neqb "`") r) as [|d rest] eqn:Ed; [discriminate|].
  unfold found_of. intros H. injection H as <-.
  exists (b :: body).
  assert (d = "`") as ->.
  { clear - Hd. unfold neqb in Hd.
    destruct (Ascii.eqb_spec d "`"); [assumption|discriminate]. }
  assert (Hn : S (length body + 2) = S (length ((b :: body) ++ ["`"]))).
  { rewrite length_app. cbn [length]. lia. }
  rewrite Hn, <- Hr.
  replace ((b :: body) ++ "`" :: rest) with (((b :: body) ++ ["`"]) ++ rest)
    by (rewrite <- app_assoc; reflexivity).
  rewrite firstn_cons. f_equal. apply take_app_length.
Qed.

(** The spans of inline code the second substitution saves. *)
Lemma inline_pieces_ticked (s : pystr) (k : nat) (prev : option ascii) :
  Forall marker_free (matches (pieces_from inline k prev s)) ->
  Forall ticked_piece (pieces_from inline k prev s).
Proof.
  revert k prev. induction s as [|c r IH]; intros k prev; [constructor|].
  cbn [pieces_from]. destruct k as [|k]; [|apply IH].
  destruct (inline prev (c :: r)) as [[[|n] gs]|] eqn:E.
  - cbn [matches]. intros H. constructor; [exact I|apply IH; exact H].
  - cbn [matches]. intros H. inversion H as [|? ? Hm Hrest]; subst.
    constructor; [|apply IH; exact Hrest].
    split; [|exact Hm]. exact (inline_ticked prev (c :: r) (S n) gs E).
  - cbn [matches]. intros H. constructor; [exact I|apply IH; exact H].
Qed.

Lemma backtick_not_in_placeholder (j : nat) (c : ascii) :
  In c (placeholder j) -> c <> "`".
Proof.
  rewrite placeholder_eq. intros Hin ->.
  apply in_app_or in Hin. destruct Hin as [Hin|Hin].
  { cbn in Hin. intuition discriminate. }
  apply in_app_or in Hin. destruct Hin as [Hin|Hin].
  { cbn in Hin. intuition discriminate. }
  apply in_app_or in Hin. destruct Hin as [Hin|Hin].
  - pose proof (str_of_nat_digits j) as Hd.
    rewrite List.Forall_forall in Hd. apply Hd in Hin. discriminate.
  - cbn in Hin. intuition discriminate.
Qed.

Lemma full_app (xs ys : list item) : full (xs ++ ys) = full xs ++ full ys.
Proof. unfold full. rewrite map_app, concat_app. reflexivity. Qed.

(** A span of inline code read in the content of the first substitution
    covers items of text only: it has no placeholder of its own, and it
    ends with a backtick, which no placeholder has. *)
Lemma strip (its1 : list item) (m z : pystr) :
  Forall single its1 ->
  m <> [] -> (exists m0, m = m0 ++ ["`"]) -> marker_free m ->
  m ++ z = flat 0 its1 ->
  exists A rest, its1 = A ++ rest /\ flat 0 A = m /\ full A = m /\ flat 0 rest = z
    /\ forall j b, ~ In (Block j b) A.
Proof.
  intros Hsingle. revert m.
  induction Hsingle as [|it its Hit _ IH]; intros m Hne [m0 Hm0] Hfree H.
  - destruct m; [contradiction|discriminate].
  - rewrite flat_cons in H. destruct it as [t|j b].
    + destruct Hit as [c ->]. cbn [shown app] in H.
      destruct m as [|c' m']; [contradiction|].
      cbn [app] in H. injection H as -> H.
      destruct m' as [|c2 m2].
      * exists [Text [c]], its. cbn [app] in H. subst z. repeat split.
        intros j b [Hin|[]]. discriminate.
      * destruct (IH (c2 :: m2)) as (A & rest & -> & HA & HfA & Hz & HnoA).
        -- discriminate.
        -- destruct m0 as [|x m0']; [discriminate|].
           cbn [app] in Hm0. injection Hm0 as _ Hm0. exists m0'. exact Hm0.
        -- apply (marker_free_app [c] (c2 :: m2)). exact Hfree.
        -- exact H.
        -- exists (Text [c] :: A), rest. repeat split.
           ++ rewrite flat_cons, HA. reflexivity.
           ++ rewrite full_cons, HfA. reflexivity.
           ++ exact Hz.
           ++ intros j b [Hin|Hin]; [discriminate|]. exact (HnoA j b Hin).
    + exfalso. cbn [shown] in H. change (Nat.ltb j 0) with false in H.
      symmetry in H. apply app_eq_app in H. destruct H as [l [[Hp _]|[Hp _]]].
      * subst m. apply (backtick_not_in_placeholder j "`"); [|reflexivity].
        rewrite Hp, <- app_assoc. apply in_or_app. right. left. reflexivity.
      * apply Hfree. rewrite Hp, placeholder_eq.
        exists (str "__"), (str_of_nat j ++ str "__" ++ l).
        rewrite <- !app_assoc. reflexivity.
Qed.

(** The content of the second substitution as items of the text: the
    placeholders of the first are passed over character by character, and
    every span of inline code is a new block. *)
Lemma merge (ps2 : list piece) (its1 : list item) (y : pystr) (base : nat) :
  Forall ticked_piece ps2 -> Forall single its1 ->
  (forall c, In c y -> c <> "`") ->
  concat (map raw ps2) = y ++ flat 0 its1 ->
  exists its, y ++ flat 0 its = flat 0 (items_of base ps2)
    /\ full its = full its1
    /\ (forall j b, In (Block j b) its ->
          In (Block j b) its1 \/ In (Block j b) (items_of base ps2))
    /\ (forall j b, In (Block j b) its1 -> In (Block j b) its)
    /\ (forall j b, In (Block j b) (items_of base ps2) -> In (Block j b) its).
Proof.
  intros Hps. revert its1 y base.
  induction Hps as [|p ps Hp _ IH]; intros its1 y base Hsingle Hy H.
  - cbn [map concat] in H. symmetry in H. apply app_eq_nil in H.
    destruct H as [-> H]. exists its1. cbn [items_of app]. repeat split.
    + exact H.
    + intros j b Hin. left. exact Hin.
    + intros j b Hin. exact Hin.
    + intros j b [].
  - destruct p as [c|m gs].
    + cbn [map concat raw app] in H. destruct y as [|c' y'].
      * cbn [app] in H. destruct Hsingle as [|it its Hit Hsingle]; [discriminate|].
        rewrite flat_cons in H. destruct it as [t|j b].
        -- destruct Hit as [c' ->]. cbn [shown app] in H. injection H as <- H.
           destruct (IH its [] base Hsingle Hy H)
             as (its' & Hflat & Hfull & Hblocks & Hfirst & Hsecond).
           exists (Text [c] :: its'). cbn [app] in *. repeat split.
           ++ cbn [items_of]. rewrite !flat_cons, Hflat. reflexivity.
           ++ rewrite !full_cons, Hfull. reflexivity.
           ++ intros j b [Hin|Hin]; [discriminate|].
              destruct (Hblocks j b Hin) as [Hl|Hr].
              ** left. right. exact Hl.
              ** right. cbn [items_of]. right. exact Hr.
           ++ intros j b [Hin|Hin]; [discriminate|]. right. apply Hfirst. exact Hin.
           ++ cbn [items_of]. intros j b [Hin|Hin]; [discriminate|].
              right. apply Hsecond. exact Hin.
        -- cbn [shown] in H. change (Nat.ltb j 0) with false in H. cbv iota in H.
           destruct (placeholder j) as [|c' y'] eqn:Ep.
           { exfalso. exact (placeholder_not_nil j Ep). }
           cbn [app] in H. injection H as <- H.
           assert (Hy' : forall x, In x y' -> x <> "`").
           { intros x Hx. apply (backtick_not_in_placeholder j). rewrite Ep.
             right. exact Hx. }
           destruct (IH its y' base Hsingle Hy' H)
             as (its' & Hflat & Hfull & Hblocks & Hfirst & Hsecond).
           exists (Block j b :: its'). repeat split.
           ++ cbn [items_of app]. rewrite !flat_cons. cbn [shown].
              change (Nat.ltb j 0) with false. cbv iota.
              rewrite Ep. cbn [app]. rewrite Hflat. reflexivity.
           ++ rewrite !full_cons, Hfull. reflexivity.
           ++ intros j' b' [Hin|Hin].
              ** left. left. exact Hin.
              ** destruct (Hblocks j' b' Hin) as [Hl|Hr].
                 --- left. right. exact Hl.
                 --- right. cbn [items_of]. right. exact Hr.
           ++ intros j' b' [Hin|Hin]; [left; exact Hin|].
              right. apply Hfirst. exact Hin.
           ++ cbn [items_of]. intros j' b' [Hin|Hin]; [discriminate|].
              right. apply Hsecond. exact Hin.
      * cbn [app] in H. injection H as <- H.
        assert (Hy' : forall x, In x y' -> x <> "`").
        { intros x Hx. apply Hy. right. exact Hx. }
        destruct (IH its1 y' base Hsingle Hy' H)
          as (its' & Hflat & Hfull & Hblocks & Hfirst & Hsecond).
        exists its'. repeat split.
        -- cbn [items_of app]. rewrite flat_cons. cbn [shown app].
           rewrite Hflat. reflexivity.
        -- exact Hfull.
        -- intros j b Hin. destruct (Hblocks j b Hin) as [Hl|Hr].
           ++ left. exact Hl.
           ++ right. cbn [items_of]. right. exact Hr.
        -- exact Hfirst.
        -- cbn [items_of]. intros j b [Hin|Hin]; [discriminate|].
           apply Hsecond. exact Hin.
    + destruct Hp as [[body Hm] Hfree]. cbn [map concat raw] in H.
      destruct y as [|c' y'].
      2:{ exfalso. subst m. cbn [app] in H. injection H as <- _.
          apply (Hy "`"); [left|]; reflexivity. }
      cbn [app] in H.
      destruct (strip its1 m (concat (map raw ps)) Hsingle)
        as (A & rest & -> & HA & HfA & Hz & HnoA).
      * subst m. discriminate.
      * exists ("`" :: body). subst m. reflexivity.
      * exact Hfree.
      * exact H.
      * apply Forall_app in Hsingle. destruct Hsingle as [_ Hrest].
        symmetry in Hz.
        destruct (IH rest [] (S base) Hrest Hy Hz)
          as (its' & Hflat & Hfull & Hblocks & Hfirst & Hsecond).
        exists (Block base m :: its'). cbn [app] in *. repeat split.
        -- cbn [items_of]. rewrite !flat_cons, Hflat. reflexivity.
        -- rewrite full_cons, full_app, Hfull, HfA. reflexivity.
        -- intros j b [Hin|Hin].
           ++ right. cbn [items_of]. left. exact Hin.
           ++ destruct (Hblocks j b Hin) as [Hl|Hr].
              ** left. apply in_or_app. right. exact Hl.
              ** right. cbn [items_of]. right. exact Hr.
        -- intros j b Hin. apply in_app_or in Hin. destruct Hin as [Hin|Hin].
           ++ exfalso. exact (HnoA j b Hin).
           ++ right. apply Hfirst. exact Hin.
        -- cbn [items_of]. intros j b [Hin|Hin]; [left; exact Hin|].
           right. apply Hsecond. exact Hin.
Qed.

(** The content the two substitutions leave and the blocks they save are
    those of items that stand for the text. *)
Lemma protect_items (text : pystr) :
  Forall marker_free (snd (protect text)) ->
  exists its, fst (protect text) = flat 0 its
    /\ full its = text
    /\ tabled (snd (protect text)) its
    /\ all_saved (snd (protect text)) its.
Proof.
  unfold protect, save. rewrite save_pieces_items.
  rewrite save_pieces_items. cbn [fst snd length app].
  set (ps1 := pieces fenced text).
  set (ps2 := pieces inline (flat 0 (items_of 0 ps1))).
  intros Hfree. apply Forall_app in Hfree. destruct Hfree as [_ Hfree2].
  destruct (merge ps2 (items_of 0 ps1) [] (length (matches ps1)))
    as (its & Hflat & Hfull & Hblocks & Hfirst & Hsecond).
  - apply inline_pieces_ticked. exact Hfree2.
  - apply single_items_of.
  - intros c [].
  - unfold ps2, pieces. rewrite pieces_raw. reflexivity.
  - exists its. cbn [app] in Hflat. split; [symmetry; exact Hflat|]. split; [|split].
    + rewrite Hfull, full_items_of. unfold ps1, pieces. rewrite pieces_raw. reflexivity.
    + intros j b Hin. destruct (Hblocks j b Hin) as [Hl|Hr].
      * apply blocks_items_of in Hl. destruct Hl as [_ Hl].
        rewrite Nat.sub_0_r in Hl. apply lookup_app_l_Some. exact Hl.
      * apply blocks_items_of in Hr. destruct Hr as [Hle Hr].
        rewrite lookup_app_r by exact Hle. exact Hr.
    + intros j b Hj.
      destruct (lookup_app_Some (matches ps1) (matches ps2) j b) as [Hcases _].
      destruct (Hcases Hj) as [Hl|[Hle Hr]].
      * apply Hfirst. apply (items_of_blocks 0 ps1 j b Hl).
      * apply Hsecond.
        replace j with (length (matches ps1) + (j - length (matches ps1))) at 1 by lia.
        apply items_of_blocks. exact Hr.
Qed.

(** ** The braces escaped between saving and restoring *)














(** ** Deciding whether a word occurs *)

Lemma occursb_spec (w s : pystr) : occursb w s = true <-> occurs w s.
Proof.
  split.
  - induction s as [|c s IH]; cbn [occursb]; intros H.
    + rewrite orb_false_r in H. apply startswith_prefix in H. destruct H as [r ->].
      exists [], r. reflexivity.
    + apply orb_true_iff in H. destruct H as [H|H].
      * apply startswith_prefix in H. destruct H as [r ->]. exists [], r. reflexivity.
      * destruct (IH H) as (u & v & ->). exists (c :: u), v. reflexivity.
  - intros (u & v & ->). induction u as [|c u IH].
    + cbn [app]. destruct (w ++ v) eqn:E; cbn [occursb]; rewrite <- ?E;
        rewrite startswith_app; reflexivity.
    + cbn [app occursb]. rewrite IH. apply orb_true_r.
Qed.

Lemma marker_free_computed (s : pystr) : occursb marker s = false -> marker_free s.
Proof.
  intros H Hocc. apply occursb_spec in Hocc. congruence.
Qed.

(** A text without the start of a placeholder has no placeholder. *)
Lemma no_placeholder (s : pystr) :
  occursb (str "__CODE_BLOCK_") s = false -> forall n, ~ occurs (placeholder n) s.
Proof.
  intros H n (u & v & E).
  assert (Hocc : occurs (str "__CODE_BLOCK_") s).
  { exists u, (str_of_nat n ++ str "__" ++ v). rewrite E, placeholder_eq.
    rewrite <- !app_assoc. reflexivity. }
  apply occursb_spec in Hocc. congruence.
Qed.

End RoundTripFacts.

(** * Code spans kept, braces escaped around them
    ([clean_mdx.py], lines 54-85; [fix_mdx_issues.py], lines 20-41) *)

Module CodeSpanFacts.
Import Py Re Spec PyFacts ReFacts LineFacts BraceFacts.
Import FixMdxIssues PlaceholderFacts RoundTripFacts.

Lemma all_marker_free_computed (l : list pystr) :
  forallb (fun s => negb (occursb marker s)) l = true -> Forall marker_free l.
Proof.
  intros H. rewrite List.forallb_forall in H. apply List.Forall_forall.
  intros s Hs. apply marker_free_computed. apply H in Hs.
  destruct (occursb marker s); [discriminate|reflexivity].
Qed.

(** Saving and restoring gives the text back when neither the text nor a
    saved block has the marker of a placeholder. *)
Lemma restore_protect (text : pystr) :
  marker_free text -> Forall marker_free (snd (protect text)) ->
  restore (snd (protect text)) (fst (protect text)) = text.
Proof.
  intros Hfree Hblocks.
  destruct (protect_items text Hblocks) as (its & Hfst & Hfull & Htabled & _).
  rewrite Hfst. rewrite <- Hfull at 2. apply restore_items; [|exact Htabled].
  rewrite Hfull. exact Hfree.
Qed.






(** C10, as the claim has it, fails: a text without any placeholder is not
    given back.  In the first text the span of inline code found by the
    second substitution takes in the placeholder of the fenced block, which
    is restored before the span and so never replaced.  In the second the
    end of one placeholder and the prose after it read as another
    placeholder. *)
Lemma C10_text_without_placeholder_not_restored :
  ((forall n, ~ occurs (placeholder n) (str "`a```b```c`"))
   /\ restore (snd (protect (str "`a```b```c`"))) (fst (protect (str "`a```b```c`")))
      = str "`a__CODE_BLOCK_0__c`")
  /\ ((forall n, ~ occurs (placeholder n) (str "`b` `a`CODE_BLOCK_0__"))
      /\ restore (snd (protect (str "`b` `a`CODE_BLOCK_0__")))
           (fst (protect (str "`b` `a`CODE_BLOCK_0__")))
         = str "`b` __CODE_BLOCK_1`b`").
Proof.
  split; split.
  - apply no_placeholder. vm_compute. reflexivity.
  - vm_compute. reflexivity.
  - apply no_placeholder. vm_compute. reflexivity.
  - vm_compute. reflexivity.
Qed.

(** C10, amended.  For every text that does not contain CODE_BLOCK_, and
    of which no saved block contains it, saving the fenced and inline code
    and restoring it gives the text back.  A text that has a placeholder
    of its own is not given back: the saved block is put in its place. *)
Theorem C10_round_trip_without_marker :
  (forall text : pystr,
      marker_free text -> Forall marker_free (snd (protect text)) ->
      restore (snd (protect text)) (fst (protect text)) = text)
  /\ (occurs (placeholder 0) (str "__CODE_BLOCK_0__ `x`")
      /\ restore (snd (protect (str "__CODE_BLOCK_0__ `x`")))
           (fst (protect (str "__CODE_BLOCK_0__ `x`")))
         = str "`x` `x`").
Proof.
  split; [exact restore_protect|]. split.
  - exists [], (str " `x`"). reflexivity.
  - vm_compute. reflexivity.
Qed.

Lemma C10_witness :
  restore (snd (protect (str "a {p} `{x}` b" ++ nl :: str "```" ++ nl :: str "{y}" ++ nl :: str "```")))
    (fst (protect (str "a {p} `{x}` b" ++ nl :: str "```" ++ nl :: str "{y}" ++ nl :: str "```")))
  = str "a {p} `{x}` b" ++ nl :: str "```" ++ nl :: str "{y}" ++ nl :: str "```".
Proof.
  apply (proj1 C10_round_trip_without_marker).
  - apply marker_free_computed. vm_compute. reflexivity.
  - apply all_marker_free_computed. vm_compute. reflexivity.
Defined.

End CodeSpanFacts.

(** * Markdown that needs no cleaning
    ([jupyter_to_docusaurus.py], lines 199-237) *)

Module PlainFacts.
Import Py Re Tags Spec Alchemist PyFacts ReFacts.

(** A pattern that matches at no position leaves the subject as it is. *)
Lemma sub_never (m : matcher) (repl : pystr -> list pystr -> pystr) (s : pystr) :
  (forall prev k, m prev (drop k s) = None) -> sub m repl s = s.
Proof.
  unfold sub, pieces. generalize (@None ascii) as prev.
  induction s as [|c r IH]; intros prev H; [reflexivity|].
  cbn [pieces_from]. pose proof (H prev 0) as H0. cbn [drop] in H0. rewrite H0.
  cbn [map concat app]. f_equal.
  apply IH. intros prev' k. exact (H prev' (S k)).
Qed.

Lemma drop_no_char (a : ascii) (s : pystr) (k : nat) :
  Forall (fun c => c <> a) s ->
  match drop k s with c :: _ => Ascii.eqb a c = false | [] => True end.
Proof.
  intros H. assert (Hd : Forall (fun c => c <> a) (drop k s)) by apply Forall_drop, H.
  destruct (drop k s) as [|c r]; [exact I|].
  inversion Hd; subst. apply Ascii.eqb_neq. congruence.
Qed.

Lemma scheme_none (s : pystr) (k : nat) :
  ~ occurs (str "http://") s -> ~ occurs (str "https://") s ->
  scheme (drop k s) = None.
Proof.
  intros H1 H2. unfold scheme.
  destruct (startswith (str "https://") (drop k s)) eqn:E2.
  { exfalso. apply H2. apply startswith_prefix in E2. destruct E2 as [r E].
    exists (take k s), r. rewrite <- E, take_drop. reflexivity. }
  destruct (startswith (str "http://") (drop k s)) eqn:E1; [|reflexivity].
  exfalso. apply H1. apply startswith_prefix in E1. destruct E1 as [r E].
  exists (take k s), r. rewrite <- E, take_drop. reflexivity.
Qed.

(** [_clean_markdown] changes nothing in a text that has no angle bracket
    and no URL: whatever else it holds, braces included, stays. *)
Theorem clean_markdown_keeps_plain_text (markdown : pystr) :
  Forall (fun c => c <> "<") markdown ->
  Forall (fun c => c <> ">") markdown ->
  ~ occurs (str "http://") markdown ->
  ~ occurs (str "https://") markdown ->
  _clean_markdown markdown = markdown.
Proof.
  intros Hlt Hgt Hhttp Hhttps.
  assert (Hhead : forall (m : matcher),
             (forall prev c r, Ascii.eqb "<" c = false -> m prev (c :: r) = None) ->
             (forall prev, m prev [] = None) ->
             forall repl, sub m repl markdown = markdown).
  { intros m Hm Hnil repl. apply sub_never. intros prev k.
    pose proof (drop_no_char "<" markdown k Hlt) as Hd.
    destruct (drop k markdown) as [|c r]; [apply Hnil|apply Hm, Hd]. }
  unfold _clean_markdown, _fix_html_tags, _fix_mdx_syntax.
  rewrite (Hhead dangling); cycle 1.
  { intros prev c r Hc. unfold dangling.
    destruct (Ascii.eqb_spec "<" c) as [<-|Hn]; [discriminate|].
    destruct c as [[] [] [] [] [] [] [] []]; try reflexivity. congruence. }
  { reflexivity. }
  rewrite (Hhead void_tag); cycle 1.
  { intros prev c r Hc. unfold void_tag.
    destruct (Ascii.eqb_spec "<" c) as [<-|Hn]; [discriminate|].
    destruct c as [[] [] [] [] [] [] [] []]; try reflexivity. congruence. }
  { reflexivity. }
  rewrite (Hhead (attribute (str "style"))); cycle 1.
  { intros prev c r Hc. unfold attribute.
    destruct (Ascii.eqb_spec "<" c) as [<-|Hn]; [discriminate|].
    destruct c as [[] [] [] [] [] [] [] []]; try reflexivity. congruence. }
  { reflexivity. }
  rewrite (Hhead img_src); cycle 1.
  { intros prev c r Hc. unfold img_src. cbn [app str list_ascii_of_string startswith].
    rewrite Hc. reflexivity. }
  { reflexivity. }
  rewrite (Hhead angle_url); cycle 1.
  { intros prev c r Hc. unfold angle_url.
    destruct (Ascii.eqb_spec "<" c) as [<-|Hn]; [discriminate|].
    destruct c as [[] [] [] [] [] [] [] []]; try reflexivity. congruence. }
  { reflexivity. }
  rewrite (Hhead bare_lt); cycle 1.
  { intros prev c r Hc. unfold bare_lt.
    destruct (Ascii.eqb_spec "<" c) as [<-|Hn]; [discriminate|].
    destruct c as [[] [] [] [] [] [] [] []]; try reflexivity. congruence. }
  { reflexivity. }
  rewrite (sub_never gt_after_other); cycle 1.
  { intros prev k. pose proof (drop_no_char ">" markdown k Hgt) as Hd.
    destruct (drop k markdown) as [|c r]; [reflexivity|]. unfold gt_after_other.
    destruct (Ascii.eqb_spec ">" c) as [<-|Hn]; [discriminate|].
    destruct c as [[] [] [] [] [] [] [] []]; try reflexivity. congruence. }
  apply sub_never. intros prev k. unfold bare_url.
  rewrite (scheme_none markdown k Hhttp Hhttps).
  destruct (prev_is (Ascii.eqb "[") prev || prev_is (Ascii.eqb "(") prev); reflexivity.
Qed.

Lemma clean_markdown_keeps_plain_text_witness :
  _clean_markdown (str "# Title" ++ nl :: str "Hello {world}")
  = str "# Title" ++ nl :: str "Hello {world}".
Proof.
  apply clean_markdown_keeps_plain_text.
  - apply List.Forall_forall. intros c Hc. vm_compute in Hc. intuition (subst; discriminate).
  - apply List.Forall_forall. intros c Hc. vm_compute in Hc. intuition (subst; discriminate).
  - intros Hocc. apply RoundTripFacts.occursb_spec in Hocc. vm_compute in Hocc. discriminate.
  - intros Hocc. apply RoundTripFacts.occursb_spec in Hocc. vm_compute in Hocc. discriminate.
Defined.

End PlainFacts.

(** * The values of the frontmatter
    ([jupyter_to_docusaurus.py], lines 83-99) *)

Module FrontmatterFacts.
Import Py Re Spec Alchemist.

Lemma Forall_dropwhile (P : ascii -> Prop) (p : ascii -> bool) (s : pystr) :
  Forall P s -> Forall P (dropwhile p s).
Proof.
  induction 1 as [|c s Hc Hs IH]; cbn [dropwhile]; [constructor|].
  destruct (p c); [exact IH|constructor; assumption].
Qed.

Lemma Forall_strip (P : ascii -> Prop) (s : pystr) : Forall P s -> Forall P (strip s).
Proof.
  intros H. unfold strip, rstrip, lstrip.
  apply Forall_rev, Forall_dropwhile, Forall_rev, Forall_dropwhile, H.
Qed.

(** After the runs of white space are replaced, the only white space left
    is the space. *)
Lemma sub_spaces_chars (s : pystr) (k : nat) (prev : option ascii) :
  Forall (fun c => isspace c = true -> c = " ")
    (concat (map (fun p => match p with
                           | Lit c => [c]
                           | Match _ _ => [" "]
                           end) (pieces_from spaces k prev s))).
Proof.
  revert k prev. induction s as [|c r IH]; intros k prev; [constructor|].
  cbn [pieces_from]. destruct k as [|k]; [|apply IH].
  destruct (spaces prev (c :: r)) as [[[|n] gs]|] eqn:E.
  - cbn [map concat app]. constructor; [|apply IH].
    intros Hc. exfalso. unfold spaces in E. cbn [takewhile] in E.
    rewrite Hc in E. discriminate.
  - cbn [map concat app]. constructor; [reflexivity|apply IH].
  - cbn [map concat app]. constructor; [|apply IH].
    intros Hc. exfalso. unfold spaces in E. cbn [takewhile] in E.
    rewrite Hc in E. discriminate.
Qed.

Lemma clean_yaml_string_white_space (text : pystr) :
  Forall (fun c => isspace c = true -> c = " ") (_clean_yaml_string text).
Proof.
  unfold _clean_yaml_string. destruct text as [|c0 text0]; [constructor|].
  apply Forall_strip.
  assert (Hc : Forall (fun c => isspace c = true -> c = " ")
                 (yaml_cleaned (c0 :: text0))).
  { unfold yaml_cleaned, sub, pieces. apply sub_spaces_chars. }
  destruct (Nat.ltb 150 (length (yaml_cleaned (c0 :: text0)))); [|exact Hc].
  apply Forall_app_2; [apply Forall_take, Hc|].
  repeat constructor; discriminate.
Qed.

Lemma clean_yaml_string_no_newline (text : pystr) :
  ~ In nl (_clean_yaml_string text).
Proof.
  pose proof (clean_yaml_string_white_space text) as H.
  rewrite List.Forall_forall in H. intros Hin. apply H in Hin; [discriminate|reflexivity].
Qed.

(** A value of the frontmatter stays on its line: [_clean_yaml_string]
    returns a text whose only white space is the space, so it has no
    newline, carriage return or tab. *)
Theorem clean_yaml_string_on_one_line (text : pystr) :
  Forall (fun c => isspace c = true -> c = " ") (_clean_yaml_string text)
  /\ ~ In nl (_clean_yaml_string text)
  /\ ~ In cr (_clean_yaml_string text).
Proof.
  pose proof (clean_yaml_string_white_space text) as H.
  split; [exact H|]. split; [apply clean_yaml_string_no_newline|].
  rewrite List.Forall_forall in H. intros Hin. apply H in Hin; [discriminate|reflexivity].
Qed.

End FrontmatterFacts.

(** * What the frontmatter can hold
    ([jupyter_to_docusaurus.py], lines 83-99) *)

Module YamlFacts.
Import Py Re Spec Notions Alchemist PyFacts ReFacts DescriptionFacts.

Lemma length_dropwhile (p : ascii -> bool) (s : pystr) :
  length (dropwhile p s) <= length s.
Proof.
  induction s as [|c s IH]; cbn [dropwhile length]; [lia|].
  destruct (p c); cbn [length]; lia.
Qed.

Lemma length_strip (s : pystr) : length (strip s) <= length s.
Proof.
  unfold strip, rstrip, lstrip. rewrite length_rev.
  etransitivity; [apply length_dropwhile|]. rewrite length_rev.
  apply length_dropwhile.
Qed.

Lemma clean_yaml_string_length (text : pystr) :
  length (_clean_yaml_string text) <= 150.
Proof.
  rewrite clean_yaml_string_cases.
  etransitivity; [apply length_strip|].
  destruct (Nat.ltb 150 (length (yaml_cleaned text))) eqn:E.
  - rewrite length_app, length_take. change (length (str "...")) with 3. lia.
  - apply Nat.ltb_ge in E. exact E.
Qed.

(** A value of the frontmatter never has more than 150 characters,
    whatever the length of the title or description it is made from. *)
Theorem clean_yaml_string_at_most_150 (text : pystr) :
  length (_clean_yaml_string text) <= 150.
Proof. apply clean_yaml_string_length. Qed.

(** ** Quotes *)

Lemma escaped_from_weaken (b : bool) (s : pystr) :
  escaped_from false s -> escaped_from b s.
Proof.
  destruct s as [|c r]; [trivial|]. cbn [escaped_from].
  intros [H Hr]. split; [|exact Hr]. intros Hc. discriminate (H Hc).
Qed.

Lemma escaped_from_app (b : bool) (x y : pystr) :
  escaped_from b x -> Forall (fun c => c <> dquote) y -> escaped_from b (x ++ y).
Proof.
  revert b. induction x as [|c x IH]; intros b Hx Hy.
  - cbn [app]. clear Hx. revert b.
    induction Hy as [|c y Hc _ IHy]; intros b; [exact I|].
    cbn [escaped_from]. split; [intros ->; contradiction|apply IHy].
  - cbn [app escaped_from] in *. destruct Hx as [Hc Hx].
    split; [exact Hc|apply IH; assumption].
Qed.

Lemma escaped_from_prefix (b : bool) (x y : pystr) :
  escaped_from b (x ++ y) -> escaped_from b x.
Proof.
  revert b. induction x as [|c x IH]; intros b H; [exact I|].
  cbn [app escaped_from] in *. destruct H as [Hc H].
  split; [exact Hc|apply IH; exact H].
Qed.

Lemma escaped_from_take (b : bool) (n : nat) (s : pystr) :
  escaped_from b s -> escaped_from b (take n s).
Proof.
  intros H. apply (escaped_from_prefix b (take n s) (drop n s)).
  rewrite take_drop. exact H.
Qed.

Lemma isspace_not_backslash (c : ascii) : isspace c = true -> Ascii.eqb c "\" = false.
Proof.
  intros H. destruct (Ascii.eqb_spec c "\") as [->|]; [discriminate|reflexivity].
Qed.

Lemma escaped_from_dropwhile (b : bool) (s : pystr) :
  escaped_from b s -> escaped_from b (dropwhile isspace s).
Proof.
  revert b. induction s as [|c s IH]; intros b H; [exact I|].
  cbn [dropwhile]. destruct (isspace c) eqn:E; [|exact H].
  cbn [escaped_from] in H. destruct H as [_ H].
  rewrite (isspace_not_backslash c E) in H.
  apply escaped_from_weaken, IH, H.
Qed.

Lemma rstrip_is_prefix (s : pystr) : exists t, s = rstrip s ++ t.
Proof.
  unfold rstrip. exists (rev (takewhile isspace (rev s))).
  rewrite <- rev_app_distr, takewhile_dropwhile, rev_involutive. reflexivity.
Qed.

Lemma escaped_from_strip (b : bool) (s : pystr) :
  escaped_from b s -> escaped_from b (strip s).
Proof.
  intros H. unfold strip. apply escaped_from_dropwhile in H.
  destruct (rstrip_is_prefix (lstrip s)) as [t Ht].
  unfold lstrip in *. rewrite Ht in H. apply escaped_from_prefix in H. exact H.
Qed.

(** Escaping the quotes. *)
Lemma escaped_from_replace_quote (b : bool) (s : pystr) :
  escaped_from b (replace [dquote] ["\"; dquote] s).
Proof.
  rewrite replace_char. revert b. induction s as [|c s IH]; intros b; [exact I|].
  cbn [map concat]. destruct (Ascii.eqb_spec dquote c) as [<-|Hc].
  - cbn [app escaped_from]. split; [discriminate|]. split; [reflexivity|apply IH].
  - cbn [app escaped_from]. split; [congruence|apply IH].
Qed.

(** Replacing a character that is neither a quote nor a backslash by a
    space. *)
Lemma escaped_from_replace_space (a : ascii) (b : bool) (s : pystr) :
  a <> dquote -> a <> "\" ->
  escaped_from b s -> escaped_from b (replace [a] [" "] s).
Proof.
  intros Hq Hb. rewrite replace_char. revert b.
  induction s as [|c s IH]; intros b H; [exact I|].
  cbn [map concat]. cbn [escaped_from] in H. destruct H as [Hc H].
  destruct (Ascii.eqb_spec a c) as [<-|Hac].
  - cbn [app escaped_from]. split; [discriminate|].
    rewrite (proj2 (Ascii.eqb_neq a "\") Hb) in H.
    apply IH, H.
  - cbn [app escaped_from]. split; [exact Hc|apply IH, H].
Qed.

(** Putting one space for every run of white space. *)
Lemma escaped_from_sub_spaces (s : pystr) (k : nat) (prev : option ascii) (b : bool) :
  Forall (fun c => isspace c = true) (take k s) ->
  escaped_from b s ->
  escaped_from (match k with O => b | S _ => false end)
    (concat (map (fun p => match p with Lit c => [c] | Match _ _ => [" "] end)
               (pieces_from spaces k prev s))).
Proof.
  revert k prev b. induction s as [|c r IH]; intros k prev b Hk H.
  - destruct k; exact I.
  - cbn [pieces_from]. cbn [escaped_from] in H. destruct H as [Hc H].
    destruct k as [|k].
    + unfold spaces at 1. cbn [takewhile].
      destruct (isspace c) eqn:Ec.
      * cbn [length found_of]. cbn [map concat app escaped_from].
        split; [discriminate|].
        rewrite (isspace_not_backslash c Ec) in H.
        assert (Hrun : Forall (fun x => isspace x = true)
                         (take (length (takewhile isspace r)) r)).
        { replace (take (length (takewhile isspace r)) r) with (takewhile isspace r).
          - apply takewhile_all.
          - rewrite <- (takewhile_dropwhile isspace r) at 3.
            rewrite take_app_length. reflexivity. }
        specialize (IH (length (takewhile isspace r)) (Some c) false Hrun H).
        destruct (length (takewhile isspace r)); exact IH.
      * cbn [map concat app escaped_from]. split; [exact Hc|].
        apply (IH 0 (Some c) (Ascii.eqb c "\")); [constructor|exact H].
    + cbn [take] in Hk. inversion Hk as [|? ? Hsp Hk']; subst.
      rewrite (isspace_not_backslash c Hsp) in H.
      specialize (IH k (Some c) false Hk' H).
      destruct k; exact IH.
Qed.

Lemma escaped_from_spec (s : pystr) :
  escaped_from false s ->
  forall u v, s = u ++ dquote :: v -> exists u', u = u' ++ ["\"].
Proof.
  intros H u v E. subst s.
  assert (G : forall b, escaped_from b (u ++ dquote :: v) ->
                        (u = [] /\ b = true) \/ exists u', u = u' ++ ["\"]).
  { clear H. induction u as [|c u IH]; intros b H.
    - cbn [app escaped_from] in H. left. split; [reflexivity|apply H; reflexivity].
    - cbn [app escaped_from] in H. destruct H as [_ H]. right.
      destruct (IH _ H) as [[-> Hb]|[u' ->]].
      + apply Ascii.eqb_eq in Hb. subst c. exists []. reflexivity.
      + exists (c :: u'). reflexivity. }
  destruct (G false H) as [[_ Hb]|Hu]; [discriminate|exact Hu].
Qed.

Lemma clean_yaml_string_escaped (text : pystr) :
  escaped_from false (_clean_yaml_string text).
Proof.
  rewrite clean_yaml_string_cases.
  apply escaped_from_strip.
  assert (Hc : escaped_from false (yaml_cleaned text)).
  { unfold yaml_cleaned, sub, pieces.
    apply (escaped_from_sub_spaces _ 0 None false); [constructor|].
    apply escaped_from_replace_space; [discriminate..|].
    apply escaped_from_replace_space; [discriminate..|].
    apply escaped_from_replace_quote. }
  destruct (Nat.ltb 150 (length (yaml_cleaned text))); [|exact Hc].
  apply escaped_from_app; [apply escaped_from_take, Hc|].
  repeat constructor; discriminate.
Qed.

(** In a value of the frontmatter every double quote has a backslash
    before it. *)
Theorem clean_yaml_string_quotes_escaped (text u v : pystr) :
  _clean_yaml_string text = u ++ dquote :: v -> exists u', u = u' ++ ["\"].
Proof. apply escaped_from_spec, clean_yaml_string_escaped. Qed.

Lemma clean_yaml_string_quotes_escaped_witness :
  exists u', str "say \" = u' ++ ["\"].
Proof.
  apply (clean_yaml_string_quotes_escaped
           (str "say " ++ [dquote] ++ str "hi" ++ [dquote] ++ str "  ")
           (str "say \") (str "hi\" ++ [dquote])).
  vm_compute. reflexivity.
Defined.

End YamlFacts.

(** * The name of the file written
    ([jupyter_to_docusaurus.py], lines 239-246) *)

Module OutputPathFacts.
Import Py Re Tags Spec Notions Alchemist PyFacts ReFacts.

(** The characters a substitution leaves are characters of the subject or
    of a replacement. *)
Lemma sub_chars (P : ascii -> Prop) (m : matcher)
    (repl : pystr -> list pystr -> pystr) (s : pystr) (k : nat) (prev : option ascii) :
  Forall P s -> (forall t gs, Forall P (repl t gs)) ->
  Forall P (concat (map (fun p => match p with
                                  | Lit c => [c]
                                  | Match t gs => repl t gs
                                  end) (pieces_from m k prev s))).
Proof.
  intros Hs Hrepl. revert k prev.
  induction Hs as [|c r Hc _ IH]; intros k prev; [constructor|].
  cbn [pieces_from]. destruct k as [|k]; [|apply IH].
  destruct (m prev (c :: r)) as [[[|n] gs]|]; cbn [map concat].
  - constructor; [exact Hc|apply IH].
  - apply Forall_app_2; [apply Hrepl|apply IH].
  - constructor; [exact Hc|apply IH].
Qed.

(** After every other character became a [-], only letters, digits, [-]
    and [_] are left. *)
Lemma sub_unsafe_chars (s : pystr) (k : nat) (prev : option ascii) :
  Forall (fun c => isalpha c || isdigit c || Ascii.eqb c "-" || Ascii.eqb c "_" = true)
    (concat (map (fun p => match p with
                           | Lit c => [c]
                           | Match _ _ => ["-"]
                           end) (pieces_from unsafe_char k prev s))).
Proof.
  revert k prev. induction s as [|c r IH]; intros k prev; [constructor|].
  cbn [pieces_from]. destruct k as [|k]; [|apply IH].
  unfold unsafe_char at 1.
  destruct (isalpha c || isdigit c || Ascii.eqb c "-" || Ascii.eqb c "_") eqn:E;
    cbn [found_of map concat app].
  - constructor; [exact E|apply IH].
  - constructor; [reflexivity|apply IH].
Qed.

Lemma lower_safe (c : ascii) :
  isalpha c || isdigit c || Ascii.eqb c "-" || Ascii.eqb c "_" = true ->
  safe_char (lower c) = true.
Proof.
  destruct c as [[] [] [] [] [] [] [] []]; vm_compute; intros H; congruence.
Qed.

(** After the runs of [-] became one [-], no [-] follows another. *)
Lemma sub_dashes_single (s : pystr) (k : nat) (prev : option ascii) (f : bool) :
  (f = true -> next_is (Ascii.eqb "-") (drop k s) = false) ->
  single_dashes f
    (concat (map (fun p => match p with
                           | Lit c => [c]
                           | Match _ _ => ["-"]
                           end) (pieces_from dashes k prev s))).
Proof.
  revert k prev f. induction s as [|c r IH]; intros k prev f Hf.
  - destruct k; exact I.
  - cbn [pieces_from]. destruct k as [|k]; [|apply IH; exact Hf].
    unfold dashes at 1. cbn [takewhile].
    destruct (Ascii.eqb_spec "-" c) as [<-|Hc].
    + cbn [length found_of map concat app single_dashes]. split.
      * intros _. destruct f; [|reflexivity]. discriminate (Hf eq_refl).
      * apply IH. intros _. rewrite drop_takewhile.
        pose proof (dropwhile_head (Ascii.eqb "-") r) as Hh.
        destruct (dropwhile (Ascii.eqb "-") r); [reflexivity|exact Hh].
    + cbn [map concat app single_dashes]. split; [congruence|].
      apply IH. intros Hb. apply Ascii.eqb_eq in Hb. congruence.
Qed.

Lemma single_dashes_weaken (b : bool) (s : pystr) :
  single_dashes b s -> single_dashes false s.
Proof.
  destruct s as [|c r]; [trivial|]. cbn [single_dashes].
  intros [_ H]. split; [reflexivity|exact H].
Qed.

Lemma single_dashes_prefix (b : bool) (x y : pystr) :
  single_dashes b (x ++ y) -> single_dashes b x.
Proof.
  revert b. induction x as [|c x IH]; intros b H; [exact I|].
  cbn [app single_dashes] in *. destruct H as [Hc H].
  split; [exact Hc|apply IH; exact H].
Qed.

Lemma single_dashes_dropwhile (p : ascii -> bool) (s : pystr) :
  single_dashes false s -> single_dashes false (dropwhile p s).
Proof.
  induction s as [|c s IH]; intros H; [exact I|].
  cbn [dropwhile]. destruct (p c); [|exact H].
  cbn [single_dashes] in H. destruct H as [_ H].
  apply IH. apply (single_dashes_weaken _ _ H).
Qed.

Lemma single_dashes_spec (s : pystr) :
  single_dashes false s -> ~ occurs (str "--") s.
Proof.
  intros H (u & v & ->).
  assert (G : forall b, ~ single_dashes b (u ++ str "--" ++ v)).
  { clear H. induction u as [|c u IH]; intros b H.
    - change (str "--" ++ v) with ("-" :: "-" :: v) in H.
      cbn [app single_dashes] in H. destruct H as [_ [H _]].
      discriminate (H eq_refl).
    - cbn [app single_dashes] in H. destruct H as [_ H]. exact (IH _ H). }
  exact (G false H).
Qed.

(** Stripping a character from the end leaves a prefix. *)
Lemma rstrip_char_prefix (p : ascii -> bool) (s : pystr) :
  exists t, s = rev (dropwhile p (rev s)) ++ t.
Proof.
  exists (rev (takewhile p (rev s))).
  rewrite <- rev_app_distr, takewhile_dropwhile, rev_involutive. reflexivity.
Qed.

(** The file [_generate_output_path] names: the directory, a name and
    [.mdx]; the name has only lower-case letters, digits, [-] and [_],
    neither starts nor ends with [-], and has no [--]. *)
Theorem generate_output_path_is_url_friendly (input_path output_dir : pystr) :
  exists safe_name,
    _generate_output_path input_path output_dir
    = (match output_dir with
       | [] => []
       | _ => if endswith ["/"] output_dir then output_dir else output_dir ++ ["/"]
       end) ++ safe_name ++ str ".mdx"
    /\ Forall (fun c => safe_char c = true) safe_name
    /\ (forall r, safe_name <> "-" :: r)
    /\ (forall r, safe_name <> r ++ ["-"])
    /\ ~ occurs (str "--") safe_name.
Proof.
  unfold _generate_output_path.
  set (t1 := sub unsafe_char (fun _ _ => ["-"]) (path_stem input_path)).
  set (t3 := sub dashes (fun _ _ => ["-"]) (map lower t1)).
  set (t4 := dropwhile (Ascii.eqb "-") t3).
  set (safe_name := rev (dropwhile (Ascii.eqb "-") (rev t4))).
  exists safe_name. split.
  { destruct output_dir as [|d ds]; [reflexivity|].
    destruct (endswith ["/"] (d :: ds)); [reflexivity|].
    rewrite <- app_assoc. reflexivity. }
  assert (H3 : Forall (fun c => safe_char c = true) t3).
  { unfold t3, sub, pieces. apply sub_chars; [|repeat constructor].
    apply Forall_map. unfold t1, sub, pieces.
    eapply Forall_impl; [apply sub_unsafe_chars|]. intros c Hc. apply lower_safe, Hc. }
  assert (D3 : single_dashes false t3).
  { unfold t3, sub, pieces. apply sub_dashes_single. discriminate. }
  destruct (rstrip_char_prefix (Ascii.eqb "-") t4) as [t Ht]. fold safe_name in Ht.
  assert (H4 : Forall (fun c => safe_char c = true) t4).
  { unfold t4. apply FrontmatterFacts.Forall_dropwhile, H3. }
  split; [|split; [|split]].
  - rewrite Ht in H4. apply Forall_app in H4. apply H4.
  - intros r Hr.
    pose proof (dropwhile_head (Ascii.eqb "-") t3) as Hh. fold t4 in Hh.
    rewrite Ht, Hr in Hh. cbn in Hh. discriminate.
  - intros r Hr. unfold safe_name in Hr.
    apply (f_equal (@rev ascii)) in Hr. rewrite rev_involutive, rev_app_distr in Hr.
    cbn [rev app] in Hr.
    pose proof (dropwhile_head (Ascii.eqb "-") (rev t4)) as Hh.
    rewrite Hr in Hh. discriminate.
  - apply single_dashes_spec.
    apply (single_dashes_prefix false safe_name t). rewrite <- Ht.
    apply single_dashes_dropwhile, D3.
Qed.

End OutputPathFacts.

(** * Long lines
    ([clean_mdx.py], lines 87-96; [fix_mdx.py], lines 48-57) *)

Module LongLineFacts.
Import Py Re Spec PyFacts LineFacts.

(** The lines of a text put together from lines that were each changed on
    their own. *)
Lemma split_join_map (f : pystr -> pystr) (s : pystr) :
  (forall l, one_line l -> one_line (f l)) ->
  split_nl (join [nl] (map f (split_nl s))) = map f (split_nl s).
Proof.
  intros Hf. apply split_join_nl.
  - pose proof (split_nl_not_nil s) as Hne.
    destruct (split_nl s); [contradiction|discriminate].
  - apply Forall_map. eapply Forall_impl; [apply split_nl_lines|]. exact Hf.
Qed.



(** [clean_mdx.py]: no line of the cleaned content has more than 2000
    characters; a line of the content as it stands before this last step
    is kept when it has at most 2000 characters and replaced by the note
    otherwise. *)
Theorem clean_content_lines_at_most_2000 (content : pystr) :
  Forall (fun line => length line <= 2000) (split_nl (CleanMdx.clean_content content))
  /\ split_nl (CleanMdx.clean_content content)
     = map (fun line => if Nat.ltb 2000 (length line)
                        then CleanMdx.long_line_note else line)
         (split_nl (CleanMdx.escape_braces_outside_code
                      (CleanMdx.fix_html_tags content))).
Proof.
  unfold CleanMdx.clean_content.
  rewrite split_join_map.
  - split; [|reflexivity]. apply Forall_map, Forall_forall. intros l _.
    destruct (Nat.ltb 2000 (length l)) eqn:E.
    + vm_compute. lia.
    + apply Nat.ltb_ge in E. exact E.
  - intros l Hl. destruct (Nat.ltb 2000 (length l)); [|exact Hl].
    unfold one_line. vm_compute. intuition discriminate.
Qed.


End LongLineFacts.

(** * The result of [fix_mdx_issues] and the files it leaves
    ([fix_mdx_issues.py], lines 53-63 and 65-99) *)

Module FixMdxIssuesFacts.
Import Py Re Spec Notions PyFacts ReFacts IO FixMdxIssues.

(** One step of the last substitution. *)
Lemma sub_bare_amp_cons (prev : option ascii) (c : ascii) (r : pystr) :
  concat (map (fun p => match p with Lit x => [x] | Match _ _ => str "&amp;" end)
            (pieces_from bare_amp 0 prev (c :: r)))
  = (if Ascii.eqb c "&" && negb (entity r) then str "&amp;" else [c])
    ++ concat (map (fun p => match p with Lit x => [x] | Match _ _ => str "&amp;" end)
                 (pieces_from bare_amp 0 (Some c) r)).
Proof.
  cbn [pieces_from]. destruct (Ascii.eqb_spec c "&") as [->|Hc].
  - unfold bare_amp at 1. fold (entity r).
    destruct (entity r); reflexivity.
  - replace (bare_amp prev (c :: r)) with (@None found); [reflexivity|].
    unfold bare_amp. destruct c as [[] [] [] [] [] [] [] []]; try reflexivity.
    congruence.
Qed.

Lemma startswith_kept (w r : pystr) (prev : option ascii) :
  Forall (fun c => c <> "&") w -> startswith w r = true ->
  startswith w (concat (map (fun p => match p with
                                      | Lit x => [x]
                                      | Match _ _ => str "&amp;"
                                      end) (pieces_from bare_amp 0 prev r))) = true.
Proof.
  intros Hw. revert r prev. induction Hw as [|a w Ha _ IH]; intros r prev H.
  - reflexivity.
  - destruct r as [|c r]; [discriminate|]. cbn [startswith] in H.
    apply andb_true_iff in H. destruct H as [Hac H].
    apply Ascii.eqb_eq in Hac. subst c.
    rewrite sub_bare_amp_cons.
    rewrite (proj2 (Ascii.eqb_neq a "&") Ha). cbn [andb app startswith].
    rewrite Ascii.eqb_refl. cbn [andb]. apply IH, H.
Qed.

Lemma entity_kept (r : pystr) (prev : option ascii) :
  entity r = true ->
  entity (concat (map (fun p => match p with
                                | Lit x => [x]
                                | Match _ _ => str "&amp;"
                                end) (pieces_from bare_amp 0 prev r))) = true.
Proof.
  unfold entity. intros H. apply existsb_exists in H. destruct H as (w & Hin & Hw).
  apply existsb_exists. exists w. split; [exact Hin|].
  apply startswith_kept; [|exact Hw].
  cbn in Hin. destruct Hin as [<-|[<-|[<-|[<-|[<-|[]]]]]];
    repeat constructor; discriminate.
Qed.

(** After the last substitution every [&] starts an entity. *)
Lemma sub_bare_amp_entities (s : pystr) (prev : option ascii) (u v : pystr) :
  concat (map (fun p => match p with Lit x => [x] | Match _ _ => str "&amp;" end)
            (pieces_from bare_amp 0 prev s)) = u ++ "&" :: v ->
  entity v = true.
Proof.
  revert prev u. induction s as [|c r IH]; intros prev u H.
  - destruct u; discriminate.
  - rewrite sub_bare_amp_cons in H.
    destruct (Ascii.eqb c "&" && negb (entity r)) eqn:E.
    + change (str "&amp;") with ["&"; "a"; "m"; "p"; ";"] in H.
      destruct u as [|x1 u].
      * cbn [app] in H. injection H as <-. reflexivity.
      * cbn [app] in H. injection H as _ H.
        do 4 (destruct u as [|? u]; [discriminate|cbn [app] in H; injection H as _ H]).
        exact (IH _ _ H).
    + destruct u as [|x u].
      * cbn [app] in H. injection H as -> <-.
        cbn [andb] in E. rewrite Ascii.eqb_refl in E. cbn [andb] in E.
        apply negb_false_iff in E. apply entity_kept, E.
      * cbn [app] in H. injection H as _ H. exact (IH _ _ H).
Qed.

(** In the content [fix_mdx_issues] returns, every [&] starts one of the
    entities [&amp;], [&lt;], [&gt;], [&quot;] or a numeric reference. *)
Theorem fix_content_leaves_no_bare_ampersand (original_content u v : pystr) :
  fst (fst (fix_content original_content)) = u ++ "&" :: v -> entity v = true.
Proof.
  unfold fix_content. destruct (fix_braces original_content) as [content new_braces].
  cbn [fst]. unfold sub at 3, pieces. apply sub_bare_amp_entities.
Qed.

Lemma fix_content_leaves_no_bare_ampersand_witness :
  entity (str "amp; B &lt; C") = true.
Proof.
  apply (fix_content_leaves_no_bare_ampersand (str "A & B &lt; C") (str "A ")).
  vm_compute. reflexivity.
Defined.

Lemma backup_is_another_file (file_path : string) :
  (file_path ++ ".backup")%string <> file_path.
Proof.
  induction file_path as [|c f IH]; [discriminate|].
  cbn [String.append]. intros H. injection H as H. exact (IH H).
Qed.

(** A text without carriage returns is read as it is. *)
Lemma universal_newlines_plain (s : pystr) :
  Forall (fun c => c <> cr) s -> universal_newlines s = s.
Proof.
  unfold universal_newlines. induction 1 as [|c s Hc _ IH]; [reflexivity|].
  cbn [newlines_from].
  destruct (Ascii.eqb_spec c cr) as [->|_]; [contradiction|].
  destruct (Ascii.eqb_spec c nl) as [->|_]; rewrite IH; reflexivity.
Qed.

(** [main]'s step for one file.  It always returns.  A file that is read
    and needs fixes is rewritten with the fixed content, and the content
    as it was read, that is, with its line ends translated, is written to
    the file of the same name with [.backup] added; nothing else changes.
    The backup is the content the file had when that has no carriage
    return.  A file that needs no fix, cannot be decoded or does not exist
    leaves all files as they were. *)
Theorem check_file_keeps_a_backup (file_path : string) (w : world) :
  exists w',
    check_file file_path w = Return tt w'
    /\ match fs w !! file_path with
       | Some (Utf8 original) =>
           let '(fixed_content, _, was_modified) :=
             fix_content (universal_newlines original) in
           if was_modified : bool then
             fs w' = <[file_path := Utf8 fixed_content]>
                       (<[(file_path ++ ".backup")%string
                          := Utf8 (universal_newlines original)]> (fs w))
             /\ fs w' !! (file_path ++ ".backup")%string
                = Some (Utf8 (universal_newlines original))
             /\ (Forall (fun c => c <> cr) original ->
                 fs w' !! (file_path ++ ".backup")%string = Some (Utf8 original))
           else fs w' = fs w
       | _ => fs w' = fs w
       end.
Proof.
  unfold check_file, fix_mdx_issues, bind, try_except, read_text, print, write_text, ret.
  cbn [fs stdout].
  destruct (fs w !! file_path) as [[original|]|] eqn:E.
  - destruct (fix_content (universal_newlines original))
      as [[fixed_content fixes] was_modified].
    destruct was_modified.
    + cbn [fs stdout]. rewrite E. cbn [fs stdout]. eexists. split; [reflexivity|].
      cbn [fs]. split; [reflexivity|].
      assert (Hbackup : <[file_path := Utf8 fixed_content]>
                          (<[(file_path ++ ".backup")%string
                             := Utf8 (universal_newlines original)]> (fs w))
                        !! (file_path ++ ".backup")%string
                        = Some (Utf8 (universal_newlines original))).
      { rewrite lookup_insert_ne
          by (intros H; symmetry in H; exact (backup_is_another_file _ H)).
        apply lookup_insert_eq. }
      split; [exact Hbackup|].
      intros Hplain. rewrite Hbackup, (universal_newlines_plain original Hplain).
      reflexivity.
    + eexists. split; [reflexivity|]. reflexivity.
  - eexists. split; [reflexivity|]. reflexivity.
  - eexists. split; [reflexivity|]. reflexivity.
Qed.

(** The step at a page with a brace in its prose: the page is fixed and
    its content is kept in the backup. *)
Lemma check_file_keeps_a_backup_witness :
  let w := {| fs := <["docs/p.mdx"%string := Utf8 (str "a {b}")]> ∅;
              stdout := [] |} in
  exists w',
    check_file "docs/p.mdx" w = Return tt w'
    /\ fs w' !! "docs/p.mdx.backup"%string = Some (Utf8 (str "a {b}")).
Proof.
  intros w.
  destruct (check_file_keeps_a_backup "docs/p.mdx" w) as (w' & Hret & H).
  exists w'. split; [exact Hret|].
  unfold w in H. cbn [fs] in H. rewrite lookup_insert_eq in H.
  destruct (fix_content (universal_newlines (str "a {b}")))
    as [[fixed_content fixes] was_modified] eqn:E.
  vm_compute in E. injection E as <- <- <-.
  destruct H as (_ & _ & Hplain). apply Hplain.
  repeat constructor; discriminate.
Defined.

(** ** The step for [img] tags *)

Lemma pieces_prev (m : matcher) (s : pystr) (k : nat) (p q : option ascii) :
  (forall a b t, m a t = m b t) ->
  pieces_from m k p s = pieces_from m k q s.
Proof.
  intros Hm. revert k p q. induction s as [|c r IH]; intros k p q; [reflexivity|].
  cbn [pieces_from]. destruct k as [|k]; [|apply IH].
  rewrite (Hm p q). reflexivity.
Qed.

Lemma img_tag_passes (pre rest : pystr) (prev : option ascii) :
  Forall (fun c => c <> "<") pre ->
  pieces_from img_tag 0 prev (pre ++ rest)
  = map Lit pre ++ pieces_from img_tag 0 None rest.
Proof.
  intros H. revert prev. induction H as [|c pre Hc _ IH]; intros prev.
  - apply pieces_prev. reflexivity.
  - cbn [app map pieces_from].
    replace (img_tag prev (c :: pre ++ rest)) with (@None found).
    + rewrite IH. reflexivity.
    + unfold img_tag. cbn [str list_ascii_of_string startswith].
      rewrite (proj2 (Ascii.eqb_neq "<" c)) by congruence. reflexivity.
Qed.

Lemma before_app (stop : ascii) (u v : pystr) :
  Forall (fun c => c <> stop) u -> before stop (u ++ stop :: v) = Some u.
Proof.
  induction 1 as [|c u Hc _ IH]; cbn [app before].
  - rewrite Ascii.eqb_refl. reflexivity.
  - rewrite (proj2 (Ascii.eqb_neq c stop) Hc), IH. reflexivity.
Qed.

Lemma fix_img_tag_drops (attrs : pystr) (x : ascii) :
  endswith (str " /") (attrs ++ [x]) = false ->
  fix_img_tag (str "<img" ++ attrs ++ [x; ">"]) [] = str "<img" ++ attrs ++ str " />".
Proof.
  intros H. unfold fix_img_tag.
  replace (endswith (str " />") (str "<img" ++ attrs ++ [x; ">"])) with false.
  - rewrite !length_app. cbn [length str list_ascii_of_string].
    replace (4 + (length attrs + 2) - 2) with (length (str "<img" ++ attrs))
      by (rewrite length_app; cbn; lia).
    rewrite app_assoc, take_app_length. rewrite <- app_assoc. reflexivity.
  - symmetry. unfold endswith in *.
    assert (Hrev : rev (str "<img" ++ attrs ++ [x; ">"])
                   = ">" :: x :: rev attrs ++ ["g"; "m"; "i"; "<"]).
    { rewrite !rev_app_distr. reflexivity. }
    assert (Hrev' : rev (attrs ++ [x]) = x :: rev attrs)
      by (rewrite rev_app_distr; reflexivity).
    rewrite Hrev. rewrite Hrev' in H.
    change (rev (str " />")) with [">"; "/"; " "].
    change (rev (str " /")) with ["/"; " "] in H.
    cbn [startswith] in *. rewrite Ascii.eqb_refl. cbn [andb].
    destruct (Ascii.eqb "/" x); [|reflexivity]. cbn [andb] in *.
    destruct (rev attrs) as [|a l]; [reflexivity|exact H].
Qed.

(** The step for [img] tags on the first tag of a text: unless the tag
    ends with a space and [/>] already, the character before its [>] is
    replaced by a space and [/>], whether that character is a [/] or
    the last character of an attribute; the text before the tag stays. *)
Theorem img_step_replaces_the_last_character (pre attrs post : pystr) (x : ascii) :
  Forall (fun c => c <> "<") pre ->
  Forall (fun c => c <> ">") (attrs ++ [x]) ->
  endswith (str " /") (attrs ++ [x]) = false ->
  sub img_tag fix_img_tag (pre ++ str "<img" ++ attrs ++ [x; ">"] ++ post)
  = pre ++ str "<img" ++ attrs ++ str " />" ++ sub img_tag fix_img_tag post.
Proof.
  intros Hpre Hattrs Hend. unfold sub, pieces.
  rewrite img_tag_passes by exact Hpre.
  rewrite map_app, concat_app. f_equal.
  { induction pre as [|c pre IH]; [reflexivity|]. cbn [map concat app]. f_equal.
    apply IH. inversion Hpre; assumption. }
  assert (Hm : img_tag None (str "<img" ++ attrs ++ [x; ">"] ++ post)
               = Some {| span := S (4 + length attrs + 1); groups := [] |}).
  { unfold img_tag. rewrite startswith_app.
    change (drop 4 (str "<img" ++ attrs ++ [x; ">"] ++ post))
      with (attrs ++ [x; ">"] ++ post).
    change (attrs ++ [x; ">"] ++ post) with (attrs ++ [x] ++ ">" :: post).
    rewrite app_assoc, before_app by exact Hattrs.
    unfold found_of. rewrite length_app. cbn [length]. do 2 f_equal. lia. }
  assert (Hsplit : str "<img" ++ attrs ++ [x; ">"] ++ post
                   = (str "<img" ++ attrs ++ [x; ">"]) ++ post).
  { rewrite <- !app_assoc. reflexivity. }
  assert (Hlen : S (4 + length attrs + 1) = length (str "<img" ++ attrs ++ [x; ">"])).
  { rewrite !length_app. cbn. lia. }
  rewrite (pieces_match img_tag None _ _ [] Hm).
  2:{ rewrite Hsplit, length_app, <- Hlen. lia. }
  rewrite Hsplit, Hlen, take_app_length, drop_app_length.
  cbn [map concat]. rewrite fix_img_tag_drops by exact Hend.
  rewrite <- !app_assoc. do 3 f_equal.
  apply f_equal. apply f_equal. apply pieces_prev. reflexivity.
Qed.

Lemma img_step_replaces_the_last_character_witness :
  sub img_tag fix_img_tag
    (str "See " ++ str "<img" ++ (str " src=" ++ [dquote] ++ str "a.png") ++ [dquote; ">"]
     ++ str " here")
  = str "See " ++ str "<img" ++ (str " src=" ++ [dquote] ++ str "a.png") ++ str " />"
    ++ sub img_tag fix_img_tag (str " here").
Proof.
  apply img_step_replaces_the_last_character.
  - repeat constructor; discriminate.
  - repeat constructor; discriminate.
  - reflexivity.
Defined.

End FixMdxIssuesFacts.

(** * The files [clean_mdx.py] touches
    ([clean_mdx.py], lines 41-118) *)

Module CleanMdxFacts.
Import Py Re Spec Notions PyFacts ReFacts IO CleanMdx.

(** [clean_mdx_file] changes no other file than its own, whether it
    returns or raises. *)
Lemma clean_mdx_file_frame (file_path g : string) (w : world) :
  g <> file_path ->
  fs (world_of (clean_mdx_file file_path w)) !! g = fs w !! g.
Proof.
  intros Hg. unfold clean_mdx_file, bind, read_text, print, write_text.
  destruct (fs w !! file_path) as [[content|]|]; cbn [world_of fs]; try reflexivity.
  apply lookup_insert_ne. congruence.
Qed.

Lemma for_each_frame (files : list string) (g : string) (w : world) :
  ~ In g files ->
  fs (world_of (for_each files clean_mdx_file w)) !! g = fs w !! g.
Proof.
  revert w. induction files as [|f files IH]; intros w Hg; [reflexivity|].
  cbn [for_each]. unfold bind at 1.
  pose proof (clean_mdx_file_frame f g w) as Hf.
  destruct (clean_mdx_file f w) as [[] w1|e w1]; cbn [world_of] in *.
  - rewrite IH by (intros Hin; apply Hg; right; exact Hin).
    apply Hf. intros ->. apply Hg. left. reflexivity.
  - apply Hf. intros ->. apply Hg. left. reflexivity.
Qed.

(** [main] leaves alone every file it was not given and every file whose
    name ends with [index.mdx], whether it runs to the end or stops at a
    file it cannot read. *)
Theorem main_skips_index_files (globbed : list string) (g : string) (w : world) :
  ~ In g globbed \/ endswith (str "index.mdx") (str g) = true ->
  fs (world_of (main globbed w)) !! g = fs w !! g.
Proof.
  intros Hg. unfold main.
  set (mdx_files := List.filter _ globbed).
  assert (Hnot : ~ In g mdx_files).
  { unfold mdx_files. intros Hin. apply List.filter_In in Hin. destruct Hin as [Hin Hf].
    destruct Hg as [Hg|Hg]; [exact (Hg Hin)|]. rewrite Hg in Hf. discriminate. }
  unfold bind at 1. unfold print at 1. unfold bind at 1.
  match goal with |- context [for_each mdx_files clean_mdx_file ?w0] =>
    pose proof (for_each_frame mdx_files g w0 Hnot) as Hfe;
    destruct (for_each mdx_files clean_mdx_file w0) as [[] w1|e w1]
  end; cbn [world_of fs] in *; exact Hfe.
Qed.

Lemma main_skips_index_files_witness :
  let w := {| fs := <["docs/index.mdx"%string := Utf8 (str "{x}")]>
                      (<["docs/a.mdx"%string := Utf8 (str "{y}")]> ∅);
              stdout := [] |} in
  fs (world_of (main ["docs/a.mdx"; "docs/index.mdx"]%string w)) !! "docs/index.mdx"%string
  = Some (Utf8 (str "{x}")).
Proof.
  intros w.
  etransitivity;
    [apply (main_skips_index_files ["docs/a.mdx"; "docs/index.mdx"]%string
              "docs/index.mdx"%string w); right; vm_compute; reflexivity|].
  reflexivity.
Defined.

End CleanMdxFacts.

(** * The title and the heading in [add_frontmatter.py]
    ([add_frontmatter.py], lines 10-57) *)

Module AddFrontmatterFacts.
Import Py Re Tags Spec Notions Alchemist PyFacts ReFacts TitleFacts.
Import AddFrontmatterFile.

Lemma longest_some (f : nat -> option found) (n : nat) (x : found) :
  longest f n = Some x -> exists e, f e = Some x.
Proof.
  induction n as [|n IH]; cbn [longest]; [discriminate|].
  destruct (f (S n)) eqn:E; [|exact IH].
  intros H. injection H as <-. exists (S n). exact E.
Qed.

(** A heading found has at least its [#]. *)
Lemma h1_span (prev : option ascii) (s : pystr) (f : found) :
  h1 prev s = Some f -> exists n, span f = S n.
Proof.
  unfold h1. destruct s as [|c r]; [discriminate|].
  destruct (Ascii.eqb_spec c "#") as [->|Hc].
  - destruct (at_line_start prev); [|discriminate].
    intros H. apply longest_some in H. destruct H as [e H].
    unfold heading_at in H. destruct (drop e r) as [|d l]; [discriminate|].
    destruct (Ascii.eqb d nl); [discriminate|].
    injection H as <-. eexists. reflexivity.
  - destruct c as [[] [] [] [] [] [] [] []]; try discriminate. congruence.
Qed.

(** Where the search for the heading passes over the text, so does the
    substitution that removes the heading line. *)
Lemma h1_line_passes (u rest : pystr) (prev : option ascii) (X : list piece) :
  pieces_from h1 0 prev (u ++ rest) = map Lit u ++ X ->
  pieces_from h1_line 0 prev (u ++ rest)
  = map Lit u ++ pieces_from h1_line 0 (last_of u prev) rest.
Proof.
  revert prev X. induction u as [|c u IH]; intros prev X H; [reflexivity|].
  cbn [app map pieces_from] in *. rewrite last_of_cons.
  unfold h1_line at 1.
  destruct (h1 prev (c :: u ++ rest)) as [f|] eqn:E.
  - destruct (h1_span _ _ _ E) as [n Hn]. destruct f as [sp gs]. cbn [span] in Hn.
    subst sp. discriminate.
  - injection H as H. rewrite (IH _ _ H). reflexivity.
Qed.

(** The lines before the heading are passed over by the search. *)
Lemma pieces_h1_lines (lines : list pystr) (rest : pystr) (prev : option ascii) :
  Forall (fun l => not_heading l = true /\ one_line l) lines ->
  exists X,
    pieces_from h1 0 prev (concat (map (fun l => l ++ [nl]) lines) ++ rest)
    = map Lit (concat (map (fun l => l ++ [nl]) lines)) ++ X.
Proof.
  intros H. revert prev. induction H as [|l lines [Hn Hl] _ IH]; intros prev.
  - eexists. reflexivity.
  - cbn [map concat]. rewrite <- !app_assoc.
    destruct (pieces_h1_line l ([nl] ++ concat (map (fun l0 => l0 ++ [nl]) lines) ++ rest)
                prev Hl Hn) as [p1 Hp1]; [reflexivity|].
    rewrite Hp1.
    change ([nl] ++ concat (map (fun l0 => l0 ++ [nl]) lines) ++ rest)
      with (nl :: (concat (map (fun l0 => l0 ++ [nl]) lines) ++ rest)).
    cbn [pieces_from].
    replace (h1 p1 (nl :: concat (map (fun l0 => l0 ++ [nl]) lines) ++ rest))
      with (@None found) by reflexivity.
    destruct (IH (Some nl)) as [X HX]. rewrite HX.
    exists X. rewrite !map_app. cbn [map app]. rewrite <- !app_assoc. reflexivity.
Qed.

Lemma first_replaced_lits (repl : pystr -> list pystr -> pystr) (u : pystr)
    (ps : list piece) :
  first_replaced repl (map Lit u ++ ps) = u ++ first_replaced repl ps.
Proof. induction u as [|c u IH]; cbn; [reflexivity|rewrite IH; reflexivity]. Qed.

Lemma lines_end_at_line_start (lines : list pystr) :
  at_line_start (last_of (concat (map (fun l => l ++ [nl]) lines)) None) = true.
Proof.
  induction lines as [|l lines _] using rev_ind; [reflexivity|].
  rewrite map_app, concat_app. cbn [map concat]. rewrite app_nil_r, app_assoc.
  unfold last_of. rewrite rev_app_distr. reflexivity.
Qed.

(** The heading line is what the substitution removes, with the newline
    that ends it. *)
Lemma remove_heading_line (ws heading tail : pystr) (prev : option ascii) :
  at_line_start prev = true ->
  ws <> [] ->
  Forall (fun c => isspace c = true) ws ->
  (exists b rest, heading = b :: rest /\ isspace b = false) ->
  one_line heading ->
  match tail with [] => True | c :: _ => c = nl end ->
  first_replaced (fun _ _ => []) (pieces_from h1_line 0 prev (heading_line ws heading ++ tail))
  = drop 1 tail.
Proof.
  intros Hprev Hws Hsp Hhead Hone Htail.
  pose proof (h1_heading ws heading tail prev Hprev Hws Hsp Hhead Hone Htail) as Hm.
  assert (Hdrop : drop (1 + length ws + length heading) (heading_line ws heading ++ tail)
                  = tail).
  { unfold heading_line. cbn [app plus drop].
    rewrite <- length_app. apply drop_app_length. }
  unfold heading_line in *. cbn [app] in *. cbn [pieces_from].
  unfold h1_line at 1. rewrite Hm. unfold found_of. cbn [span groups].
  rewrite Hdrop. destruct tail as [|t tail].
  - cbn [next_is plus first_replaced app]. rewrite RoundTripFacts.pieces_raw.
    cbn [plus drop] in Hdrop. exact Hdrop.
  - subst t. cbn [next_is]. rewrite Ascii.eqb_refl.
    cbn [plus first_replaced app]. rewrite RoundTripFacts.pieces_raw.
    cbn [plus drop] in Hdrop.
    replace (S (length ws + length heading)) with (length ws + length heading + 1) by lia.
    rewrite <- drop_drop, Hdrop. reflexivity.
Qed.

(** [add_frontmatter.py] takes the title from the first level-1 heading
    and removes that heading line from the content; when no line begins
    with [#] followed by white space or by the end of the line, the title
    comes from the file name ([.md] removed, [_] and [-] turned into
    spaces, title-cased) and the content stays.  The title from the file
    name is stated for the names whose title case is a text of the
    model. *)
Theorem title_and_content_lifts_the_heading (md_file : string) :
  (forall before after ws heading,
      Forall (fun l => not_heading l = true /\ one_line l) before ->
      ws <> [] -> Forall (fun x => isspace x = true) ws -> one_line ws ->
      (exists b tl, heading = b :: tl /\ isspace b = false) ->
      one_line heading ->
      title_and_content md_file (join [nl] (before ++ heading_line ws heading :: after))
      = (strip heading,
         concat (map (fun l => l ++ [nl]) before) ++ join [nl] after))
  /\ (forall lines,
        Forall (fun l => not_heading l = true /\ one_line l) lines ->
        title_fits (replace ["-"] [" "]
                      (replace ["_"] [" "]
                         (replace (str ".md") [] (FixMdxIssues.basename md_file))))
        = true ->
        title_and_content md_file (join [nl] lines)
        = (title (replace ["-"] [" "]
                    (replace ["_"] [" "]
                       (replace (str ".md") [] (FixMdxIssues.basename md_file)))),
           join [nl] lines)).
Proof.
  split.
  - intros before after ws heading Hbefore Hws Hsp Hwsone Hhead Hone.
    unfold title_and_content.
    destruct (search_h1_heading before after ws heading Hbefore Hws Hsp Hhead Hone Hwsone)
      as [whole ->].
    f_equal. unfold sub_first, pieces.
    rewrite join_nl_app by discriminate.
    destruct (pieces_h1_lines before (join [nl] (heading_line ws heading :: after)) None
                Hbefore) as [X HX].
    rewrite (h1_line_passes _ _ _ _ HX), first_replaced_lits. f_equal.
    destruct after as [|a after].
    + cbn [join].
      rewrite <- (app_nil_r (heading_line ws heading)).
      rewrite remove_heading_line; try assumption; [reflexivity| |exact I].
      apply lines_end_at_line_start.
    + change (join [nl] (heading_line ws heading :: a :: after))
        with (heading_line ws heading ++ nl :: join [nl] (a :: after)).
      rewrite remove_heading_line; try assumption; [reflexivity| |reflexivity].
      apply lines_end_at_line_start.
  - intros lines Hlines _. unfold title_and_content.
    rewrite (search_h1_none lines Hlines). reflexivity.
Qed.

Lemma title_and_content_lifts_the_heading_witness :
  title_and_content "docs/my_first-page.md"
    (str "intro" ++ nl :: str "# First Steps " ++ nl :: str "Hello")
  = (str "First Steps", str "intro" ++ nl :: str "Hello")
  /\ title_and_content "docs/my_first-page.md" (str "intro" ++ nl :: str "#hashtag")
     = (str "My First Page", str "intro" ++ nl :: str "#hashtag").
Proof.
  split.
  - apply (proj1 (title_and_content_lifts_the_heading "docs/my_first-page.md")
             [str "intro"] [str "Hello"] [" "] (str "First Steps ")).
    + repeat constructor; one_line_tac.
    + discriminate.
    + repeat constructor.
    + one_line_tac.
    + eexists _, _. split; reflexivity.
    + one_line_tac.
  - apply (proj2 (title_and_content_lifts_the_heading "docs/my_first-page.md")
             [str "intro"; str "#hashtag"]).
    + repeat constructor; one_line_tac.
    + reflexivity.
Defined.

(** ** The files *)

Lemma replace_from_length (old new s : pystr) (k : nat) :
  old <> [] -> length old <= length new ->
  length s <= length (replace_from k old new s) + Nat.min k (length s).
Proof.
  intros Hold Hlen.
  assert (Hpos : 0 < length old) by (destruct old; [contradiction|cbn; lia]).
  revert k. induction s as [|c r IH]; intros k.
  - cbn. lia.
  - cbn [replace_from]. destruct k as [|k].
    + destruct (startswith old (c :: r)) eqn:E.
      * rewrite length_app. specialize (IH (length old - 1)). cbn [length].
        apply startswith_prefix in E. destruct E as [t E].
        apply (f_equal (@length ascii)) in E. rewrite length_app in E.
        cbn [length] in E. lia.
      * specialize (IH 0). cbn [length]. lia.
    + specialize (IH k). cbn [length]. lia.
Qed.

(** Replacing a word by a longer one makes a text that has the word
    longer. *)
Lemma replace_longer (old new s : pystr) :
  old <> [] -> length old < length new -> occurs old s ->
  length s < length (replace old new s).
Proof.
  intros Hold Hlen (u & v & ->). unfold replace.
  assert (Hpos : 0 < length old) by (destruct old; [contradiction|cbn; lia]).
  induction u as [|c u IH].
  - cbn [app]. destruct old as [|a old]; [contradiction|].
    cbn [app replace_from].
    rewrite (startswith_app (a :: old) v : startswith (a :: old) (a :: old ++ v) = true).
    rewrite length_app.
    pose proof (replace_from_length (a :: old) new (old ++ v) (length old)
                  Hold ltac:(lia)) as H.
    rewrite length_app in H. cbn [length] in *. rewrite length_app.
    replace (S (length old) - 1) with (length old) by lia. lia.
  - cbn [app replace_from].
    destruct (startswith old (c :: u ++ old ++ v)) eqn:E.
    + rewrite length_app.
      pose proof (replace_from_length old new (u ++ old ++ v) (length old - 1)
                    Hold ltac:(lia)) as H.
      apply startswith_prefix in E. destruct E as [t E].
      apply (f_equal (@length ascii)) in E. rewrite length_app in E.
      cbn [length] in *. lia.
    + cbn [length]. lia.
Qed.

Lemma mdx_path_differs (md_file : string) :
  occurs (str ".md") (str md_file) -> ConvertMdToMdx.mdx_path md_file <> md_file.
Proof.
  intros Hocc Heq. unfold ConvertMdToMdx.mdx_path in Heq.
  apply (f_equal list_ascii_of_string) in Heq.
  rewrite list_ascii_of_string_of_list_ascii in Heq.
  pose proof (replace_longer (str ".md") (str ".mdx") (str md_file)
                ltac:(discriminate) ltac:(cbn; lia) Hocc) as H.
  unfold str in *. rewrite Heq in H. lia.
Qed.

(** [add_frontmatter.py] on a file it can read, whose path has [.md] in
    its base name only, so that the page is written into the directory of
    the file read: the page is made from the content as it is read, with
    its line ends translated, and written to the path with every [.md]
    replaced by [.mdx]; the [.md] file no longer exists, and no other file
    changes. *)
Theorem convert_replaces_the_md_file (chart_icon : pystr) (md_file : string)
    (content : pystr) (w : IO.world) :
  IO.fs w !! md_file = Some (IO.Utf8 content) ->
  occurs (str ".md") (str md_file) ->
  directory (ConvertMdToMdx.mdx_path md_file) = directory md_file ->
  exists w',
    convert_md_to_mdx chart_icon md_file w = IO.Return tt w'
    /\ IO.fs w' !! md_file = None
    /\ IO.fs w' !! ConvertMdToMdx.mdx_path md_file
       = Some (IO.Utf8 (page chart_icon md_file (IO.universal_newlines content)))
    /\ forall other, other <> md_file -> other <> ConvertMdToMdx.mdx_path md_file ->
         IO.fs w' !! other = IO.fs w !! other.
Proof.
  intros Hread Hocc _. pose proof (mdx_path_differs md_file Hocc) as Hne.
  unfold convert_md_to_mdx, IO.bind, IO.read_text, IO.write_text, remove, IO.print.
  rewrite Hread. cbn [IO.fs IO.stdout].
  rewrite lookup_insert_ne by exact Hne. rewrite Hread.
  eexists. split; [reflexivity|]. cbn [IO.fs]. split; [|split].
  - apply lookup_delete_eq.
  - rewrite lookup_delete_ne by congruence. apply lookup_insert_eq.
  - intros other H1 H2. rewrite lookup_delete_ne by congruence.
    apply lookup_insert_ne. congruence.
Qed.

Lemma convert_replaces_the_md_file_witness :
  let w := {| IO.fs := <["docs/a.md"%string
                         := IO.Utf8 (str "# A" ++ [cr; nl] ++ str "text")]> ∅;
              IO.stdout := [] |} in
  exists w',
    convert_md_to_mdx (str "*") "docs/a.md" w = IO.Return tt w'
    /\ IO.fs w' !! "docs/a.md"%string = None
    /\ IO.fs w' !! "docs/a.mdx"%string
       = Some (IO.Utf8 (page (str "*") "docs/a.md" (str "# A" ++ [nl] ++ str "text")))
    /\ forall other, other <> "docs/a.md"%string -> other <> "docs/a.mdx"%string ->
         IO.fs w' !! other = IO.fs w !! other.
Proof.
  intros w.
  apply (convert_replaces_the_md_file (str "*") "docs/a.md"
           (str "# A" ++ [cr; nl] ++ str "text") w).
  - reflexivity.
  - exists (str "docs/a"), []. reflexivity.
  - reflexivity.
Defined.

End AddFrontmatterFacts.

(** * The header of the document
    ([jupyter_to_docusaurus.py], lines 23-50 and 66-99) *)

Module DocumentFacts.
Import Py Re Spec Notions Alchemist PyFacts ReFacts LineFacts AlchemistFacts.



End DocumentFacts.

(** * The files [convert_md_to_mdx.py] leaves alone
    ([docs/jupyter/convert_md_to_mdx.py], lines 55-93) *)

Module ConvertDriverFacts.
Import Py Re Spec Notions PyFacts ReFacts IO.

(** The first character of a text after [.md] was replaced, when it is
    not the dot of a replacement. *)
Lemma replace_md_head (c : ascii) (r t : pystr) :
  c <> "." ->
  replace_from 0 (str ".md") (str ".mdx") r = c :: t ->
  exists r1, r = c :: r1 /\ t = replace_from 0 (str ".md") (str ".mdx") r1.
Proof.
  intros Hc H. destruct r as [|x r1]; [discriminate|].
  cbn [replace_from] in H.
  destruct (startswith (str ".md") (x :: r1)).
  - cbn in H. injection H as H _. congruence.
  - injection H as -> <-. exists r1. split; reflexivity.
Qed.

(** After [.md] was replaced by [.mdx] a text does not end with [.md]. *)
Lemma replace_md_not_at_end (s : pystr) (k : nat) (u : pystr) :
  replace_from k (str ".md") (str ".mdx") s <> u ++ str ".md".
Proof.
  revert k u. induction s as [|c r IH]; intros k u.
  - destruct k; cbn [replace_from]; destruct u; discriminate.
  - cbn [replace_from]. destruct k as [|k]; [|apply IH].
    destruct (startswith (str ".md") (c :: r)) eqn:E.
    + change (length (str ".md") - 1) with 2. intros H.
      destruct u as [|u1 [|u2 [|u3 [|u4 u]]]]; try discriminate.
      cbn in H. injection H as _ _ _ _ H. exact (IH 2 u H).
    + intros H. destruct u as [|u1 u].
      * cbn [app] in H. injection H as -> H.
        apply replace_md_head in H; [|discriminate].
        destruct H as (r1 & -> & H). symmetry in H.
        apply replace_md_head in H; [|discriminate].
        destruct H as (r2 & -> & _). discriminate.
      * cbn [app] in H. injection H as _ H. exact (IH 0 u H).
Qed.

Lemma endswith_suffix (x y : pystr) : endswith x y = true -> exists u, y = u ++ x.
Proof.
  unfold endswith. intros H. apply startswith_prefix in H. destruct H as [t H].
  exists (rev t). apply (f_equal (@rev ascii)) in H.
  rewrite rev_involutive, rev_app_distr, rev_involutive in H. exact H.
Qed.

Lemma mdx_path_is_no_md_file (f g : string) :
  endswith (str ".md") (str g) = true -> g <> ConvertMdToMdx.mdx_path f.
Proof.
  intros Hg ->. apply endswith_suffix in Hg. destruct Hg as [u Hu].
  unfold ConvertMdToMdx.mdx_path, str in Hu.
  rewrite list_ascii_of_string_of_list_ascii in Hu.
  exact (replace_md_not_at_end _ 0 u Hu).
Qed.

Section Driver.

Variable rewrite : string -> pystr -> pystr.

(** The loop writes to no other path than the [.mdx] paths of its files. *)
Lemma convert_all_frame (md_files converted : list string) (w : world) (g : string) :
  (forall f, In f md_files -> g <> ConvertMdToMdx.mdx_path f) ->
  exists converted' w',
    ConvertMdToMdx.convert_all rewrite md_files converted w = Return converted' w'
    /\ fs w' !! g = fs w !! g.
Proof.
  revert converted w. induction md_files as [|f rest IH]; intros converted w Hg.
  - exists converted, w. split; reflexivity.
  - assert (Hrest : forall f0, In f0 rest -> g <> ConvertMdToMdx.mdx_path f0)
      by (intros f0 H0; apply Hg; right; exact H0).
    assert (Hf : g <> ConvertMdToMdx.mdx_path f) by (apply Hg; left; reflexivity).
    cbn [ConvertMdToMdx.convert_all].
    unfold ConvertMdToMdx.convert_md_to_mdx.
    unfold bind, try_except, read_text, print, write_text, ret. cbn [fs stdout].
    destruct (fs w !! f) as [[t|]|] eqn:E;
      match goal with
      | |- context [ConvertMdToMdx.convert_all rewrite rest ?c ?w1] =>
          destruct (IH c w1 Hrest) as (c' & w' & Hrun & Hfs);
          exists c', w'; split; [exact Hrun|]; rewrite Hfs; cbn [fs];
          try reflexivity
      end.
    apply lookup_insert_ne. congruence.
Qed.

Lemma for_each_print_frame (h : string -> pystr) (xs : list string) (w : world) :
  exists w', for_each xs (fun f => print (h f)) w = Return tt w' /\ fs w' = fs w.
Proof.
  revert w. induction xs as [|x xs IH]; intros w.
  - exists w. split; reflexivity.
  - cbn [for_each]. unfold bind at 1. unfold print at 1.
    destruct (IH {| fs := fs w; stdout := stdout w ++ [h x] |}) as (w' & Hrun & Hfs).
    exists w'. split; [exact Hrun|exact Hfs].
Qed.

(** What the script prints at its end is true: [main] returns, and every
    file whose name ends with [.md] is as it was; so is every file that is
    not the [.mdx] path of one of the files converted. *)
Theorem main_preserves_the_md_files (md_files : list string) (w : world) (g : string) :
  endswith (str ".md") (str g) = true
  \/ (forall f, In f md_files -> g <> ConvertMdToMdx.mdx_path f) ->
  exists w',
    ConvertMdToMdx.main rewrite md_files w = Return tt w'
    /\ fs w' !! g = fs w !! g.
Proof.
  intros Hg.
  assert (Hframe : forall f, In f md_files -> g <> ConvertMdToMdx.mdx_path f).
  { destruct Hg as [Hg|Hg]; [|exact Hg]. intros f _. apply mdx_path_is_no_md_file, Hg. }
  clear Hg. destruct md_files as [|f0 rest].
  - eexists. split; reflexivity.
  - remember (f0 :: rest) as files eqn:Hfiles.
    assert (Hmain : ConvertMdToMdx.main rewrite files
                    = (IO.print (str "Found " ++ str_of_nat (length files)
                                 ++ str " .md files to convert:") >>>
                       let! converted_files := ConvertMdToMdx.convert_all rewrite files [] in
                       IO.print [] >>>
                       IO.print (str "Conversion complete! Created "
                                 ++ str_of_nat (length converted_files)
                                 ++ str " .mdx files:") >>>
                       IO.for_each converted_files (fun f => IO.print (str "  " ++ str f)) >>>
                       IO.print [] >>>
                       IO.print (str "Note: Original .md files are preserved.") >>>
                       IO.print (str "You can now use the .mdx files in your Docusaurus project."))%io).
    { rewrite Hfiles. reflexivity. }
    rewrite Hmain. clear Hmain Hfiles.
    destruct (convert_all_frame files []
                {| fs := fs w;
                   stdout := stdout w ++ [str "Found " ++ str_of_nat (length files)
                                          ++ str " .md files to convert:"] |} g Hframe)
      as (conv & w1 & Hrun & Hfs).
    destruct (for_each_print_frame (fun f => str "  " ++ str f) conv
                {| fs := fs {| fs := fs w1; stdout := stdout w1 ++ [[]] |};
                   stdout := stdout {| fs := fs w1; stdout := stdout w1 ++ [[]] |}
                             ++ [str "Conversion complete! Created "
                                 ++ str_of_nat (length conv) ++ str " .mdx files:"] |})
      as (w2 & Hlist & Hfs2).
    eexists. split.
    + unfold bind at 1. unfold print at 1. unfold bind at 1. rewrite Hrun.
      unfold bind at 1. unfold print at 1. unfold bind at 1. unfold print at 1.
      unfold bind at 1. rewrite Hlist. reflexivity.
    + cbn [fs]. rewrite Hfs2. cbn [fs]. exact Hfs.
Qed.

End Driver.

Lemma main_preserves_the_md_files_witness :
  let w := {| fs := <["notes.md"%string := Utf8 (str "# Notes")]> ∅; stdout := [] |} in
  exists w',
    ConvertMdToMdx.main (fun _ text => text) ["notes.md"%string] w = Return tt w'
    /\ fs w' !! "notes.md"%string = fs w !! "notes.md"%string.
Proof.
  intros w.
  apply (main_preserves_the_md_files (fun _ text => text) ["notes.md"%string] w
           "notes.md"%string).
  left. vm_compute. reflexivity.
Defined.

End ConvertDriverFacts.

(** * The description of a notebook
    ([jupyter_to_docusaurus.py], lines 101-118) *)

Module NotebookDescriptionFacts.
Import Py Re Spec Notions Alchemist PyFacts ReFacts.

Lemma find_first_line (before after : list pystr) (line : pystr) :
  Forall (fun l => describes_notebook l = false) before ->
  describes_notebook line = true ->
  List.find (fun l => negb (startswith ["#"] l) && Nat.ltb 20 (length l))
    (List.filter (fun l => negb (Nat.eqb (length l) 0))
       (map strip (before ++ line :: after)))
  = Some (strip line).
Proof.
  intros Hbefore Hline. induction Hbefore as [|b before Hb _ IH].
  - cbn [app map List.filter].
    unfold describes_notebook in Hline. apply andb_true_iff in Hline.
    destruct Hline as [H1 H2]. apply Nat.ltb_lt in H2.
    destruct (Nat.eqb_spec (length (strip line)) 0) as [E|_]; [lia|].
    cbn [negb List.find]. rewrite H1. cbn [andb].
    rewrite (proj2 (Nat.ltb_lt _ _) H2). reflexivity.
  - cbn [app map List.filter].
    destruct (negb (Nat.eqb (length (strip b)) 0)); [|exact IH].
    cbn [List.find]. unfold describes_notebook in Hb. rewrite Hb. exact IH.
Qed.

Lemma find_no_line (lines : list pystr) :
  Forall (fun l => describes_notebook l = false) lines ->
  List.find (fun l => negb (startswith ["#"] l) && Nat.ltb 20 (length l))
    (List.filter (fun l => negb (Nat.eqb (length l) 0)) (map strip lines))
  = None.
Proof.
  induction 1 as [|b lines Hb _ IH]; [reflexivity|].
  cbn [map List.filter].
  destruct (negb (Nat.eqb (length (strip b)) 0)); [|exact IH].
  cbn [List.find]. unfold describes_notebook in Hb. rewrite Hb. exact IH.
Qed.

Lemma description_loop_skips (skipped rest : list Cell) :
  Forall without_description skipped ->
  description_loop (skipped ++ rest) = description_loop rest.
Proof.
  induction 1 as [|c skipped Hc _ IH]; [reflexivity|].
  cbn [app description_loop]. destruct Hc as [Hc|Hc].
  - rewrite Hc. exact IH.
  - destruct (is_type "markdown" (cell_type c)); [|exact IH].
    rewrite (find_no_line _ Hc). exact IH.
Qed.

(** The description of a notebook.  A description in the metadata is
    returned as it is.  Without one, the description is the first line of
    the markdown cells, in their order, that, stripped, is no heading and
    has more than 20 characters; and the fixed text when there is no such
    line. *)
Theorem description_is_the_first_long_line (nb : Notebook) (st : state) :
  (forall d, metadata nb !! "description"%string = Some d ->
             fst (_extract_description nb st) = d)
  /\ (metadata nb !! "description"%string = None ->
      forall skipped c rest before line after,
        cells nb = skipped ++ c :: rest ->
        Forall without_description skipped ->
        is_type "markdown" (cell_type c) = true ->
        split_nl (concat (source c)) = before ++ line :: after ->
        Forall (fun l => describes_notebook l = false) before ->
        describes_notebook line = true ->
        fst (_extract_description nb st) = strip line)
  /\ (metadata nb !! "description"%string = None ->
      Forall without_description (cells nb) ->
      fst (_extract_description nb st) = default_description).
Proof.
  unfold _extract_description. split; [|split].
  - intros d ->. reflexivity.
  - intros -> skipped c rest before line after Hcells Hskipped Hc Hlines Hbefore Hline.
    rewrite Hcells, (description_loop_skips skipped (c :: rest) Hskipped).
    cbn [description_loop]. rewrite Hc, Hlines.
    rewrite (find_first_line before after line Hbefore Hline). reflexivity.
  - intros -> Hcells.
    rewrite <- (app_nil_r (cells nb)), (description_loop_skips (cells nb) [] Hcells).
    reflexivity.
Qed.

Lemma description_is_the_first_long_line_witness :
  let st := {| self := init; stdout := [] |} in
  let code := {| cell_type := Some "code"%string;
                 source := [str "print('a line of code that is long enough')"];
                 outputs := [] |} in
  let intro := {| cell_type := Some "markdown"%string;
                  source := [str "# A heading that is long enough" ++ [nl];
                             str "short" ++ [nl];
                             str "  This notebook shows the basics.  " ++ [nl];
                             str "Another long line that comes too late"];
                  outputs := [] |} in
  fst (_extract_description {| metadata := ∅; cells := [code; intro] |} st)
  = str "This notebook shows the basics.".
Proof.
  intros st code intro.
  refine (proj1 (proj2 (description_is_the_first_long_line
                          {| metadata := ∅; cells := [code; intro] |} st))
            _ [code] intro []
            [str "# A heading that is long enough"; str "short"]
            (str "  This notebook shows the basics.  ")
            [str "Another long line that comes too late"] _ _ _ _ _ _).
  - apply lookup_empty.
  - reflexivity.
  - constructor; [left; reflexivity|constructor].
  - reflexivity.
  - reflexivity.
  - repeat constructor.
  - reflexivity.
Defined.

End NotebookDescriptionFacts.

(** * [fix_mdx_issues] on a text without code and tags
    ([fix_mdx_issues.py], lines 8-63) *)

Module ProseFacts.
Import Py Re Spec Notions PyFacts ReFacts FixMdxIssues.


Lemma render_lits (repl : pystr -> list pystr -> pystr) (s : pystr) :
  concat (map (fun p => match p with Lit c => [c] | Match t gs => repl t gs end)
            (map Lit s)) = s.
Proof. induction s as [|c s IH]; [reflexivity|]. cbn [map concat app]. f_equal. exact IH. Qed.









End ProseFacts.

(** * The rewriting of [convert_md_to_mdx.py]
    ([docs/jupyter/convert_md_to_mdx.py], lines 12-61) *)

Module ConvertRewriteFacts.
Import Py Re Tags Spec Notions PyFacts ReFacts.
Import ConvertMdToMdxFile.

Lemma head_is_not (a : ascii) (s : pystr) (k : nat) :
  Forall (fun c => c <> a) s ->
  match drop k s with c :: _ => c <> a | [] => True end.
Proof.
  intros H. assert (Hd : Forall (fun c => c <> a) (drop k s)) by apply Forall_drop, H.
  destruct (drop k s) as [|c r]; [exact I|]. inversion Hd; assumption.
Qed.

Lemma escape_lt_plain (s : pystr) (before2 before1 : option ascii) :
  Forall (fun c => c <> "<") s -> escape_lt before2 before1 s = s.
Proof.
  intros H. revert before2 before1.
  induction H as [|c r Hc _ IH]; intros before2 before1; [reflexivity|].
  cbn [escape_lt]. rewrite (proj2 (Ascii.eqb_neq c "<") Hc). cbn [andb app].
  rewrite IH. reflexivity.
Qed.

(** A text without [<], [>] and [![] goes through the three markup steps
    unchanged: nothing in it is a comment, an image, an angle bracket or a
    tag. *)
Theorem fix_markup_keeps_plain_text (content : pystr) :
  Forall (fun c => c <> "<") content ->
  Forall (fun c => c <> ">") content ->
  ~ occurs (str "![") content ->
  fix_markup content = content.
Proof.
  intros Hlt Hgt Himg.
  assert (Hhead : forall (m : matcher),
             (forall prev c r, c <> "<" -> m prev (c :: r) = None) ->
             (forall prev, m prev [] = None) ->
             forall repl, sub m repl content = content).
  { intros m Hm Hnil repl. apply PlainFacts.sub_never. intros prev k.
    pose proof (head_is_not "<" content k Hlt) as Hd.
    destruct (drop k content) as [|c r]; [apply Hnil|apply Hm, Hd]. }
  unfold fix_markup.
  rewrite (Hhead comment); cycle 1.
  { intros prev c r Hc. unfold comment. cbn [str list_ascii_of_string startswith].
    rewrite (proj2 (Ascii.eqb_neq "<" c)) by congruence. reflexivity. }
  { reflexivity. }
  rewrite (PlainFacts.sub_never data_image); cycle 1.
  { intros prev k. unfold data_image.
    destruct (startswith (str "![") (drop k content)) eqn:E; [|reflexivity].
    exfalso. apply Himg. apply startswith_prefix in E. destruct E as [r E].
    exists (take k content), r. rewrite <- E, take_drop. reflexivity. }
  rewrite escape_lt_plain by exact Hlt.
  rewrite (PlainFacts.sub_never lone_gt); cycle 1.
  { intros prev k. pose proof (head_is_not ">" content k Hgt) as Hd.
    destruct (drop k content) as [|c r]; [reflexivity|]. unfold lone_gt.
    destruct c as [[] [] [] [] [] [] [] []]; try reflexivity. congruence. }
  rewrite (Hhead open_tag); cycle 1.
  { intros prev c r Hc. unfold open_tag.
    destruct c as [[] [] [] [] [] [] [] []]; try reflexivity. congruence. }
  { reflexivity. }
  apply Hhead.
  - intros prev c r Hc. unfold closed_tag.
    destruct c as [[] [] [] [] [] [] [] []]; try reflexivity. congruence.
  - reflexivity.
Qed.

Lemma fix_markup_keeps_plain_text_witness :
  fix_markup (str "# Notes" ++ nl :: str "Wow! {x} [link](a.html)")
  = str "# Notes" ++ nl :: str "Wow! {x} [link](a.html)".
Proof.
  apply fix_markup_keeps_plain_text.
  - apply List.Forall_forall. intros c Hc. vm_compute in Hc. intuition (subst; discriminate).
  - apply List.Forall_forall. intros c Hc. vm_compute in Hc. intuition (subst; discriminate).
  - intros Hocc. apply RoundTripFacts.occursb_spec in Hocc. vm_compute in Hocc. discriminate.
Defined.

(** ** The last step on a self-closing tag *)

Lemma closed_tag_passes (pre rest : pystr) (prev : option ascii) :
  Forall (fun c => c <> "<") pre ->
  pieces_from closed_tag 0 prev (pre ++ rest)
  = map Lit pre ++ pieces_from closed_tag 0 None rest.
Proof.
  intros H. revert prev. induction H as [|c pre Hc _ IH]; intros prev.
  - apply FixMdxIssuesFacts.pieces_prev. reflexivity.
  - cbn [app map pieces_from].
    replace (closed_tag prev (c :: pre ++ rest)) with (@None found).
    + rewrite IH. reflexivity.
    + unfold closed_tag. destruct c as [[] [] [] [] [] [] [] []]; try reflexivity.
      congruence.
Qed.

(** The last substitution puts a space before the [/>] of a tag, also
    when a space stands there already: the tag [<], a text that starts
    with a word character and has no [>], and [/>] becomes the same with
    [ />] at its end; the text before the tag stays. *)
Theorem closed_tag_step_adds_a_space (pre body post : pystr) (c : ascii) :
  Forall (fun x => x <> "<") pre ->
  isword c = true ->
  Forall (fun x => x <> ">") (c :: body) ->
  sub closed_tag self_closed_tag (pre ++ "<" :: (c :: body) ++ str "/>" ++ post)
  = pre ++ "<" :: (c :: body) ++ str " />" ++ sub closed_tag self_closed_tag post.
Proof.
  intros Hpre Hc Hbody. unfold sub, pieces.
  rewrite closed_tag_passes by exact Hpre.
  rewrite map_app, concat_app. f_equal; [apply ProseFacts.render_lits|].
  set (t := c :: body) in *.
  assert (Hbefore : before ">" (t ++ str "/>" ++ post) = Some (t ++ ["/"])).
  { change (t ++ str "/>" ++ post) with (t ++ ["/"] ++ ">" :: post).
    rewrite app_assoc. apply FixMdxIssuesFacts.before_app.
    apply Forall_app_2; [exact Hbody|]. repeat constructor. discriminate. }
  assert (Ha : exists a, length (takewhile isword (t ++ str "/>" ++ post)) = S a).
  { unfold t. cbn [app takewhile]. rewrite Hc. eexists. reflexivity. }
  destruct Ha as [a Ha].
  assert (Hm : closed_tag None ("<" :: t ++ str "/>" ++ post)
               = Some {| span := S (length t + 2);
                         groups := [take (Nat.min (S a) (length t)) (t ++ str "/>" ++ post);
                                    drop (Nat.min (S a) (length t)) t] |}).
  { unfold closed_tag. rewrite Hbefore, Ha. rewrite length_app. cbn [length].
    replace (length t + 1 - 1) with (length t) by lia.
    rewrite drop_app_length. cbn [Nat.eqb negb andb next_is str list_ascii_of_string app].
    rewrite Ascii.eqb_refl.
    replace (Nat.leb 2 (length t + 1)) with true
      by (symmetry; apply Nat.leb_le; unfold t; cbn [length]; lia).
    cbn [andb]. unfold found_of. rewrite take_app_length.
    do 2 f_equal. lia. }
  assert (Hsplit : "<" :: t ++ str "/>" ++ post = ("<" :: t ++ str "/>") ++ post).
  { cbn [app]. rewrite <- app_assoc. reflexivity. }
  assert (Hlen : S (length t + 2) = length ("<" :: t ++ str "/>")).
  { cbn [length]. rewrite length_app. cbn. lia. }
  rewrite (pieces_match closed_tag None _ _ _ Hm).
  2:{ rewrite Hsplit, length_app, <- Hlen. lia. }
  rewrite Hsplit, Hlen, take_app_length, drop_app_length.
  cbn [map concat]. unfold self_closed_tag at 1. cbn [concat]. rewrite app_nil_r.
  rewrite take_app_le by lia. rewrite take_drop.
  cbn [app]. f_equal. rewrite <- !app_assoc. f_equal. f_equal.
  apply f_equal. apply f_equal. apply FixMdxIssuesFacts.pieces_prev. reflexivity.
Qed.

Lemma closed_tag_step_adds_a_space_witness :
  sub closed_tag self_closed_tag (str "a " ++ "<" :: str "br " ++ str "/>" ++ str " b")
  = str "a " ++ "<" :: str "br " ++ str " />" ++ sub closed_tag self_closed_tag (str " b").
Proof.
  apply (closed_tag_step_adds_a_space (str "a ") (str "r ") (str " b") "b").
  - repeat constructor; discriminate.
  - reflexivity.
  - repeat constructor; discriminate.
Defined.

End ConvertRewriteFacts.

